(** * pyAFT / parsec.py: PARSEC airfoil parameterisation

    A shallow embedding of [src/parsec.py] and the properties of its
    classes [Parameters], [Coefficients] and [Airfoil].

    Numbers.  Every number of the program is an IEEE double (a Python
    [float] or a NumPy [float64]).  They are modelled by [float64]: a finite
    value carries its real value, and the three special values of the format
    (the two infinities and NaN) are kept, because NumPy produces them
    instead of raising ([X**-0.5] at [X = 0], [X**0.5] at [X < 0]).  The
    sign of zero is not modelled.

    Arithmetic.  An operation on finite values returns [rnd x], where [x] is
    its exact real result and [rnd] the rounding of the class [arithmetic]:
    the rounding to the format, overflow to an infinity included.  The
    functions of [math] and the power [**] are taken to round their exact
    result in the same way.  A statement that binds an arithmetic [FA] holds
    in every arithmetic, or, where it says so, in every arithmetic with the
    properties [ieee_like] of IEEE rounding.  A statement that binds none is
    about [exact_arithmetic], in which [rnd x] is [x] itself: such are the
    statements evaluated on concrete data and those on what the solved
    coefficients mean for the surfaces.

    Values.  A genome is [None] or a one-dimensional sequence of floats;
    [n_pts] is an integer.  Every base of [**] in the program is a NumPy
    scalar or array (an entry of [p], a row of [naca0012()]), so [**] is
    NumPy's power, which does not raise.

    Errors.  A Python exception is a [Raise e] result; a method of a mutable
    object is a function from the object to a result and the object as the
    method leaves it.

    Libraries.  [math.sqrt], [math.tan] and [math.radians] are modelled with
    their domain errors; [numpy.linalg.solve] is an interface ([np.linalg]),
    and every general statement holds for every solver.  The statements
    evaluated on concrete data use the exact solver [ExactLinalg.linalg]. *)

From Stdlib Require Import Reals Lra List ZArith Lia Bool.
From Stdlib Require Import ClassicalEpsilon.
Import ListNotations.

(** ** Exceptions and results *)

Inductive exn : Type :=
| ValueError       (* numpy: shape mismatch; math: domain error *)
| AttributeError   (* attribute looked up on an object that lacks it *)
| IndexError       (* sequence index out of range *)
| LinAlgError.     (* numpy.linalg: singular matrix *)

Inductive result (A : Type) : Type :=
| Ok (a : A)
| Raise (e : exn).

Arguments Ok {A} a.
Arguments Raise {A} e.

Class Monad (M : Type -> Type) : Type := {
  ret : forall {A}, A -> M A;
  bind : forall {A B}, M A -> (A -> M B) -> M B
}.

Declare Scope monad_scope.
Delimit Scope monad_scope with monad.
Notation "x <- c1 ;; c2" := (bind c1 (fun x => c2))
  (at level 61, c1 at next level, right associativity) : monad_scope.
Notation "c1 ;; c2" := (bind c1 (fun _ => c2))
  (at level 61, right associativity) : monad_scope.
Open Scope monad_scope.

#[export] Instance result_Monad : Monad result := {
  ret := fun A a => Ok a;
  bind := fun A B c k => match c with Ok a => k a | Raise e => Raise e end
}.

(** ** IEEE doubles *)

Inductive float64 : Type :=
| Fin (r : R)
| PInf
| NInf
| NaN.

Arguments Fin r%_R.

Definition is_nan (a : float64) : bool :=
  match a with NaN => true | _ => false end.

(** The arithmetic of the format.  [rnd x] is the double an operation
    returns when its exact result is the real [x]: [x] rounded to the
    format, or an infinity when [x] overflows it.  A float literal of the
    source is the rounding of its decimal value. *)
Class arithmetic : Type := {
  rnd : R -> float64
}.

(** Exact arithmetic: no rounding and no overflow. *)
#[export] Instance exact_arithmetic : arithmetic := {| rnd := Fin |}.

Module F64.

Open Scope R_scope.

Definition neg (a : float64) : float64 :=
  match a with
  | Fin x => Fin (- x)
  | PInf => NInf
  | NInf => PInf
  | NaN => NaN
  end.

(** An infinity ([positive] tells which) times the finite [r]. *)
Definition inf_times (positive : bool) (r : R) : float64 :=
  match total_order_T r 0 with
  | inleft (left _) => if positive then NInf else PInf
  | inleft (right _) => NaN
  | inright _ => if positive then PInf else NInf
  end.

Definition is_integer (y : R) : Prop := y = IZR (Int_part y).

Definition is_integer_dec (y : R) : {is_integer y} + {~ is_integer y} :=
  Req_dec_T y (IZR (Int_part y)).

Section Operations.

Context {FA : arithmetic}.

Definition add (a b : float64) : float64 :=
  match a, b with
  | NaN, _ | _, NaN => NaN
  | Fin x, Fin y => rnd (x + y)
  | PInf, NInf | NInf, PInf => NaN
  | PInf, _ | _, PInf => PInf
  | NInf, _ | _, NInf => NInf
  end.

Definition sub (a b : float64) : float64 := add a (neg b).

Definition mul (a b : float64) : float64 :=
  match a, b with
  | NaN, _ | _, NaN => NaN
  | Fin x, Fin y => rnd (x * y)
  | PInf, Fin r | Fin r, PInf => inf_times true r
  | NInf, Fin r | Fin r, NInf => inf_times false r
  | PInf, PInf | NInf, NInf => PInf
  | PInf, NInf | NInf, PInf => NInf
  end.

(** Division as NumPy has it: a zero divisor gives an infinity or NaN.
    The only divisor in the program is the literal [2], where a Python
    float and a NumPy scalar agree. *)
Definition div (a b : float64) : float64 :=
  match a, b with
  | NaN, _ | _, NaN => NaN
  | Fin x, Fin y =>
      if Req_dec_T y 0 then inf_times true x else rnd (x / y)
  | Fin _, _ => Fin 0
  | PInf, Fin y => if Rlt_dec y 0 then NInf else PInf
  | NInf, Fin y => if Rlt_dec y 0 then PInf else NInf
  | _, _ => NaN
  end.

(** [x ** y] for a finite exponent [y]: C's [pow], which NumPy calls. *)
Definition pow (x : float64) (y : R) : float64 :=
  if Req_dec_T y 0 then Fin 1 else
  match x with
  | NaN => NaN
  | Fin b =>
      match total_order_T b 0 with
      | inright _ => rnd (Rpower b y)
      | inleft (right _) => if Rlt_dec 0 y then Fin 0 else PInf
      | inleft (left _) =>
          if is_integer_dec y then rnd (powerRZ b (Int_part y)) else NaN
      end
  | PInf => if Rlt_dec 0 y then PInf else Fin 0
  | NInf =>
      if Rlt_dec 0 y
      then (if is_integer_dec y
            then (if Z.odd (Int_part y) then NInf else PInf)
            else PInf)
      else Fin 0
  end.

End Operations.

End F64.

Declare Scope float64_scope.
Delimit Scope float64_scope with f64.
Bind Scope float64_scope with float64.
Infix "+" := F64.add : float64_scope.
Infix "-" := F64.sub : float64_scope.
Infix "*" := F64.mul : float64_scope.
Infix "/" := F64.div : float64_scope.
Notation "- x" := (F64.neg x) : float64_scope.
Notation "x ** y" := (F64.pow x y%R)
  (at level 30, right associativity) : float64_scope.

(** ** The [math] module *)

Module math.

Open Scope R_scope.

Section Functions.

Context {FA : arithmetic}.

(** [math.sqrt]: "math domain error" below zero. *)
Definition sqrt (a : float64) : result float64 :=
  match a with
  | Fin x => if Rle_dec 0 x then Ok (rnd (R_sqrt.sqrt x)) else Raise ValueError
  | PInf => Ok PInf
  | NInf => Raise ValueError
  | NaN => Ok NaN
  end.

(** [math.tan]: "math domain error" at an infinity. *)
Definition tan (a : float64) : result float64 :=
  match a with
  | Fin x => Ok (rnd (Rtrigo1.tan x))
  | PInf | NInf => Raise ValueError
  | NaN => Ok NaN
  end.

(** [math.radians(x)] is [x * (pi / 180)], the factor being a double. *)
Definition radians (a : float64) : float64 :=
  F64.mul a (rnd (PI / 180)).

End Functions.

End math.

(** ** NumPy arrays *)

Definition array := list float64.
Definition matrix := list (list float64).

Module np.

Fixpoint zip_with (f : float64 -> float64 -> float64) (a b : array) : array :=
  match a, b with
  | x :: a', y :: b' => f x y :: zip_with f a' b'
  | _, _ => []
  end.

Section Arrays.

Context {FA : arithmetic}.

(** [np.array] of a sequence of float literals. *)
Definition of_reals (l : list R) : array := map rnd l.

(** Elementwise operations on arrays of one shape. *)
Definition add (a b : array) : array := zip_with F64.add a b.
Definition sub (a b : array) : array := zip_with F64.sub a b.
Definition mul (a b : array) : array := zip_with F64.mul a b.

(** A scalar times an array, an array to a scalar power, [-a]. *)
Definition scale (c : float64) (a : array) : array := map (F64.mul c) a.
Definition pow (a : array) (y : R) : array := map (fun x => F64.pow x y) a.

End Arrays.

Definition neg (a : array) : array := map F64.neg a.

(** [a[i]] on an array whose shape is not known statically. *)
Definition getitem (a : array) (i : nat) : result float64 :=
  match nth_error a i with
  | Some x => Ok x
  | None => Raise IndexError
  end.

(** [a[i]] where [i] is within the static shape of [a]. *)
Definition item (a : array) (i : nat) : float64 := nth i a NaN.

Fixpoint set_nth (i : nat) (v : float64) (a : array) : array :=
  match a, i with
  | [], _ => []
  | _ :: a', O => v :: a'
  | x :: a', S i' => x :: set_nth i' v a'
  end.

(** Broadcasting of a one-dimensional value to the shape [(n,)]. *)
Definition broadcast_to (n : nat) (vals : array) : result array :=
  if Nat.eqb (length vals) n then Ok vals
  else match vals with
       | [v] => Ok (repeat v n)
       | _ => Raise ValueError
       end.

Fixpoint scatter (a : array) (idx : list nat) (vals : array) : array :=
  match idx, vals with
  | i :: idx', v :: vals' => scatter (set_nth i v a) idx' vals'
  | _, _ => a
  end.

(** [a[idx] = vals] with a list of indices. *)
Definition setitem_fancy (a : array) (idx : list nat) (vals : array)
  : result array :=
  vs <- broadcast_to (length idx) vals ;;
  ret (scatter a idx vs).

(** The position a slice bound [n] denotes in a sequence of length [len]:
    negative bounds count from the end, and both ends clip. *)
Definition slice_bound (len : nat) (n : Z) : nat :=
  if (n <? 0)%Z
  then Z.to_nat (Z.max (n + Z.of_nat len) 0)
  else Nat.min (Z.to_nat n) len.

(** [a[:n]] and [a[n:]]. *)
Definition slice_to (a : array) (n : Z) : array :=
  firstn (slice_bound (length a) n) a.
Definition slice_from (a : array) (n : Z) : array :=
  skipn (slice_bound (length a) n) a.

(** [a[:n] = vals] and [a[n:] = vals]. *)
Definition setslice_to (a : array) (n : Z) (vals : array) : result array :=
  let k := slice_bound (length a) n in
  vs <- broadcast_to k vals ;;
  ret (vs ++ skipn k a).
Definition setslice_from (a : array) (n : Z) (vals : array) : result array :=
  let k := slice_bound (length a) n in
  vs <- broadcast_to (length a - k) vals ;;
  ret (firstn k a ++ vs).

(** Row [i] of a matrix, and the matrix with row [i] replaced. *)
Definition row (m : matrix) (i : nat) : array := nth i m [].

Fixpoint set_row (i : nat) (r : array) (m : matrix) : matrix :=
  match m, i with
  | [], _ => []
  | _ :: m', O => r :: m'
  | x :: m', S i' => x :: set_row i' r m'
  end.

Definition shape (m : matrix) : nat * nat :=
  (length m, length (row m 0)).

(** [numpy.linalg]: the linear solver is a library routine (LAPACK),
    taken as an interface. [solve A b] returns the solution vector or
    raises [LinAlgError]. *)
Class linalg : Type := {
  solve : matrix -> array -> result array
}.

End np.

Open Scope float64_scope.

(** ** class Parameters *)

Module Parameters.

Record t : Type := {
  r_le_up : float64;
  X_up : float64;
  Z_up : float64;
  Z_XX_up : float64;
  r_le_lo : float64;
  X_lo : float64;
  Z_lo : float64;
  Z_XX_lo : float64;
  Z_te : float64;
  dZ_te : float64;
  alpha_te : float64;
  beta_te : float64
}.

Definition genome_slots : list nat := [0; 1; 2; 3; 4; 5; 6; 7; 10; 11]%nat.

Section ParametersArithmetic.

Context {FA : arithmetic}.

(** RAE2822, the default normalised vector. *)
Definition param_vector : array :=
  np.of_reals [0.1155; 0.7695; 0.1391; 0.2788; 0.1244; 0.1516;
               0.7519; 0.3076; 0.5116; 0; 0.2629; 0.7630]%R.

Definition r_min : array :=
  np.of_reals [0.0037; 0.1500; 0.0440; -1.0000; 0.0037; 0.3000;
               -0.1200; -1.5000; -0.0100; 0.0020; -10.0000; -10.0000]%R.

Definition r_max : array :=
  np.of_reals [0.0500; 0.5175; 0.1588; 0.3000; 0.0500; 0.6000;
               -0.0400; -0.3000; 0.0100; 0.0026; 10.0000; 20.0000]%R.

Definition spread : array := np.sub r_max r_min.

(** The scaled vector [p] of [__init__]. *)
Definition scaled (genome : option array) : result array :=
  pv <- match genome with
        | None => ret param_vector
        | Some g => np.setitem_fancy param_vector genome_slots g
        end ;;
  ret (np.add (np.mul pv spread) r_min).

(** [Parameters(genome)]. [p] has twelve entries whatever the genome. *)
Definition init (genome : option array) : result t :=
  p <- scaled genome ;;
  ret {| r_le_up := np.item p 0;
         X_up := np.item p 1;
         Z_up := np.item p 2;
         Z_XX_up := np.item p 3;
         r_le_lo := np.item p 4;
         X_lo := np.item p 5;
         Z_lo := np.item p 6;
         Z_XX_lo := - np.item p 7;
         Z_te := np.item p 8;
         dZ_te := np.item p 9;
         alpha_te := math.radians (np.item p 10);
         beta_te := math.radians (np.item p 11) |}.

End ParametersArithmetic.

End Parameters.

(** ** class Coefficients *)

Module Coefficients.

Record t : Type := {
  _a_up : array;
  _a_lo : array
}.

Definition a_up (self : t) : array := _a_up self.
Definition a_lo (self : t) : array := _a_lo self.

Section CoefficientsWithLinalg.

Context {FA : arithmetic}.

Definition _prepare_linsys_Amat (X : float64) : matrix :=
  [[Fin 1.0; Fin 1.0; Fin 1.0; Fin 1.0; Fin 1.0; Fin 1.0];
   [X ** 0.5; X ** 1.5; X ** 2.5; X ** 3.5; X ** 4.5; X ** 5.5];
   [Fin 0.5; Fin 1.5; Fin 2.5; Fin 3.5; Fin 4.5; Fin 5.5];
   [Fin 0.5 * X ** (-0.5); Fin 1.5 * X ** 0.5; Fin 2.5 * X ** 1.5;
    Fin 3.5 * X ** 2.5; Fin 4.5 * X ** 3.5; Fin 5.5 * X ** 4.5];
   [Fin (-0.25) * X ** (-1.5); Fin 0.75 * X ** (-0.5); Fin 3.75 * X ** 0.5;
    Fin 8.75 * X ** 1.5; Fin 13.25 * X ** 2.5; Fin 24.75 * X ** 3.5];
   [Fin 1.0; Fin 0.0; Fin 0.0; Fin 0.0; Fin 0.0; Fin 0.0]].

Context {LA : np.linalg}.

(** [parsec_params.<attribute>]: [None] has no such attribute. *)
Definition getattr (parsec_params : option Parameters.t)
  : result Parameters.t :=
  match parsec_params with
  | Some p => Ok p
  | None => Raise AttributeError
  end.

Definition _calc_a_up (parsec_params : option Parameters.t) : result array :=
  p <- getattr parsec_params ;;
  let Amat := _prepare_linsys_Amat (Parameters.X_up p) in
  b2 <- math.tan (Parameters.alpha_te p - Parameters.beta_te p / Fin 2) ;;
  b5 <- math.sqrt (Fin 2 * Parameters.r_le_up p) ;;
  let Bvec := [Parameters.Z_te p + Parameters.dZ_te p / Fin 2;
               Parameters.Z_up p;
               b2;
               Fin 0.0;
               Parameters.Z_XX_up p;
               b5] in
  np.solve Amat Bvec.

Definition _calc_a_lo (parsec_params : option Parameters.t) : result array :=
  p <- getattr parsec_params ;;
  let Amat := _prepare_linsys_Amat (Parameters.X_lo p) in
  b2 <- math.tan (Parameters.alpha_te p + Parameters.beta_te p / Fin 2) ;;
  b5 <- math.sqrt (Fin 2 * Parameters.r_le_lo p) ;;
  let Bvec := [- Parameters.Z_te p + Parameters.dZ_te p / Fin 2;
               - Parameters.Z_lo p;
               b2;
               Fin 0.0;
               - Parameters.Z_XX_lo p;
               b5] in
  y <- np.solve Amat Bvec ;;
  ret (np.neg y).

(** [Coefficients(parsec_params)]. *)
Definition init (parsec_params : option Parameters.t) : result t :=
  up <- _calc_a_up parsec_params ;;
  lo <- _calc_a_lo parsec_params ;;
  ret {| _a_up := up; _a_lo := lo |}.

End CoefficientsWithLinalg.

End Coefficients.

(** ** The reference curve *)

(** [naca0012()]: a fresh [2 x 200] array on every call; row 0 holds the
    chordwise stations, row 1 the NACA 0012 ordinates. *)
Definition naca0012 {FA : arithmetic} : matrix :=
  [np.of_reals
     [
       9.9975e-01; 9.9901e-01; 9.9778e-01; 9.9606e-01; 9.9384e-01;
       9.9114e-01; 9.8796e-01; 9.8429e-01; 9.8015e-01; 9.7553e-01;
       9.7044e-01; 9.6489e-01; 9.5888e-01; 9.5241e-01; 9.4550e-01;
       9.3815e-01; 9.3037e-01; 9.2216e-01; 9.1354e-01; 9.0451e-01;
       8.9508e-01; 8.8526e-01; 8.7506e-01; 8.6448e-01; 8.5355e-01;
       8.4227e-01; 8.3066e-01; 8.1871e-01; 8.0645e-01; 7.9389e-01;
       7.8104e-01; 7.6791e-01; 7.5452e-01; 7.4088e-01; 7.2699e-01;
       7.1289e-01; 6.9857e-01; 6.8406e-01; 6.6937e-01; 6.5451e-01;
       6.3950e-01; 6.2435e-01; 6.0907e-01; 5.9369e-01; 5.7822e-01;
       5.6267e-01; 5.4705e-01; 5.3139e-01; 5.1570e-01; 5.0000e-01;
       4.8429e-01; 4.6860e-01; 4.5295e-01; 4.3733e-01; 4.2178e-01;
       4.0631e-01; 3.9093e-01; 3.7566e-01; 3.6050e-01; 3.4549e-01;
       3.3063e-01; 3.1594e-01; 3.0143e-01; 2.8711e-01; 2.7300e-01;
       2.5912e-01; 2.4548e-01; 2.3209e-01; 2.1896e-01; 2.0611e-01;
       1.9355e-01; 1.8129e-01; 1.6934e-01; 1.5773e-01; 1.4645e-01;
       1.3552e-01; 1.2494e-01; 1.1474e-01; 1.0492e-01; 9.5492e-02;
       8.6460e-02; 7.7836e-02; 6.9629e-02; 6.1847e-02; 5.4497e-02;
       4.7586e-02; 4.1123e-02; 3.5112e-02; 2.9560e-02; 2.4472e-02;
       1.9853e-02; 1.5708e-02; 1.2042e-02; 8.8560e-03; 6.1560e-03;
       3.9430e-03; 2.2190e-03; 9.8700e-04; 2.4700e-04; 0.0000e+00;
       2.4700e-04; 9.8700e-04; 2.2190e-03; 3.9430e-03; 6.1560e-03;
       8.8560e-03; 1.2042e-02; 1.5708e-02; 1.9853e-02; 2.4472e-02;
       2.9560e-02; 3.5112e-02; 4.1123e-02; 4.7586e-02; 5.4497e-02;
       6.1847e-02; 6.9629e-02; 7.7836e-02; 8.6460e-02; 9.5492e-02;
       1.0492e-01; 1.1474e-01; 1.2494e-01; 1.3552e-01; 1.4645e-01;
       1.5773e-01; 1.6934e-01; 1.8129e-01; 1.9355e-01; 2.0611e-01;
       2.1896e-01; 2.3209e-01; 2.4548e-01; 2.5912e-01; 2.7300e-01;
       2.8711e-01; 3.0143e-01; 3.1594e-01; 3.3063e-01; 3.4549e-01;
       3.6050e-01; 3.7566e-01; 3.9093e-01; 4.0631e-01; 4.2178e-01;
       4.3733e-01; 4.5295e-01; 4.6860e-01; 4.8429e-01; 5.0000e-01;
       5.1570e-01; 5.3139e-01; 5.4705e-01; 5.6267e-01; 5.7822e-01;
       5.9369e-01; 6.0907e-01; 6.2435e-01; 6.3950e-01; 6.5451e-01;
       6.6937e-01; 6.8406e-01; 6.9857e-01; 7.1289e-01; 7.2699e-01;
       7.4088e-01; 7.5452e-01; 7.6791e-01; 7.8104e-01; 7.9389e-01;
       8.0645e-01; 8.1871e-01; 8.3066e-01; 8.4227e-01; 8.5355e-01;
       8.6448e-01; 8.7506e-01; 8.8526e-01; 8.9508e-01; 9.0451e-01;
       9.1354e-01; 9.2216e-01; 9.3037e-01; 9.3815e-01; 9.4550e-01;
       9.5241e-01; 9.5888e-01; 9.6489e-01; 9.7044e-01; 9.7553e-01;
       9.8015e-01; 9.8429e-01; 9.8796e-01; 9.9114e-01; 9.9384e-01;
       9.9606e-01; 9.9778e-01; 9.9901e-01; 9.9975e-01; 1.0000e+00]%R;
   np.of_reals
     [
       3.6000e-05; 1.4300e-04; 3.2200e-04; 5.7200e-04; 8.9100e-04;
       1.2800e-03; 1.7370e-03; 2.2600e-03; 2.8490e-03; 3.5010e-03;
       4.2160e-03; 4.9900e-03; 5.8220e-03; 6.7100e-03; 7.6510e-03;
       8.6430e-03; 9.6840e-03; 1.0770e-02; 1.1900e-02; 1.3071e-02;
       1.4280e-02; 1.5523e-02; 1.6800e-02; 1.8106e-02; 1.9438e-02;
       2.0795e-02; 2.2173e-02; 2.3569e-02; 2.4981e-02; 2.6405e-02;
       2.7838e-02; 2.9279e-02; 3.0723e-02; 3.2168e-02; 3.3610e-02;
       3.5048e-02; 3.6478e-02; 3.7896e-02; 3.9300e-02; 4.0686e-02;
       4.2052e-02; 4.3394e-02; 4.4708e-02; 4.5992e-02; 4.7242e-02;
       4.8455e-02; 4.9626e-02; 5.0754e-02; 5.1833e-02; 5.2862e-02;
       5.3835e-02; 5.4749e-02; 5.5602e-02; 5.6390e-02; 5.7108e-02;
       5.7755e-02; 5.8326e-02; 5.8819e-02; 5.9230e-02; 5.9557e-02;
       5.9797e-02; 5.9947e-02; 6.0006e-02; 5.9971e-02; 5.9841e-02;
       5.9614e-02; 5.9288e-02; 5.8863e-02; 5.8338e-02; 5.7712e-02;
       5.6986e-02; 5.6159e-02; 5.5232e-02; 5.4206e-02; 5.3083e-02;
       5.1862e-02; 5.0546e-02; 4.9138e-02; 4.7638e-02; 4.6049e-02;
       4.4374e-02; 4.2615e-02; 4.0776e-02; 3.8859e-02; 3.6867e-02;
       3.4803e-02; 3.2671e-02; 3.0473e-02; 2.8213e-02; 2.5893e-02;
       2.3517e-02; 2.1088e-02; 1.8607e-02; 1.6078e-02; 1.3503e-02;
       1.0884e-02; 8.2230e-03; 5.5210e-03; 2.7790e-03; 0.0000e+00;
       -2.7790e-03; -5.5210e-03; -8.2230e-03; -1.0884e-02; -1.3503e-02;
       -1.6078e-02; -1.8607e-02; -2.1088e-02; -2.3517e-02; -2.5893e-02;
       -2.8213e-02; -3.0473e-02; -3.2671e-02; -3.4803e-02; -3.6867e-02;
       -3.8859e-02; -4.0776e-02; -4.2615e-02; -4.4374e-02; -4.6049e-02;
       -4.7638e-02; -4.9138e-02; -5.0546e-02; -5.1862e-02; -5.3083e-02;
       -5.4206e-02; -5.5232e-02; -5.6159e-02; -5.6986e-02; -5.7712e-02;
       -5.8338e-02; -5.8863e-02; -5.9288e-02; -5.9614e-02; -5.9841e-02;
       -5.9971e-02; -6.0006e-02; -5.9947e-02; -5.9797e-02; -5.9557e-02;
       -5.9230e-02; -5.8819e-02; -5.8326e-02; -5.7755e-02; -5.7108e-02;
       -5.6390e-02; -5.5602e-02; -5.4749e-02; -5.3835e-02; -5.2862e-02;
       -5.1833e-02; -5.0754e-02; -4.9626e-02; -4.8455e-02; -4.7242e-02;
       -4.5992e-02; -4.4708e-02; -4.3394e-02; -4.2052e-02; -4.0686e-02;
       -3.9300e-02; -3.7896e-02; -3.6478e-02; -3.5048e-02; -3.3610e-02;
       -3.2168e-02; -3.0723e-02; -2.9279e-02; -2.7838e-02; -2.6405e-02;
       -2.4981e-02; -2.3569e-02; -2.2173e-02; -2.0795e-02; -1.9438e-02;
       -1.8106e-02; -1.6800e-02; -1.5523e-02; -1.4280e-02; -1.3071e-02;
       -1.1900e-02; -1.0770e-02; -9.6840e-03; -8.6430e-03; -7.6510e-03;
       -6.7100e-03; -5.8220e-03; -4.9900e-03; -4.2160e-03; -3.5010e-03;
       -2.8490e-03; -2.2600e-03; -1.7370e-03; -1.2800e-03; -8.9100e-04;
       -5.7200e-04; -3.2200e-04; -1.4300e-04; -3.6000e-05; 0.0000e+00]%R].

(** ** class Airfoil *)

Module Airfoil.

(** The attributes of an instance. [_coeff] is [None] while the attribute
    has not been assigned. *)
Record t : Type := {
  params : option Parameters.t;
  _coeff : option Coefficients.t
}.

(** A method that may assign attributes and may raise: the instance is
    returned as the method leaves it, also when it raises. *)
Definition method (A : Type) : Type := t -> result A * t.

#[export] Instance method_Monad : Monad method := {
  ret := fun A a self => (Ok a, self);
  bind := fun A B c k self =>
    match c self with
    | (Ok a, self') => k a self'
    | (Raise e, self') => (Raise e, self')
    end
}.

Definition lift {A} (r : result A) : method A := fun self => (r, self).
Definition this : method t := fun self => (Ok self, self).
Definition set_params (p : option Parameters.t) : method unit :=
  fun self => (Ok tt, {| params := p; _coeff := _coeff self |}).
Definition set__coeff (c : Coefficients.t) : method unit :=
  fun self => (Ok tt, {| params := params self; _coeff := Some c |}).

Section AirfoilWithLinalg.

Context {FA : arithmetic}.

(** [Airfoil(parsec_params)]. *)
Definition init (parsec_params : option array) : result t :=
  p <- Parameters.init parsec_params ;;
  ret {| params := Some p; _coeff := None |}.

(** [self._coeff]. *)
Definition get__coeff (self : t) : result Coefficients.t :=
  match _coeff self with
  | Some c => Ok c
  | None => Raise AttributeError
  end.

Definition Z_up (self : t) (X : array) : result array :=
  c <- get__coeff self ;;
  let a := Coefficients.a_up c in
  a0 <- np.getitem a 0 ;;
  a1 <- np.getitem a 1 ;;
  a2 <- np.getitem a 2 ;;
  a3 <- np.getitem a 3 ;;
  a4 <- np.getitem a 4 ;;
  a5 <- np.getitem a 5 ;;
  ret (np.add (np.add (np.add (np.add (np.add
         (np.scale a0 (np.pow X 0.5))
         (np.scale a1 (np.pow X 1.5)))
         (np.scale a2 (np.pow X 2.5)))
         (np.scale a3 (np.pow X 3.5)))
         (np.scale a4 (np.pow X 4.5)))
         (np.scale a5 (np.pow X 5.5))).

Definition Z_lo (self : t) (X : array) : result array :=
  c <- get__coeff self ;;
  let a := Coefficients.a_lo c in
  a0 <- np.getitem a 0 ;;
  a1 <- np.getitem a 1 ;;
  a2 <- np.getitem a 2 ;;
  a3 <- np.getitem a 3 ;;
  a4 <- np.getitem a 4 ;;
  a5 <- np.getitem a 5 ;;
  ret (np.add (np.add (np.add (np.add (np.add
         (np.scale a0 (np.pow X 0.5))
         (np.scale a1 (np.pow X 1.5)))
         (np.scale a2 (np.pow X 2.5)))
         (np.scale a3 (np.pow X 3.5)))
         (np.scale a4 (np.pow X 4.5)))
         (np.scale a5 (np.pow X 5.5))).

Context {LA : np.linalg}.

Definition express (params : option array) (n_pts : Z) : method matrix :=
  self <- this ;;
  match Airfoil.params self with
  | Some _ =>
      p <- lift (Parameters.init params) ;;
      set_params (Some p)
  | None => ret tt
  end ;;
  self <- this ;;
  c <- lift (Coefficients.init (Airfoil.params self)) ;;
  set__coeff c ;;
  let foil := naca0012 in
  self <- this ;;
  zu <- lift (Z_up self (np.slice_to (np.row foil 0) n_pts)) ;;
  z <- lift (np.setslice_to (np.row foil 1) n_pts zu) ;;
  let foil := np.set_row 1 z foil in
  self <- this ;;
  zl <- lift (Z_lo self (np.slice_from (np.row foil 0) n_pts)) ;;
  z <- lift (np.setslice_from (np.row foil 1) n_pts zl) ;;
  let foil := np.set_row 1 z foil in
  ret foil.

(** The defaults of [express]: [params=None, n_pts=100]. *)
Definition express_default : method matrix := express None 100.

End AirfoilWithLinalg.

End Airfoil.

(** ** Reference definitions used by the statements *)

(** The PARSEC polynomial [sum a_k * X^(k+0.5)] that [Z_up] and [Z_lo]
    both evaluate, on the coefficients [a] at the stations [X]. *)
Definition polynomial {FA : arithmetic} (a : array) (X : array)
  : result array :=
  a0 <- np.getitem a 0 ;;
  a1 <- np.getitem a 1 ;;
  a2 <- np.getitem a 2 ;;
  a3 <- np.getitem a 3 ;;
  a4 <- np.getitem a 4 ;;
  a5 <- np.getitem a 5 ;;
  ret (np.add (np.add (np.add (np.add (np.add
         (np.scale a0 (np.pow X 0.5))
         (np.scale a1 (np.pow X 1.5)))
         (np.scale a2 (np.pow X 2.5)))
         (np.scale a3 (np.pow X 3.5)))
         (np.scale a4 (np.pow X 4.5)))
         (np.scale a5 (np.pow X 5.5))).

(** The basis functions [X^(k+0.5)], [k = 0..5], and their derivatives, as
    the specification words them. *)
Module Basis.

Open Scope R_scope.

Definition ks : list nat := seq 0 6.

Definition exponent (k : nat) : R := INR k + 0.5.

Definition value (k : nat) (x : R) : R := Rpower x (INR k + 0.5).

Definition first_derivative (k : nat) (x : R) : R :=
  (INR k + 0.5) * Rpower x (INR k - 0.5).

Definition second_derivative (k : nat) (x : R) : R :=
  (INR k + 0.5) * (INR k - 0.5) * Rpower x (INR k - 1.5).

End Basis.

(** The matrix of [_prepare_linsys_Amat] at a positive station, over the
    reals. *)
Definition Amat_real (x : R) : list (list R) :=
  [[1; 1; 1; 1; 1; 1];
   [Rpower x 0.5; Rpower x 1.5; Rpower x 2.5;
    Rpower x 3.5; Rpower x 4.5; Rpower x 5.5];
   [0.5; 1.5; 2.5; 3.5; 4.5; 5.5];
   [0.5 * Rpower x (-0.5); 1.5 * Rpower x 0.5; 2.5 * Rpower x 1.5;
    3.5 * Rpower x 2.5; 4.5 * Rpower x 3.5; 5.5 * Rpower x 4.5];
   [-0.25 * Rpower x (-1.5); 0.75 * Rpower x (-0.5); 3.75 * Rpower x 0.5;
    8.75 * Rpower x 1.5; 13.25 * Rpower x 2.5; 24.75 * Rpower x 3.5];
   [1; 0; 0; 0; 0; 0]]%R.

(** What [_prepare_linsys_Amat] returns at [X = 0], at every finite
    [X < 0] and at [X = -inf]. *)
Definition Amat_at_zero : matrix :=
  [[Fin 1; Fin 1; Fin 1; Fin 1; Fin 1; Fin 1];
   [Fin 0; Fin 0; Fin 0; Fin 0; Fin 0; Fin 0];
   [Fin 0.5; Fin 1.5; Fin 2.5; Fin 3.5; Fin 4.5; Fin 5.5];
   [PInf; Fin 0; Fin 0; Fin 0; Fin 0; Fin 0];
   [NInf; PInf; Fin 0; Fin 0; Fin 0; Fin 0];
   [Fin 1; Fin 0; Fin 0; Fin 0; Fin 0; Fin 0]].

Definition Amat_below_zero : matrix :=
  [[Fin 1; Fin 1; Fin 1; Fin 1; Fin 1; Fin 1];
   [NaN; NaN; NaN; NaN; NaN; NaN];
   [Fin 0.5; Fin 1.5; Fin 2.5; Fin 3.5; Fin 4.5; Fin 5.5];
   [NaN; NaN; NaN; NaN; NaN; NaN];
   [NaN; NaN; NaN; NaN; NaN; NaN];
   [Fin 1; Fin 0; Fin 0; Fin 0; Fin 0; Fin 0]].

Definition Amat_at_minus_infinity : matrix :=
  [[Fin 1; Fin 1; Fin 1; Fin 1; Fin 1; Fin 1];
   [PInf; PInf; PInf; PInf; PInf; PInf];
   [Fin 0.5; Fin 1.5; Fin 2.5; Fin 3.5; Fin 4.5; Fin 5.5];
   [Fin 0; PInf; PInf; PInf; PInf; PInf];
   [Fin 0; Fin 0; PInf; PInf; PInf; PInf];
   [Fin 1; Fin 0; Fin 0; Fin 0; Fin 0; Fin 0]].

(** A crest location that is zero or negative: a finite double [x <= 0], or
    [-inf]. *)
Definition nonpositive (X : float64) : Prop :=
  X = NInf \/ exists x, X = Fin x /\ (x <= 0)%R.

(** A normalised genome entry, and a value between two bounds of the
    scaling table.  Both ask for a finite value. *)
Definition unit_interval (a : float64) : Prop :=
  exists r, a = Fin r /\ (0 <= r <= 1)%R.

Definition within (lo hi a : float64) : Prop :=
  exists l h r, lo = Fin l /\ hi = Fin h /\ a = Fin r /\ (l <= r <= h)%R.

Definition within_slot {FA : arithmetic} (i : nat) (a : float64) : Prop :=
  within (np.item Parameters.r_min i) (np.item Parameters.r_max i) a.

(** ** Rounded arithmetic

    What the statements on rounded arithmetic use of [rnd].  IEEE binary64
    with rounding to nearest has each of these properties: a real of
    magnitude up to [1e300] is rounded to a finite double; rounding is
    monotone; a double is its own rounding, and so are 0 and 1; the relative
    error of a rounding is at most [2^-53 < 2e-16] in the normal range and
    its absolute error at most [2^-1075 < 1e-300] below it; a rounding is
    never NaN. *)
Record ieee_like (FA : arithmetic) : Prop := {
  rnd_finite : forall x, (Rabs x <= 1e300)%R -> exists y, rnd x = Fin y;
  rnd_monotone : forall x y x' y',
    (x <= y)%R -> rnd x = Fin x' -> rnd y = Fin y' -> (x' <= y')%R;
  rnd_idempotent : forall x y, rnd x = Fin y -> rnd y = Fin y;
  rnd_zero : rnd 0 = Fin 0;
  rnd_one : rnd 1 = Fin 1;
  rnd_error : forall x y,
    rnd x = Fin y -> (Rabs (y - x) <= 2e-16 * Rabs x + 1e-300)%R;
  rnd_not_nan : forall x, rnd x <> NaN
}.

(** An arithmetic that rounds in one place, as binary64 does there: the
    reals from [1.3] to [1.3 + 2e-16] are rounded up to [1.3 + 2e-16]
    (the double of 1.3 is 1.3000000000000000444), and every other real is
    its own rounding. *)
Definition rounding_at_13 : arithmetic :=
  {| rnd := fun x =>
       if Rle_dec 1.3 x
       then if Rle_dec x (1.3 + 2e-16) then Fin (1.3 + 2e-16) else Fin x
       else Fin x |}.

(** A value between two bounds of the scaling table in rounded arithmetic:
    not below the lower bound, and above the upper bound by the rounding of
    the scaling at most. *)
Definition within_rounded (lo hi a : float64) : Prop :=
  exists l h r,
    lo = Fin l /\ hi = Fin h /\ a = Fin r /\ (l <= r <= h + 1e-13)%R.

Definition within_slot_rounded {FA : arithmetic} (i : nat) (a : float64)
  : Prop :=
  within_rounded (np.item Parameters.r_min i) (np.item Parameters.r_max i) a.

(** ** An exact linear solver

    The instance of [np.linalg] used where a statement is evaluated on
    concrete data: the solver in exact arithmetic, for systems of finite
    entries.  A square system has its unique solution for result, and
    [LinAlgError] is raised when there is none or several (a singular
    matrix). *)
Module ExactLinalg.

Open Scope R_scope.

Fixpoint dot (u v : list R) : R :=
  match u, v with
  | x :: u', y :: v' => x * y + dot u' v'
  | _, _ => 0
  end.

Definition mat_vec (A : list (list R)) (y : list R) : list R :=
  map (fun r => dot r y) A.

(** [y] solves the square system [A y = b] of finite entries. *)
Definition is_solution (A : matrix) (b : array) (y : list R) : Prop :=
  exists A' b',
    A = map (map Fin) A' /\ b = map Fin b' /\
    Forall (fun r => length r = length b') A' /\
    length y = length b' /\
    mat_vec A' y = b'.

Definition solve (A : matrix) (b : array) : result array :=
  match excluded_middle_informative (exists! y, is_solution A b y) with
  | left H =>
      Ok (map Fin (proj1_sig (constructive_definite_description _ H)))
  | right _ => Raise LinAlgError
  end.

Definition linalg : np.linalg := {| np.solve := solve |}.

(** The inverse of the matrix of [_prepare_linsys_Amat] at [X = 0.36]. *)
Definition Amat_036_inverse : list (list R) :=
  [
   [0;
    0;
    0;
    0;
    0;
    1];
   [5099355 / 8364032;
    4142265625 / 225828864;
    (-110079) / 1045504;
    (-12696875) / 3136512;
    375 / 2042;
    (-97729) / 12252];
   [(-2624481) / 1045504;
    (-5421640625) / 84685824;
    62613 / 130688;
    68040625 / 3528576;
    (-4250) / 3063;
    634267 / 27567];
   [(-5591925) / 4182016;
    288489921875 / 3048689664;
    (-6975) / 522752;
    (-1111915625) / 42342912;
    100375 / 27567;
    (-43669025) / 1488618];
   [866875 / 65344;
    (-3361328125) / 47635776;
    (-8125) / 4084;
    1796875 / 165402;
    (-106250) / 27567;
    12320000 / 744309];
   [(-75515625) / 8364032;
    131787109375 / 6097379328;
    1703125 / 1045504;
    13671875 / 84685824;
    78125 / 55134;
    (-9671875) / 2977236]].

(** A genome whose two crest locations are [X_up = X_lo = 0.36]. *)
Definition genome_036 : array :=
  np.of_reals [0.5; 4 / 7; 0.5; 0.5; 0.5; 0.2; 0.5; 0.5; 0.5; 0.5].

(** The parameters of that genome, and the coefficients the exact solver
    finds for them. *)
Definition params_036 : Parameters.t :=
  {| Parameters.r_le_up := Fin 0.02685;
     Parameters.X_up := Fin 0.36;
     Parameters.Z_up := Fin 0.1014;
     Parameters.Z_XX_up := Fin (-0.35);
     Parameters.r_le_lo := Fin 0.02685;
     Parameters.X_lo := Fin 0.36;
     Parameters.Z_lo := Fin (-0.08);
     Parameters.Z_XX_lo := Fin 0.9;
     Parameters.Z_te := Fin 0.000232;
     Parameters.dZ_te := Fin 0.002;
     Parameters.alpha_te := Fin 0;
     Parameters.beta_te := Fin (PI / 36) |}.

Definition Bvec_up_036 : list R :=
  [0.000232 + 0.002 / 2; 0.1014; tan (0 - PI / 36 / 2);
   0; -0.35; sqrt (2 * 0.02685)].

Definition Bvec_lo_036 : list R :=
  [- 0.000232 + 0.002 / 2; - -0.08; tan (0 + PI / 36 / 2);
   0; - 0.9; sqrt (2 * 0.02685)].

Definition coefficients_036 : Coefficients.t :=
  {| Coefficients._a_up := map Fin (mat_vec Amat_036_inverse Bvec_up_036);
     Coefficients._a_lo :=
       np.neg (map Fin (mat_vec Amat_036_inverse Bvec_lo_036)) |}.

(** The airfoil constructed from that genome, before and after a call of
    [express] with the same genome. *)
Definition airfoil_036 : Airfoil.t :=
  {| Airfoil.params := Some params_036; Airfoil._coeff := None |}.

Definition airfoil_036_expressed : Airfoil.t :=
  {| Airfoil.params := Some params_036;
     Airfoil._coeff := Some coefficients_036 |}.

End ExactLinalg.

(** ** Definitions for the properties of the surfaces *)

Definition finite (a : float64) : Prop := exists r, a = Fin r.

(** A finite value of magnitude [B] at most. *)
Definition bounded (B : R) (a : float64) : Prop :=
  exists r, a = Fin r /\ (- B <= r <= B)%R.

(** Parameters whose twelve attributes are finite. *)
Definition finite_parameters
    (rleu xu zu zxxu rlel xl zl zxxl zte dzte al be : R) : Parameters.t :=
  {| Parameters.r_le_up := Fin rleu;
     Parameters.X_up := Fin xu;
     Parameters.Z_up := Fin zu;
     Parameters.Z_XX_up := Fin zxxu;
     Parameters.r_le_lo := Fin rlel;
     Parameters.X_lo := Fin xl;
     Parameters.Z_lo := Fin zl;
     Parameters.Z_XX_lo := Fin zxxl;
     Parameters.Z_te := Fin zte;
     Parameters.dZ_te := Fin dzte;
     Parameters.alpha_te := Fin al;
     Parameters.beta_te := Fin be |}.

(** The expression [a[0]*X**0.5 + a[1]*X**1.5 + ... + a[5]*X**5.5] of
    [Z_up] and [Z_lo] at one station. *)
Definition polynomial_at {FA : arithmetic} (a0 a1 a2 a3 a4 a5 x : float64)
  : float64 :=
  a0 * x ** 0.5 + a1 * x ** 1.5 + a2 * x ** 2.5 + a3 * x ** 3.5
  + a4 * x ** 4.5 + a5 * x ** 5.5.

(** The surface [sum a_k * x^(k+0.5)] as a real function of a positive
    station, with its first and second derivative. *)
Module Surface.

Definition value (a : list R) (x : R) : R :=
  ExactLinalg.dot a (map (fun k => Basis.value k x) Basis.ks).

Definition slope (a : list R) (x : R) : R :=
  ExactLinalg.dot a (map (fun k => Basis.first_derivative k x) Basis.ks).

Definition curvature (a : list R) (x : R) : R :=
  ExactLinalg.dot a (map (fun k => Basis.second_derivative k x) Basis.ks).

End Surface.

(** A solver is sound when what it returns for a system of finite entries
    is a solution of the system, in exact arithmetic. *)
Definition sound_solver (LA : np.linalg) : Prop :=
  forall (A : list (list R)) (b : list R) (y : array),
    np.solve (map (map Fin) A) (map Fin b) = Ok y ->
    exists y', y = map Fin y' /\ length y' = length b /\
               ExactLinalg.mat_vec A y' = b.

(** A solver as NumPy documents it: the only exception is [LinAlgError], and
    the result has the shape of the right-hand side. *)
Definition numpy_like_solver (LA : np.linalg) : Prop :=
  (forall A b e, np.solve A b = Raise e -> e = LinAlgError) /\
  (forall A b y, np.solve A b = Ok y -> length y = length b).

(** Inputs on which the further properties are evaluated: a genome whose
    first entry lies below the envelope and gives a negative [r_le_up], and
    parameters that are symmetric about the chord. *)
Definition genome_negative_radius : array :=
  np.of_reals [-1; 0.5; 0.5; 0.5; 0.5; 0.5; 0.5; 0.5; 0.5; 0.5]%R.

Definition symmetric_parameters : Parameters.t :=
  finite_parameters 0.01 0.36 0.06 (Ropp 0.5)
                    0.01 0.36 (Ropp 0.06) (Ropp (Ropp 0.5))
                    0 0.002 0 0.

(** * Properties *)

(** ** Arithmetic of [float64] *)

Module F64Facts.

Open Scope R_scope.

Lemma inf_times_pos (s : bool) (r : R) :
  0 < r -> F64.inf_times s r = if s then PInf else NInf.
Proof.
  intros Hr. unfold F64.inf_times.
  destruct (total_order_T r 0) as [[Hlt | Heq] | Hgt]; try lra.
  reflexivity.
Qed.

Lemma inf_times_neg (s : bool) (r : R) :
  r < 0 -> F64.inf_times s r = if s then NInf else PInf.
Proof.
  intros Hr. unfold F64.inf_times.
  destruct (total_order_T r 0) as [[Hlt | Heq] | Hgt]; try lra.
  reflexivity.
Qed.

Lemma div_Fin (x y : R) :
  y <> 0 -> F64.div (Fin x) (Fin y) = Fin (x / y).
Proof.
  intros Hy. unfold F64.div.
  destruct (Req_dec_T y 0) as [H0 | _]; [contradiction | reflexivity].
Qed.

(** A positive base: the real power function. *)
Lemma pow_pos (x y : R) :
  0 < x -> F64.pow (Fin x) y = Fin (Rpower x y).
Proof.
  intros Hx. unfold F64.pow.
  destruct (Req_dec_T y 0) as [-> | Hy].
  - now rewrite Rpower_O.
  - destruct (total_order_T x 0) as [[Hlt | Heq] | Hgt]; try lra.
    reflexivity.
Qed.

(** Base zero: [0] for a positive exponent, [+inf] for a negative one. *)
Lemma pow_zero_pos (y : R) : 0 < y -> F64.pow (Fin 0) y = Fin 0.
Proof.
  intros Hy. unfold F64.pow.
  destruct (Req_dec_T y 0) as [-> | _]; [lra |].
  destruct (total_order_T 0 0) as [[Hlt | _] | Hgt]; try lra.
  destruct (Rlt_dec 0 y); [reflexivity | contradiction].
Qed.

Lemma pow_zero_neg (y : R) : y < 0 -> F64.pow (Fin 0) y = PInf.
Proof.
  intros Hy. unfold F64.pow.
  destruct (Req_dec_T y 0) as [-> | _]; [lra |].
  destruct (total_order_T 0 0) as [[Hlt | _] | Hgt]; try lra.
  destruct (Rlt_dec 0 y); [lra | reflexivity].
Qed.

(** The exponents of the program are half-integers, never integers. *)
Lemma half_integer_not_integer (z : Z) : ~ F64.is_integer (IZR z + 0.5).
Proof.
  unfold F64.is_integer. generalize (Int_part (IZR z + 0.5)). intros n Hn.
  assert (H : IZR (2 * z + 1) = IZR (2 * n)).
  { rewrite plus_IZR, !mult_IZR. lra. }
  apply eq_IZR in H. lia.
Qed.

(** A negative base to a half-integer power is NaN. *)
Lemma pow_neg_half (x : R) (z : Z) :
  x < 0 -> F64.pow (Fin x) (IZR z + 0.5) = NaN.
Proof.
  intros Hx. unfold F64.pow.
  destruct (Req_dec_T (IZR z + 0.5) 0) as [H0 | _].
  - exfalso. assert (H : IZR (2 * z + 1) = IZR 0).
    { rewrite plus_IZR, mult_IZR. lra. }
    apply eq_IZR in H. lia.
  - destruct (total_order_T x 0) as [[Hlt | Heq] | Hgt]; try lra.
    destruct (F64.is_integer_dec (IZR z + 0.5)) as [Hi | _]; [| reflexivity].
    now apply half_integer_not_integer in Hi.
Qed.

Lemma pow_neg_half_eq (z : Z) (y x : R) :
  x < 0 -> y = IZR z + 0.5 -> F64.pow (Fin x) y = NaN.
Proof. intros Hx ->. now apply pow_neg_half. Qed.

(** Base [-inf]: [+inf] for a positive half-integer exponent, [0] for a
    negative exponent. *)
Lemma pow_minus_infinity_pos (z : Z) (y : R) :
  0 < y -> y = IZR z + 0.5 -> F64.pow NInf y = PInf.
Proof.
  intros Hy ->. unfold F64.pow.
  destruct (Req_dec_T (IZR z + 0.5) 0) as [H0 | _]; [lra |].
  destruct (Rlt_dec 0 (IZR z + 0.5)) as [_ | Hn]; [| contradiction].
  destruct (F64.is_integer_dec (IZR z + 0.5)) as [Hi | _]; [| reflexivity].
  now apply half_integer_not_integer in Hi.
Qed.

Lemma pow_minus_infinity_neg (y : R) : y < 0 -> F64.pow NInf y = Fin 0.
Proof.
  intros Hy. unfold F64.pow.
  destruct (Req_dec_T y 0) as [-> | _]; [lra |].
  destruct (Rlt_dec 0 y); [lra | reflexivity].
Qed.

Lemma Fin_inj (x y : R) : Fin x = Fin y -> x = y.
Proof. now intros [= ->]. Qed.

End F64Facts.

(** ** Rounded arithmetic *)

Module ArithmeticFacts.

Open Scope R_scope.

Lemma Rabs_le_between (a b : R) : Rabs a <= b -> - b <= a <= b.
Proof. unfold Rabs. destruct (Rcase_abs a); lra. Qed.

(** Exact arithmetic has the properties asked of a rounding. *)
Lemma exact_ieee_like : ieee_like exact_arithmetic.
Proof.
  split; cbn [rnd exact_arithmetic].
  - intros x _. now exists x.
  - intros x y x' y' H [= <-] [= <-]. exact H.
  - intros x y [= <-]. reflexivity.
  - reflexivity.
  - reflexivity.
  - intros x y [= <-]. unfold Rminus. rewrite Rplus_opp_r, Rabs_R0.
    pose proof (Rabs_pos x). lra.
  - discriminate.
Qed.

Section Rounding.

Context {FA : arithmetic}.
Hypothesis ieee : ieee_like FA.

(** The rounding of a real of magnitude [B] at most is finite and within
    [2e-16 * B + 1e-300] of it. *)
Lemma rnd_near (x B : R) :
  Rabs x <= B -> B <= 1e300 ->
  exists y,
    rnd x = Fin y /\
    x - (2e-16 * B + 1e-300) <= y <= x + (2e-16 * B + 1e-300).
Proof.
  intros Hx HB.
  destruct (rnd_finite _ ieee x ltac:(lra)) as [y Hy].
  exists y. split; [exact Hy |].
  pose proof (rnd_error _ ieee x y Hy) as He.
  apply Rabs_le_between in He. lra.
Qed.

(** A literal of the unit interval is a double of the unit interval. *)
Lemma unit_literal (x : R) : 0 <= x <= 1 -> unit_interval (rnd x).
Proof.
  intros Hx.
  destruct (rnd_finite _ ieee x) as [y Hy].
  { apply Rle_trans with 1; [apply Rabs_le; lra | lra]. }
  exists y. split; [exact Hy |]. split.
  - exact (rnd_monotone _ ieee 0 x 0 y (proj1 Hx) (rnd_zero _ ieee) Hy).
  - exact (rnd_monotone _ ieee x 1 y 1 (proj2 Hx) Hy (rnd_one _ ieee)).
Qed.

(** One entry of the scaled vector, [g * (max - min) + min] on the doubles
    of the literals [max] and [min]: it is finite, not below the double of
    [min], and above the double of [max] by three roundings at most. *)
Lemma scaled_entry (m M g : R) :
  -20 <= m -> m <= M -> M <= 20 -> 0 <= g <= 1 ->
  within_rounded (rnd m) (rnd M)
                 (Fin g * (rnd M - rnd m) + rnd m)%f64.
Proof.
  intros Hm HmM HM Hg.
  destruct (rnd_near m 20) as (l & Hl & Bl); [apply Rabs_le; lra | lra |].
  destruct (rnd_near M 20) as (h & Hh & Bh); [apply Rabs_le; lra | lra |].
  assert (Hlh : l <= h) by exact (rnd_monotone _ ieee m M l h HmM Hl Hh).
  rewrite Hl, Hh. unfold F64.sub. cbn [F64.neg F64.add].
  destruct (rnd_near (h + - l) 41) as (s & Hs & Bs);
    [apply Rabs_le; lra | lra |].
  assert (Hs0 : 0 <= s).
  { apply (rnd_monotone _ ieee 0 (h + - l) 0 s);
      [lra | apply (rnd_zero _ ieee) | exact Hs]. }
  rewrite Hs. cbn [F64.mul].
  assert (Hgs : 0 <= g * s <= s) by nra.
  destruct (rnd_near (g * s) 42) as (t & Ht & Bt);
    [apply Rabs_le; lra | lra |].
  assert (Ht0 : 0 <= t).
  { apply (rnd_monotone _ ieee 0 (g * s) 0 t);
      [lra | apply (rnd_zero _ ieee) | exact Ht]. }
  assert (Hts : t <= s).
  { apply (rnd_monotone _ ieee (g * s) s t s);
      [lra | exact Ht | exact (rnd_idempotent _ ieee _ _ Hs)]. }
  rewrite Ht. cbn [F64.add].
  destruct (rnd_near (t + l) 63) as (r & Hr & Br);
    [apply Rabs_le; lra | lra |].
  rewrite Hr. exists l, h, r.
  split; [reflexivity |]. split; [reflexivity |]. split; [reflexivity |].
  split.
  - apply (rnd_monotone _ ieee l (t + l) l r);
      [lra | exact (rnd_idempotent _ ieee _ _ Hl) | exact Hr].
  - lra.
Qed.

End Rounding.

End ArithmeticFacts.

(** ** The surface system: the matrix of [_prepare_linsys_Amat]

    The entries of the matrix are compared with real functions of the
    station: the statements are about exact arithmetic. *)

Module BasisFacts.

Import Basis.
Open Scope R_scope.

(** The two formulas are the derivatives they are named after. *)
Lemma first_derivative_correct (k : nat) (x : R) :
  0 < x -> derivable_pt_lim (value k) x (first_derivative k x).
Proof.
  intros Hx. unfold value, first_derivative.
  replace (INR k - 0.5) with (INR k + 0.5 - 1) by lra.
  now apply derivable_pt_lim_power.
Qed.

Lemma second_derivative_correct (k : nat) (x : R) :
  0 < x -> derivable_pt_lim (first_derivative k) x (second_derivative k x).
Proof.
  intros Hx. unfold first_derivative, second_derivative.
  replace (INR k - 1.5) with (INR k - 0.5 - 1) by lra.
  rewrite Rmult_assoc.
  apply (derivable_pt_lim_scal (fun x => Rpower x (INR k - 0.5))).
  now apply derivable_pt_lim_power.
Qed.

End BasisFacts.

Module AmatFacts.

Import Coefficients.
Open Scope R_scope.

(** The matrix at a positive station, entry by entry. *)
Lemma Amat_pos (x : R) :
  0 < x ->
  _prepare_linsys_Amat (Fin x) = map (map Fin) (Amat_real x).
Proof.
  intros Hx. unfold _prepare_linsys_Amat, Amat_real.
  rewrite !(fun y => F64Facts.pow_pos x y Hx). simpl.
  repeat (f_equal; try (f_equal; lra)).
Qed.

Lemma Amat_zero : _prepare_linsys_Amat (Fin 0) = Amat_at_zero.
Proof.
  unfold _prepare_linsys_Amat, Amat_at_zero.
  rewrite !F64Facts.pow_zero_pos by lra.
  rewrite !F64Facts.pow_zero_neg by lra.
  simpl.
  repeat first [ rewrite F64Facts.inf_times_pos by lra
               | rewrite F64Facts.inf_times_neg by lra ].
  repeat (f_equal; try (f_equal; lra)).
Qed.

Lemma Amat_neg (x : R) :
  x < 0 -> _prepare_linsys_Amat (Fin x) = Amat_below_zero.
Proof.
  intros Hx. unfold _prepare_linsys_Amat, Amat_below_zero.
  repeat match goal with
         | |- context [F64.pow (Fin x) ?y] =>
             first [ rewrite (F64Facts.pow_neg_half_eq (-2) y x Hx) by lra
                   | rewrite (F64Facts.pow_neg_half_eq (-1) y x Hx) by lra
                   | rewrite (F64Facts.pow_neg_half_eq 0 y x Hx) by lra
                   | rewrite (F64Facts.pow_neg_half_eq 1 y x Hx) by lra
                   | rewrite (F64Facts.pow_neg_half_eq 2 y x Hx) by lra
                   | rewrite (F64Facts.pow_neg_half_eq 3 y x Hx) by lra
                   | rewrite (F64Facts.pow_neg_half_eq 4 y x Hx) by lra
                   | rewrite (F64Facts.pow_neg_half_eq 5 y x Hx) by lra ]
         end.
  simpl. repeat (f_equal; try (f_equal; lra)).
Qed.

Lemma Amat_minus_infinity :
  _prepare_linsys_Amat NInf = Amat_at_minus_infinity.
Proof.
  unfold _prepare_linsys_Amat, Amat_at_minus_infinity.
  repeat match goal with
         | |- context [F64.pow NInf ?y] =>
             first [ rewrite (F64Facts.pow_minus_infinity_neg y) by lra
                   | rewrite (F64Facts.pow_minus_infinity_pos 0 y) by lra
                   | rewrite (F64Facts.pow_minus_infinity_pos 1 y) by lra
                   | rewrite (F64Facts.pow_minus_infinity_pos 2 y) by lra
                   | rewrite (F64Facts.pow_minus_infinity_pos 3 y) by lra
                   | rewrite (F64Facts.pow_minus_infinity_pos 4 y) by lra
                   | rewrite (F64Facts.pow_minus_infinity_pos 5 y) by lra ]
         end.
  simpl.
  repeat first [ rewrite F64Facts.inf_times_pos by lra
               | rewrite F64Facts.inf_times_neg by lra ].
  repeat (f_equal; try (f_equal; lra)).
Qed.

End AmatFacts.

Module SurfaceSystem.

Import Coefficients.
Open Scope R_scope.

(** C1 (the code has a wrong constant).  For every [X > 0] the rows 1 to 4
    and 6 of the matrix are the ones the claim lists: all ones, the basis
    functions [X^(k+0.5)], their exponents, their first derivatives
    [(k+0.5) * X^(k-0.5)], and [[1,0,0,0,0,0]].  Row 5 holds the second
    derivative [(k+0.5) * (k-0.5) * X^(k-1.5)] at [k = 0, 1, 2, 3, 5]; at
    [k = 4] the code has [13.25 * X^2.5], which is not the second derivative
    [15.75 * X^2.5] of [X^4.5]. *)
Theorem prepare_linsys_Amat_rows (x : R) :
  0 < x ->
  let A := _prepare_linsys_Amat (Fin x) in
  np.row A 0 = map (fun _ => Fin 1) Basis.ks /\
  np.row A 1 = map (fun k => Fin (Basis.value k x)) Basis.ks /\
  np.row A 2 = map (fun k => Fin (Basis.exponent k)) Basis.ks /\
  np.row A 3 = map (fun k => Fin (Basis.first_derivative k x)) Basis.ks /\
  (forall k, In k [0; 1; 2; 3; 5]%nat ->
     np.item (np.row A 4) k = Fin (Basis.second_derivative k x)) /\
  np.item (np.row A 4) 4 = Fin (13.25 * Rpower x 2.5) /\
  np.item (np.row A 4) 4 <> Fin (Basis.second_derivative 4 x) /\
  np.row A 5 = [Fin 1; Fin 0; Fin 0; Fin 0; Fin 0; Fin 0].
Proof.
  intros Hx A. subst A. rewrite (AmatFacts.Amat_pos x Hx).
  unfold Amat_real, np.row, np.item, Basis.value, Basis.exponent,
    Basis.first_derivative, Basis.second_derivative, Basis.ks.
  cbn [nth map seq INR].
  repeat split.
  - repeat (f_equal; try (f_equal; f_equal; lra)).
  - repeat (f_equal; try (f_equal; lra)).
  - repeat (f_equal; try (f_equal; [lra | f_equal; lra])).
  - intros k Hk. cbn [In] in Hk.
    destruct Hk as [<- | [<- | [<- | [<- | [<- | []]]]]];
      cbn [nth INR]; f_equal;
      (replace (0 - 1.5) with (-1.5) by lra || idtac);
      (replace (1 - 1.5) with (-0.5) by lra || idtac);
      (replace (1 + 1 - 1.5) with 0.5 by lra || idtac);
      (replace (1 + 1 + 1 - 1.5) with 1.5 by lra || idtac);
      (replace (1 + 1 + 1 + 1 + 1 - 1.5) with 3.5 by lra || idtac);
      lra.
  - intros H. apply F64Facts.Fin_inj in H.
    replace (1 + 1 + 1 + 1 - 1.5) with 2.5 in H by lra.
    pose proof (exp_pos (2.5 * ln x)) as Hp. unfold Rpower in H. lra.
Qed.

(** The matrix at the station [X = 1], where every power of [X] is [1]. *)
Lemma prepare_linsys_Amat_rows_witness :
  0 < 1 /\
  np.item (np.row (_prepare_linsys_Amat (Fin 1)) 4) 4
    = Fin (13.25 * Rpower 1 2.5) /\
  np.item (np.row (_prepare_linsys_Amat (Fin 1)) 4) 4
    <> Fin (Basis.second_derivative 4 1).
Proof.
  split; [lra |].
  pose proof (prepare_linsys_Amat_rows 1 ltac:(lra)) as H.
  cbv zeta in H. tauto.
Defined.

(** C7, as the code has it.  No crest location makes the builder raise:
    it has no guard, and NumPy's scalar arithmetic signals an invalid power
    by a warning and a special value.  At every finite [X < 0] the three
    rows that take powers of [X] are NaN in each entry and the three
    constant rows are what they are at [X > 0]; at [X = 0] the powers are
    [0] and [+inf], and the matrix holds no NaN at all; at [X = -inf] the
    powers are [+inf] and [0], and the matrix holds no NaN either. *)
Theorem prepare_linsys_Amat_nonpositive (X : float64) :
  nonpositive X ->
  ((exists x, X = Fin x /\ x < 0) /\
   _prepare_linsys_Amat X = Amat_below_zero) \/
  (X = Fin 0 /\ _prepare_linsys_Amat X = Amat_at_zero) \/
  (X = NInf /\ _prepare_linsys_Amat X = Amat_at_minus_infinity).
Proof.
  intros [-> | (x & -> & [Hlt | ->])].
  - right. right. split; [reflexivity | apply AmatFacts.Amat_minus_infinity].
  - left. split; [now exists x | now apply AmatFacts.Amat_neg].
  - right. left. split; [reflexivity | apply AmatFacts.Amat_zero].
Qed.

Lemma prepare_linsys_Amat_nonpositive_witness :
  nonpositive (Fin (-1)) /\
  (((exists x, Fin (-1) = Fin x /\ x < 0) /\
    _prepare_linsys_Amat (Fin (-1)) = Amat_below_zero) \/
   (Fin (-1) = Fin 0 /\ _prepare_linsys_Amat (Fin (-1)) = Amat_at_zero) \/
   (Fin (-1) = NInf /\
    _prepare_linsys_Amat (Fin (-1)) = Amat_at_minus_infinity)).
Proof.
  assert (H : nonpositive (Fin (-1))).
  { right. exists (-1). split; [reflexivity | lra]. }
  split; [exact H | exact (prepare_linsys_Amat_nonpositive (Fin (-1)) H)].
Defined.

(** C7, as the claim states it, fails at the crest location [X = 0]: the
    builder returns a matrix, and none of its entries is NaN. *)
Lemma prepare_linsys_Amat_at_zero_not_nan :
  0 <= 0 /\
  _prepare_linsys_Amat (Fin 0) = Amat_at_zero /\
  forallb (forallb (fun e => negb (is_nan e))) Amat_at_zero = true /\
  ~ Forall (Forall (fun e => is_nan e = true)) (_prepare_linsys_Amat (Fin 0)).
Proof.
  split; [lra |]. split; [apply AmatFacts.Amat_zero |].
  split; [reflexivity |].
  rewrite AmatFacts.Amat_zero. intros H.
  inversion H as [| r rs Hr _]; subst.
  inversion Hr as [| e es He _]; subst.
  discriminate He.
Qed.

End SurfaceSystem.

(** ** Parameters: the scaling of a genome *)

Module ParametersFacts.

Import Parameters.
Open Scope R_scope.

(** A list of length ten, entry by entry. *)
Lemma length_10 (g : array) :
  length g = 10%nat ->
  exists g0 g1 g2 g3 g4 g5 g6 g7 g8 g9,
    g = [g0; g1; g2; g3; g4; g5; g6; g7; g8; g9].
Proof.
  intros H.
  do 10 (destruct g as [| ? g]; [discriminate H |]).
  destruct g; [| discriminate H].
  repeat eexists.
Qed.

(** The shape of the genome decides alone, in every arithmetic. *)
Section AnyArithmetic.

Context {FA : arithmetic}.

(** The scaled vector of a ten-entry genome: the entries go to the slots
    0..7, 10 and 11, and the slots 8 and 9 keep the default 0.5116 and 0. *)
Lemma scaled_10 (g0 g1 g2 g3 g4 g5 g6 g7 g8 g9 : float64) :
  scaled (Some [g0; g1; g2; g3; g4; g5; g6; g7; g8; g9]) =
  Ok (np.add (np.mul [g0; g1; g2; g3; g4; g5; g6; g7;
                      rnd 0.5116; rnd 0; g8; g9] spread) r_min).
Proof. reflexivity. Qed.

(** Without a genome: the default vector. *)
Lemma scaled_None :
  scaled None = Ok (np.add (np.mul param_vector spread) r_min).
Proof. reflexivity. Qed.

(** A genome of one entry is broadcast to the ten free slots. *)
Lemma scaled_1 (v : float64) :
  scaled (Some [v]) = scaled (Some (repeat v 10)).
Proof. reflexivity. Qed.

(** Any other length is a shape mismatch. *)
Lemma scaled_shape_mismatch (g : array) :
  length g <> 10%nat -> length g <> 1%nat ->
  scaled (Some g) = Raise ValueError.
Proof.
  intros H10 H1. unfold scaled, np.setitem_fancy, np.broadcast_to.
  cbn [length genome_slots].
  destruct (Nat.eqb_spec (length g) 10) as [E | _]; [contradiction |].
  destruct g as [| v [| w g]]; [reflexivity | | reflexivity].
  now elim H1.
Qed.

(** [Parameters(genome)] raises exactly when the scaling does. *)
Lemma init_ok_iff (genome : option array) :
  (exists p, init genome = Ok p) <-> (exists v, scaled genome = Ok v).
Proof.
  unfold init. destruct (scaled genome) as [v | e]; cbn.
  - split; intros _; eexists; reflexivity.
  - split; intros [? H]; discriminate H.
Qed.

Lemma init_raise (genome : option array) (e : exn) :
  scaled genome = Raise e -> init genome = Raise e.
Proof. intros H. unfold init. now rewrite H. Qed.

(** A genome of ten entries is accepted, whatever the entries are. *)
Lemma init_10 (g : array) :
  length g = 10%nat -> exists p, init (Some g) = Ok p.
Proof.
  intros H.
  destruct (length_10 g H)
    as (g0 & g1 & g2 & g3 & g4 & g5 & g6 & g7 & g8 & g9 & ->).
  eexists. reflexivity.
Qed.

End AnyArithmetic.

(** The scaled default vector is the one listed, to three decimals, in the
    comment that follows the class [Airfoil] in the source. *)
Example scaled_default :
  exists v, scaled None = Ok v /\
    Forall2 (fun x c => exists r, x = Fin r /\ Rabs (r - c) <= 0.001) v
      [0.0091; 0.4328; 0.0600; -0.6376; 0.0095; 0.3455;
       -0.0598; -1.1309; 0.0002; 0.0020; -4.7411; 12.8895].
Proof.
  eexists. split; [reflexivity |].
  repeat constructor;
    (eexists; split; [reflexivity | apply Rabs_le; lra]).
Qed.

End ParametersFacts.

Module ParameterMapper.

Import Parameters.
Open Scope R_scope.

Ltac in_slot :=
  unfold within_slot, within; cbn;
  eexists; eexists; eexists;
  (split; [reflexivity | split; [reflexivity | split; [reflexivity | lra]]]).

(** C3, as the code has it.  In every arithmetic that rounds as IEEE
    arithmetic does, for a ten-entry genome with every entry in [0,1], each
    of the twelve scaled slot values is finite, not below the minimum of its
    slot, and above the maximum of its slot by the rounding of the scaling
    at most (less than [1e-13]; the minimum and the maximum are the doubles
    of the table).  Nine attributes are their slot values.  The attribute
    [Z_XX_lo] is the negated value of slot 7, and so lies within the negated
    bounds of that slot, [[0.3, 1.5]], not within [[-1.5, -0.3]];
    [alpha_te] and [beta_te] are the radians of the slot values 10 and
    11. *)
Theorem init_within_bounds {FA : arithmetic} (g : array) :
  ieee_like FA ->
  length g = 10%nat ->
  Forall unit_interval g ->
  exists v p,
    scaled (Some g) = Ok v /\ init (Some g) = Ok p /\
    (forall i, (i < 12)%nat -> within_slot_rounded i (np.item v i)) /\
    r_le_up p = np.item v 0 /\ X_up p = np.item v 1 /\
    Z_up p = np.item v 2 /\ Z_XX_up p = np.item v 3 /\
    r_le_lo p = np.item v 4 /\ X_lo p = np.item v 5 /\
    Z_lo p = np.item v 6 /\
    Z_XX_lo p = (- np.item v 7)%f64 /\
    (exists l h z,
       np.item r_min 7 = Fin l /\ np.item r_max 7 = Fin h /\
       Z_XX_lo p = Fin z /\ - h - 1e-13 <= z <= - l) /\
    Z_te p = np.item v 8 /\ dZ_te p = np.item v 9 /\
    alpha_te p = math.radians (np.item v 10) /\
    beta_te p = math.radians (np.item v 11).
Proof.
  intros ieee Hlen Hall.
  destruct (ParametersFacts.length_10 g Hlen)
    as (g0 & g1 & g2 & g3 & g4 & g5 & g6 & g7 & g8 & g9 & ->).
  repeat match goal with
         | H : Forall _ (_ :: _) |- _ =>
             let r := fresh "r" in
             let Hr := fresh "Hr" in
             let Hu := fresh "Hu" in
             inversion H as [| ? ? Hu ?]; subst; clear H;
             destruct Hu as (r & -> & Hr)
         end.
  unfold init. rewrite ParametersFacts.scaled_10.
  destruct (ArithmeticFacts.unit_literal ieee 0.5116) as (c8 & E8 & B8);
    [lra |].
  destruct (ArithmeticFacts.unit_literal ieee 0) as (c9 & E9 & B9); [lra |].
  rewrite E8, E9.
  match goal with
  | |- exists v p, Ok ?w = Ok v /\ _ =>
      assert (Hslots : forall i, (i < 12)%nat ->
                         within_slot_rounded i (np.item w i))
  end.
  { intros i Hi.
    do 12 (destruct i as [| i];
           [unfold within_slot_rounded;
            cbn [np.item nth np.add np.mul np.sub np.zip_with np.of_reals
                 map r_min r_max spread];
            apply (ArithmeticFacts.scaled_entry ieee); lra |]).
    lia. }
  eexists; eexists.
  split; [reflexivity |]. split; [reflexivity |].
  split; [exact Hslots |].
  cbn [bind ret result_Monad r_le_up X_up Z_up Z_XX_up r_le_lo X_lo Z_lo
       Z_XX_lo Z_te dZ_te alpha_te beta_te].
  repeat (split; [reflexivity |]).
  split.
  - destruct (Hslots 7%nat ltac:(lia)) as (l & h & z & El & Eh & Ez & Bz).
    exists l, h, (- z). rewrite Ez.
    split; [exact El |]. split; [exact Eh |]. split; [reflexivity |]. lra.
  - repeat (split; [reflexivity |]). reflexivity.
Qed.

(** The genome with every entry 0.5, in exact arithmetic. *)
Lemma init_within_bounds_witness :
  exists v p,
    scaled (Some (repeat (Fin 0.5) 10)) = Ok v /\
    init (Some (repeat (Fin 0.5) 10)) = Ok p /\
    (forall i, (i < 12)%nat -> within_slot_rounded i (np.item v i)) /\
    Z_XX_lo p = (- np.item v 7)%f64 /\
    (exists l h z,
       np.item r_min 7 = Fin l /\ np.item r_max 7 = Fin h /\
       Z_XX_lo p = Fin z /\ - h - 1e-13 <= z <= - l).
Proof.
  destruct (init_within_bounds (FA := exact_arithmetic)
              (repeat (Fin 0.5) 10) ArithmeticFacts.exact_ieee_like)
    as (v & p & H).
  - reflexivity.
  - repeat constructor; exists 0.5; (split; [reflexivity | lra]).
  - exists v, p. tauto.
Defined.

(** C3, as the claim states it, fails for the attribute [Z_XX_lo]: with
    every genome entry 0.5 it is 0.9, outside the bounds [[-1.5, -0.3]]
    of its slot. *)
Lemma Z_XX_lo_outside_slot_bounds :
  Forall unit_interval (repeat (Fin 0.5) 10) /\
  exists p,
    init (Some (repeat (Fin 0.5) 10)) = Ok p /\
    Z_XX_lo p = Fin 0.9 /\
    ~ within_slot 7 (Z_XX_lo p).
Proof.
  split.
  { repeat constructor; exists 0.5; (split; [reflexivity | lra]). }
  eexists. split; [reflexivity |].
  split; [cbn; f_equal; lra |].
  unfold within_slot, within. cbn.
  intros (l & h & r & Hl & Hh & Hr & Hb).
  apply F64Facts.Fin_inj in Hl, Hh, Hr. lra.
Qed.

(** The rounding of [rounding_at_13], outside and inside its interval. *)
Lemma rounding_at_13_away (x : R) :
  x < 1.3 \/ 1.3 + 2e-16 < x -> rnd (arithmetic := rounding_at_13) x = Fin x.
Proof.
  intros H. cbn [rnd rounding_at_13].
  destruct (Rle_dec 1.3 x); [| reflexivity].
  destruct (Rle_dec x (1.3 + 2e-16)); [lra | reflexivity].
Qed.

Lemma rounding_at_13_up (x : R) :
  1.3 <= x <= 1.3 + 2e-16 ->
  rnd (arithmetic := rounding_at_13) x = Fin (1.3 + 2e-16).
Proof.
  intros H. cbn [rnd rounding_at_13].
  destruct (Rle_dec 1.3 x); [| lra].
  destruct (Rle_dec x (1.3 + 2e-16)); [reflexivity | lra].
Qed.

(** It has every property asked of a rounding. *)
Lemma rounding_at_13_ieee_like : ieee_like rounding_at_13.
Proof.
  split.
  - intros x _. cbn [rnd rounding_at_13].
    destruct (Rle_dec 1.3 x); [destruct (Rle_dec x (1.3 + 2e-16)) |];
      eexists; reflexivity.
  - intros x y x' y' H. cbn [rnd rounding_at_13].
    destruct (Rle_dec 1.3 x); [destruct (Rle_dec x (1.3 + 2e-16)) |];
      (destruct (Rle_dec 1.3 y); [destruct (Rle_dec y (1.3 + 2e-16)) |]);
      intros [= <-] [= <-]; lra.
  - intros x y. cbn [rnd rounding_at_13].
    destruct (Rle_dec 1.3 x); [destruct (Rle_dec x (1.3 + 2e-16)) |];
      intros [= <-];
      (destruct (Rle_dec 1.3 _); [destruct (Rle_dec _ (1.3 + 2e-16)) |]);
      try reflexivity; lra.
  - apply rounding_at_13_away. lra.
  - apply rounding_at_13_away. lra.
  - intros x y. cbn [rnd rounding_at_13].
    destruct (Rle_dec 1.3 x); [destruct (Rle_dec x (1.3 + 2e-16)) |];
      intros [= <-]; unfold Rabs; repeat destruct (Rcase_abs _); lra.
  - intros x. cbn [rnd rounding_at_13].
    destruct (Rle_dec 1.3 x); [destruct (Rle_dec x (1.3 + 2e-16)) |];
      discriminate.
Qed.

(** The upper bound of C3 needs its allowance for rounding.  In
    [rounding_at_13], an arithmetic that has every property asked of a
    rounding, the genome of all ones gives the slot 3 the value
    [0.3 + 2e-16], above the maximum [0.3] of the slot: [0.3 + 1.0] is
    rounded up, as binary64 rounds it, and the subtraction of [1.0] is
    exact.  (In binary64 the value is 0.30000000000000004 and the maximum
    0.29999999999999999.) *)
Lemma upper_bound_exceeded_by_rounding :
  ieee_like rounding_at_13 /\
  Forall unit_interval (repeat (Fin 1) 10) /\
  exists v,
    scaled (FA := rounding_at_13) (Some (repeat (Fin 1) 10)) = Ok v /\
    np.item (r_max (FA := rounding_at_13)) 3 = Fin 0.3 /\
    np.item v 3 = Fin (0.3 + 2e-16) /\
    ~ within_slot (FA := rounding_at_13) 3 (np.item v 3).
Proof.
  split; [exact rounding_at_13_ieee_like |].
  split.
  { repeat constructor; exists 1; (split; [reflexivity | lra]). }
  cbn [repeat]. rewrite ParametersFacts.scaled_10.
  eexists. split; [reflexivity |].
  assert (Hmax : np.item (r_max (FA := rounding_at_13)) 3 = Fin 0.3).
  { cbn [np.item nth r_max np.of_reals map].
    rewrite rounding_at_13_away by lra. f_equal. lra. }
  assert (Hmin : np.item (r_min (FA := rounding_at_13)) 3 = Fin (-1)).
  { cbn [np.item nth r_min np.of_reals map].
    rewrite rounding_at_13_away by lra. f_equal. lra. }
  match goal with
  | |- _ /\ np.item ?v 3 = _ /\ _ =>
      assert (Hv : np.item v 3 = Fin (0.3 + 2e-16))
  end.
  { cbn [np.item nth np.add np.mul np.sub np.zip_with spread r_max r_min
         np.of_reals map].
    unfold F64.sub.
    repeat match goal with
           | |- context [@rnd rounding_at_13 ?x] =>
               first [ rewrite (rounding_at_13_away x) by lra
                     | rewrite (rounding_at_13_up x) by lra ];
               cbn [F64.add F64.neg F64.mul]
           end.
    f_equal. lra. }
  split; [exact Hmax |]. split; [exact Hv |].
  rewrite Hv. unfold within_slot, within. rewrite Hmax, Hmin.
  intros (l & h & r & Hl & Hh & Hr & Hb).
  apply F64Facts.Fin_inj in Hl, Hh, Hr. lra.
Qed.

(** C4, as the code has it.  For a ten-entry genome, [alpha_te] and
    [beta_te] are the radians of the scaled slot values: the genome's
    9th entry mapped affinely onto [[-10, 10]] degrees and its 10th entry
    onto [[-10, 20]] degrees. *)
Theorem init_angles (g : array) :
  length g = 10%nat ->
  exists p,
    init (Some g) = Ok p /\
    alpha_te p =
      math.radians (np.item g 8 * np.item spread 10 + np.item r_min 10)%f64 /\
    beta_te p =
      math.radians (np.item g 9 * np.item spread 11 + np.item r_min 11)%f64 /\
    np.item spread 10 = Fin 20 /\ np.item r_min 10 = Fin (-10) /\
    np.item spread 11 = Fin 30 /\ np.item r_min 11 = Fin (-10).
Proof.
  intros Hlen.
  destruct (ParametersFacts.length_10 g Hlen)
    as (g0 & g1 & g2 & g3 & g4 & g5 & g6 & g7 & g8 & g9 & ->).
  eexists. split; [reflexivity |].
  repeat split; try reflexivity; cbn; f_equal; lra.
Qed.

Lemma init_angles_witness :
  exists p,
    init (Some (repeat (Fin 0.5) 10)) = Ok p /\
    alpha_te p =
      math.radians (Fin 0.5 * np.item spread 10 + np.item r_min 10)%f64 /\
    beta_te p =
      math.radians (Fin 0.5 * np.item spread 11 + np.item r_min 11)%f64.
Proof.
  destruct (init_angles (repeat (Fin 0.5) 10) eq_refl)
    as (p & Hp & Ha & Hb & _).
  exists p. auto.
Defined.

(** C4, as the claim states it, fails: with every genome entry 0.5 the
    angle [alpha_te] is 0, not the radians of the raw entry 0.5. *)
Lemma alpha_te_not_radians_of_raw_entry :
  exists p,
    init (Some (repeat (Fin 0.5) 10)) = Ok p /\
    alpha_te p <> math.radians (np.item (repeat (Fin 0.5) 10) 8) /\
    beta_te p <> math.radians (np.item (repeat (Fin 0.5) 10) 9).
Proof.
  eexists. split; [reflexivity |].
  pose proof PI_RGT_0 as Hpi.
  split; cbn; intros H; apply F64Facts.Fin_inj in H; lra.
Qed.

(** C6, as the code has it.  A genome of ten entries is accepted whatever
    the entries are; a genome of one entry is accepted too, its entry
    broadcast to the ten free slots; a genome of any other length raises
    NumPy's [ValueError] for the shape mismatch.  The arithmetic plays no
    part in it. *)
Theorem init_genome_length {FA : arithmetic} (g : array) :
  match length g with
  | 10%nat => exists p, init (Some g) = Ok p
  | 1%nat =>
      (exists p, init (Some g) = Ok p) /\
      init (Some g) = init (Some (repeat (np.item g 0) 10))
  | _ => init (Some g) = Raise ValueError
  end.
Proof.
  destruct (Nat.eq_dec (length g) 10) as [H10 | H10].
  - rewrite H10. now apply ParametersFacts.init_10.
  - destruct (Nat.eq_dec (length g) 1) as [H1 | H1].
    + rewrite H1. destruct g as [| v [| w g]]; try discriminate H1.
      split; [eexists |]; reflexivity.
    + pose proof (ParametersFacts.init_raise (Some g) ValueError
                    (ParametersFacts.scaled_shape_mismatch g H10 H1)) as H.
      remember (length g) as n eqn:Hn. clear Hn.
      do 11 (destruct n as [| n]; try assumption; try congruence).
Qed.

(** C6, as the claim states it, fails at a genome of length one. *)
Lemma init_accepts_length_1 :
  length [Fin 0.5] <> 10%nat /\
  exists p, init (Some [Fin 0.5]) = Ok p /\
            init (Some [Fin 0.5]) = init (Some (repeat (Fin 0.5) 10)).
Proof.
  split; [discriminate |].
  eexists. split; reflexivity.
Qed.

End ParameterMapper.

(** ** The exact solver *)

Module ExactLinalgFacts.

Import ExactLinalg.
Open Scope R_scope.

Lemma map_Fin_inj (a b : list R) : map Fin a = map Fin b -> a = b.
Proof.
  revert b. induction a as [| x a IH]; intros [| y b] H;
    try discriminate H; [reflexivity |].
  cbn in H. injection H as Hx Hab. f_equal; auto.
Qed.

Lemma map_map_Fin_inj (A B : list (list R)) :
  map (map Fin) A = map (map Fin) B -> A = B.
Proof.
  revert B. induction A as [| r A IH]; intros [| s B] H;
    try discriminate H; [reflexivity |].
  cbn in H. injection H as Hr HAB. f_equal; auto using map_Fin_inj.
Qed.

(** The solver returns the solution of a system that has exactly one. *)
Lemma solve_unique (A : list (list R)) (b y0 : list R) :
  Forall (fun r => length r = length b) A ->
  length y0 = length b ->
  mat_vec A y0 = b ->
  (forall y, length y = length b -> mat_vec A y = b -> y = y0) ->
  solve (map (map Fin) A) (map Fin b) = Ok (map Fin y0).
Proof.
  intros Hsq Hlen Hsol Huniq.
  assert (Hy0 : is_solution (map (map Fin) A) (map Fin b) y0).
  { exists A, b. auto. }
  assert (Hall : forall y, is_solution (map (map Fin) A) (map Fin b) y ->
                           y = y0).
  { intros y (A' & b' & HA & Hb & _ & Hl & Hs).
    apply map_map_Fin_inj in HA. apply map_Fin_inj in Hb. subst A' b'.
    now apply Huniq. }
  unfold solve.
  destruct (excluded_middle_informative _) as [H | H].
  - destruct (constructive_definite_description _ H) as [y Hy]. cbn.
    now rewrite (Hall y Hy).
  - exfalso. apply H. exists y0. split; [assumption |].
    intros y Hy. symmetry. now apply Hall.
Qed.

(** What the solver returns is a solution. *)
Lemma solve_sound (A : matrix) (b y : array) :
  solve A b = Ok y ->
  exists y', y = map Fin y' /\ is_solution A b y'.
Proof.
  unfold solve.
  destruct (excluded_middle_informative _) as [H | H]; [| discriminate].
  destruct (constructive_definite_description _ H) as [y' Hy']. cbn.
  intros [= <-]. now exists y'.
Qed.

(** Powers of [0.36 = 0.6 * 0.6]. *)
Lemma Rpower_036 (y : R) : Rpower 0.36 y = Rpower 0.6 (2 * y).
Proof.
  replace 0.36 with (Rpower 0.6 2).
  - apply Rpower_mult.
  - change 2 with (INR 2). rewrite Rpower_pow by lra. simpl. lra.
Qed.

Lemma Rpower_06_pos (n : nat) (y : R) :
  y = INR n -> Rpower 0.6 y = 0.6 ^ n.
Proof. intros ->. apply Rpower_pow. lra. Qed.

Lemma Rpower_06_neg (n : nat) (y : R) :
  y = - INR n -> Rpower 0.6 y = / 0.6 ^ n.
Proof. intros ->. rewrite Rpower_Ropp. f_equal. apply Rpower_pow. lra. Qed.

Ltac powers_of_036 :=
  rewrite ?Rpower_036;
  repeat match goal with
         | |- context [Rpower 0.6 ?y] =>
             first [ rewrite (Rpower_06_neg 3 y) by (simpl; lra)
                   | rewrite (Rpower_06_neg 1 y) by (simpl; lra)
                   | rewrite (Rpower_06_pos 1 y) by (simpl; lra)
                   | rewrite (Rpower_06_pos 3 y) by (simpl; lra)
                   | rewrite (Rpower_06_pos 5 y) by (simpl; lra)
                   | rewrite (Rpower_06_pos 7 y) by (simpl; lra)
                   | rewrite (Rpower_06_pos 9 y) by (simpl; lra)
                   | rewrite (Rpower_06_pos 11 y) by (simpl; lra) ]
         end;
  cbn [pow].

Ltac entrywise tac :=
  repeat (apply (f_equal2 (@cons R)); [tac |]); try reflexivity.

(** The system of the crest location [X = 0.36] has exactly one solution
    for every right-hand side. *)
Lemma solve_Amat_036 (b0 b1 b2 b3 b4 b5 : R) :
  solve (Coefficients._prepare_linsys_Amat (Fin 0.36))
        (map Fin [b0; b1; b2; b3; b4; b5]) =
  Ok (map Fin (mat_vec Amat_036_inverse [b0; b1; b2; b3; b4; b5])).
Proof.
  rewrite AmatFacts.Amat_pos by lra. unfold Amat_real.
  apply solve_unique.
  - repeat constructor.
  - reflexivity.
  - powers_of_036. cbn [mat_vec Amat_036_inverse map dot].
    entrywise lra.
  - intros y Hlen Hsol.
    do 6 (destruct y as [| ? y]; [discriminate Hlen |]).
    destruct y; [| discriminate Hlen].
    revert Hsol. powers_of_036.
    cbn [mat_vec Amat_036_inverse map dot]. intros Hsol.
    injection Hsol as H0 H1 H2 H3 H4 H5.
    entrywise lra.
Qed.

End ExactLinalgFacts.

(** ** Coefficients: the two linear systems *)

Module CoefficientsFacts.

Import Parameters Coefficients.
Open Scope R_scope.

(** The genome [genome_036] is mapped to [params_036]. *)
Lemma init_genome_036 :
  Parameters.init (Some ExactLinalg.genome_036) = Ok ExactLinalg.params_036.
Proof.
  unfold Parameters.init, ExactLinalg.genome_036, np.of_reals.
  cbn [map]. rewrite ParametersFacts.scaled_10.
  cbn. unfold ExactLinalg.params_036.
  f_equal. f_equal; f_equal; lra.
Qed.

(** With the exact solver, [Coefficients(params_036)] succeeds. *)
Lemma init_params_036 :
  Coefficients.init (LA := ExactLinalg.linalg) (Some ExactLinalg.params_036) =
  Ok ExactLinalg.coefficients_036.
Proof.
  assert (Hsolve : forall b0 b1 b2 b3 b4 b5 : R,
             np.solve (linalg := ExactLinalg.linalg)
               (_prepare_linsys_Amat (Fin 0.36))
               [Fin b0; Fin b1; Fin b2; Fin b3; Fin b4; Fin b5] =
             Ok (map Fin (ExactLinalg.mat_vec ExactLinalg.Amat_036_inverse
                            [b0; b1; b2; b3; b4; b5]))).
  { exact ExactLinalgFacts.solve_Amat_036. }
  unfold Coefficients.init, _calc_a_up, _calc_a_lo.
  cbn [getattr bind ret result_Monad ExactLinalg.params_036
       r_le_up X_up Z_up Z_XX_up r_le_lo X_lo Z_lo Z_XX_lo
       Z_te dZ_te alpha_te beta_te].
  rewrite !F64Facts.div_Fin by lra.
  cbn [F64.add F64.sub F64.neg F64.mul math.tan math.sqrt rnd exact_arithmetic].
  destruct (Rle_dec 0 (2 * 0.02685)) as [_ | Hn]; [| exfalso; lra].
  rewrite !Hsolve. unfold ExactLinalg.coefficients_036.
  unfold ExactLinalg.Bvec_up_036, ExactLinalg.Bvec_lo_036.
  repeat f_equal; lra.
Qed.

End CoefficientsFacts.

Module CoefficientSolver.

Import Parameters Coefficients.

Section AnySolver.

Context {FA : arithmetic}.
Context {LA : np.linalg}.

(** What [Coefficients(p)] has computed when it returns. *)
Lemma init_returns (p : Parameters.t) (c : Coefficients.t) :
  Coefficients.init (Some p) = Ok c ->
  exists t_up s_up t_lo s_lo y_lo,
    math.tan (alpha_te p - beta_te p / Fin 2) = Ok t_up /\
    math.sqrt (Fin 2 * r_le_up p) = Ok s_up /\
    np.solve (_prepare_linsys_Amat (X_up p))
      [Z_te p + dZ_te p / Fin 2; Z_up p; t_up; Fin 0.0; Z_XX_up p; s_up]
    = Ok (a_up c) /\
    math.tan (alpha_te p + beta_te p / Fin 2) = Ok t_lo /\
    math.sqrt (Fin 2 * r_le_lo p) = Ok s_lo /\
    np.solve (_prepare_linsys_Amat (X_lo p))
      [- Z_te p + dZ_te p / Fin 2; - Z_lo p; t_lo; Fin 0.0; - Z_XX_lo p; s_lo]
    = Ok y_lo /\
    a_lo c = np.neg y_lo.
Proof.
  unfold Coefficients.init, _calc_a_up, _calc_a_lo, a_up, a_lo.
  cbn [getattr bind ret result_Monad].
  destruct (math.tan (alpha_te p - beta_te p / Fin 2)) as [t_up | e];
    [| discriminate].
  destruct (math.sqrt (Fin 2 * r_le_up p)) as [s_up | e]; [| discriminate].
  destruct (np.solve (_prepare_linsys_Amat (X_up p)) _)
    as [y_up | e] eqn:Hup; [| discriminate].
  destruct (math.tan (alpha_te p + beta_te p / Fin 2)) as [t_lo | e];
    [| discriminate].
  destruct (math.sqrt (Fin 2 * r_le_lo p)) as [s_lo | e]; [| discriminate].
  destruct (np.solve (_prepare_linsys_Amat (X_lo p)) _)
    as [y_lo | e] eqn:Hlo; [| discriminate].
  intros [= Hc]. subst c.
  exists t_up, s_up, t_lo, s_lo, y_lo. cbn. repeat split; assumption.
Qed.

(** [Coefficients(p)] returns as soon as its six calls do. *)
Lemma init_defined (p : Parameters.t) (t_up s_up t_lo s_lo : float64)
      (y_up y_lo : array) :
  math.tan (alpha_te p - beta_te p / Fin 2) = Ok t_up ->
  math.sqrt (Fin 2 * r_le_up p) = Ok s_up ->
  np.solve (_prepare_linsys_Amat (X_up p))
    [Z_te p + dZ_te p / Fin 2; Z_up p; t_up; Fin 0.0; Z_XX_up p; s_up]
  = Ok y_up ->
  math.tan (alpha_te p + beta_te p / Fin 2) = Ok t_lo ->
  math.sqrt (Fin 2 * r_le_lo p) = Ok s_lo ->
  np.solve (_prepare_linsys_Amat (X_lo p))
    [- Z_te p + dZ_te p / Fin 2; - Z_lo p; t_lo; Fin 0.0; - Z_XX_lo p; s_lo]
  = Ok y_lo ->
  Coefficients.init (Some p) = Ok {| _a_up := y_up; _a_lo := np.neg y_lo |}.
Proof.
  intros Htu Hsu Hup Htl Hsl Hlo.
  unfold Coefficients.init, _calc_a_up, _calc_a_lo.
  cbn [getattr bind ret result_Monad].
  rewrite Htu, Hsu. cbn [bind result_Monad]. rewrite Hup.
  rewrite Htl, Hsl. cbn [bind result_Monad]. rewrite Hlo.
  reflexivity.
Qed.

(** C2.  [Coefficients(p)] returns exactly when the two tangents, the two
    square roots and the two solves do, and then [a_up] is the solution of
    the system of [X_up] with the right-hand side
    [[Z_te + dZ_te/2, Z_up, tan(alpha_te - beta_te/2), 0.0, Z_XX_up,
    sqrt(2*r_le_up)]], with no change of sign, and [a_lo] is the negation of
    the solution of the system of [X_lo] with the right-hand side
    [[-Z_te + dZ_te/2, -Z_lo, tan(alpha_te + beta_te/2), 0.0, -Z_XX_lo,
    sqrt(2*r_le_lo)]]. *)
Theorem init_solves_both_systems (p : Parameters.t) (c : Coefficients.t) :
  Coefficients.init (Some p) = Ok c <->
  exists t_up s_up t_lo s_lo y_lo,
    math.tan (alpha_te p - beta_te p / Fin 2) = Ok t_up /\
    math.sqrt (Fin 2 * r_le_up p) = Ok s_up /\
    np.solve (_prepare_linsys_Amat (X_up p))
      [Z_te p + dZ_te p / Fin 2; Z_up p; t_up; Fin 0.0; Z_XX_up p; s_up]
    = Ok (a_up c) /\
    math.tan (alpha_te p + beta_te p / Fin 2) = Ok t_lo /\
    math.sqrt (Fin 2 * r_le_lo p) = Ok s_lo /\
    np.solve (_prepare_linsys_Amat (X_lo p))
      [- Z_te p + dZ_te p / Fin 2; - Z_lo p; t_lo; Fin 0.0; - Z_XX_lo p; s_lo]
    = Ok y_lo /\
    a_lo c = np.neg y_lo.
Proof.
  split.
  - apply init_returns.
  - intros (t_up & s_up & t_lo & s_lo & y_lo
            & Htu & Hsu & Hup & Htl & Hsl & Hlo & Hneg).
    rewrite (init_defined p _ _ _ _ _ _ Htu Hsu Hup Htl Hsl Hlo).
    destruct c as [up lo]. cbn in Hneg. subst lo. reflexivity.
Qed.

End AnySolver.

(** Between the builder and the solver nothing looks at the matrix: at a
    crest location [X_up <= 0] the solver is called on the matrix of special
    values, and what [_calc_a_up] returns or raises is what the solver
    does. *)
Lemma calc_a_up_nonpositive {LA : np.linalg} (p : Parameters.t) (x : R)
      (t s : float64) :
  X_up p = Fin x -> (x <= 0)%R ->
  math.tan (alpha_te p - beta_te p / Fin 2) = Ok t ->
  math.sqrt (Fin 2 * r_le_up p) = Ok s ->
  _calc_a_up (Some p) =
  np.solve (if Rlt_dec x 0 then Amat_below_zero else Amat_at_zero)
    [Z_te p + dZ_te p / Fin 2; Z_up p; t; Fin 0.0; Z_XX_up p; s].
Proof.
  intros HX Hx Ht Hs. unfold _calc_a_up.
  cbn [getattr bind ret result_Monad]. rewrite Ht, Hs, HX.
  cbn [bind result_Monad].
  destruct (Rlt_dec x 0) as [Hlt | Hge].
  - now rewrite AmatFacts.Amat_neg.
  - replace x with 0%R by lra. now rewrite AmatFacts.Amat_zero.
Qed.

(** The parameters [params_036] and the exact solver. *)
Lemma init_solves_both_systems_witness :
  exists c y_lo,
    Coefficients.init (LA := ExactLinalg.linalg) (Some ExactLinalg.params_036)
    = Ok c /\
    np.solve (linalg := ExactLinalg.linalg)
      (_prepare_linsys_Amat (Fin 0.36))
      (map Fin ExactLinalg.Bvec_lo_036) = Ok y_lo /\
    a_lo c = np.neg y_lo.
Proof.
  exists ExactLinalg.coefficients_036.
  destruct (proj1 (init_solves_both_systems (LA := ExactLinalg.linalg)
                     ExactLinalg.params_036 ExactLinalg.coefficients_036)
              CoefficientsFacts.init_params_036)
    as (t_up & s_up & t_lo & s_lo & y_lo & _ & _ & _ & _ & _ & _ & Hneg).
  exists (map Fin (ExactLinalg.mat_vec ExactLinalg.Amat_036_inverse
                     ExactLinalg.Bvec_lo_036)).
  split; [exact CoefficientsFacts.init_params_036 |].
  split; [exact (ExactLinalgFacts.solve_Amat_036 _ _ _ _ _ _) | reflexivity].
Defined.

(** With the exact solver and finite parameters, the two coefficient vectors
    satisfy the equations of the two systems: [A(X_up) a_up = b_up], and
    [A(X_lo) y = b_lo] for [a_lo = - y]. *)
Lemma exact_coefficients_satisfy_systems
      (rleu xu zu zxxu rlel xl zl zxxl zte dzte al be : R)
      (c : Coefficients.t) :
  (0 < xu)%R -> (0 < xl)%R ->
  Coefficients.init (LA := ExactLinalg.linalg)
    (Some {| r_le_up := Fin rleu; X_up := Fin xu; Z_up := Fin zu;
             Z_XX_up := Fin zxxu; r_le_lo := Fin rlel; X_lo := Fin xl;
             Z_lo := Fin zl; Z_XX_lo := Fin zxxl; Z_te := Fin zte;
             dZ_te := Fin dzte; alpha_te := Fin al; beta_te := Fin be |})
  = Ok c ->
  exists y_up y_lo : list R,
    a_up c = map Fin y_up /\
    a_lo c = map Fin (map Ropp y_lo) /\
    ExactLinalg.mat_vec (Amat_real xu) y_up =
      [zte + dzte / 2; zu; tan (al + - (be / 2)); 0.0; zxxu;
       sqrt (2 * rleu)]%R /\
    ExactLinalg.mat_vec (Amat_real xl) y_lo =
      [- zte + dzte / 2; - zl; tan (al + be / 2); 0.0; - zxxl;
       sqrt (2 * rlel)]%R.
Proof.
  intros Hxu Hxl Hinit.
  apply (init_returns (LA := ExactLinalg.linalg)) in Hinit.
  destruct Hinit as (t_up & s_up & t_lo & s_lo & y_lo
                     & Htu & Hsu & Hup & Htl & Hsl & Hlo & Hneg).
  cbn [r_le_up X_up Z_up Z_XX_up r_le_lo X_lo Z_lo Z_XX_lo
       Z_te dZ_te alpha_te beta_te] in *.
  rewrite !F64Facts.div_Fin in * by lra.
  cbn [F64.add F64.sub F64.neg F64.mul math.tan math.sqrt rnd
       exact_arithmetic] in *.
  injection Htu as <-. injection Htl as <-.
  destruct (Rle_dec 0 (2 * rleu)) as [_ | _]; [| discriminate Hsu].
  destruct (Rle_dec 0 (2 * rlel)) as [_ | _]; [| discriminate Hsl].
  injection Hsu as <-. injection Hsl as <-.
  rewrite AmatFacts.Amat_pos in Hup, Hlo by assumption.
  change [Fin (zte + dzte / 2); Fin zu; Fin (tan (al + - (be / 2)));
          Fin 0.0; Fin zxxu; Fin (sqrt (2 * rleu))]
    with (map Fin [zte + dzte / 2; zu; tan (al + - (be / 2)); 0.0; zxxu;
                   sqrt (2 * rleu)]%R) in Hup.
  change [Fin (- zte + dzte / 2); Fin (- zl); Fin (tan (al + be / 2));
          Fin 0.0; Fin (- zxxl); Fin (sqrt (2 * rlel))]
    with (map Fin [- zte + dzte / 2; - zl; tan (al + be / 2); 0.0; - zxxl;
                   sqrt (2 * rlel)]%R) in Hlo.
  apply ExactLinalgFacts.solve_sound in Hup, Hlo.
  destruct Hup as (y_up' & Hyu & A1 & b1 & HA1 & Hb1 & _ & _ & Hs1).
  destruct Hlo as (y_lo' & Hyl & A2 & b2 & HA2 & Hb2 & _ & _ & Hs2).
  apply ExactLinalgFacts.map_map_Fin_inj in HA1, HA2.
  apply ExactLinalgFacts.map_Fin_inj in Hb1, Hb2. subst A1 A2 b1 b2.
  exists y_up', y_lo'. split; [exact Hyu |]. split.
  - rewrite Hneg, Hyl. unfold np.neg. rewrite !map_map. reflexivity.
  - split; assumption.
Qed.

End CoefficientSolver.

(** ** Arrays: shapes and slices *)

Module npFacts.

Section AnyArithmetic.

Context {FA : arithmetic}.

Lemma zip_with_length (f : float64 -> float64 -> float64) (a b : array) :
  length a = length b -> length (np.zip_with f a b) = length a.
Proof.
  revert b. induction a as [| x a IH]; intros [| y b] H;
    try discriminate H; [reflexivity |].
  cbn. f_equal. apply IH. now injection H.
Qed.

Lemma add_length (a b : array) :
  length a = length b -> length (np.add a b) = length a.
Proof. apply zip_with_length. Qed.

Lemma scale_length (c : float64) (a : array) :
  length (np.scale c a) = length a.
Proof. apply length_map. Qed.

Lemma pow_length (a : array) (y : R) : length (np.pow a y) = length a.
Proof. apply length_map. Qed.

Lemma slice_bound_le (len : nat) (n : Z) : (np.slice_bound len n <= len)%nat.
Proof. unfold np.slice_bound. destruct (n <? 0)%Z eqn:E; lia. Qed.

(** A bound within the sequence denotes itself. *)
Lemma slice_bound_inside (len : nat) (n : nat) :
  (n <= len)%nat -> np.slice_bound len (Z.of_nat n) = n.
Proof.
  intros H. unfold np.slice_bound.
  destruct (Z.of_nat n <? 0)%Z eqn:E; lia.
Qed.

Lemma slice_to_length (a : array) (n : Z) :
  length (np.slice_to a n) = np.slice_bound (length a) n.
Proof.
  unfold np.slice_to. apply firstn_length_le, slice_bound_le.
Qed.

Lemma slice_from_length (a : array) (n : Z) :
  length (np.slice_from a n) = (length a - np.slice_bound (length a) n)%nat.
Proof. unfold np.slice_from. apply length_skipn. Qed.

(** The two slices [a[:n]] and [a[n:]] split the array. *)
Lemma slice_to_from (a : array) (n : Z) :
  np.slice_to a n ++ np.slice_from a n = a.
Proof. apply firstn_skipn. Qed.

Lemma broadcast_to_same (vals : array) :
  np.broadcast_to (length vals) vals = Ok vals.
Proof. unfold np.broadcast_to. now rewrite Nat.eqb_refl. Qed.

Lemma setslice_to_ok (a vals : array) (n : Z) :
  length vals = np.slice_bound (length a) n ->
  np.setslice_to a n vals =
  Ok (vals ++ skipn (np.slice_bound (length a) n) a).
Proof.
  intros H. unfold np.setslice_to. rewrite <- H.
  now rewrite broadcast_to_same.
Qed.

Lemma setslice_from_ok (a vals : array) (n : Z) :
  length vals = (length a - np.slice_bound (length a) n)%nat ->
  np.setslice_from a n vals =
  Ok (firstn (np.slice_bound (length a) n) a ++ vals).
Proof.
  intros H. unfold np.setslice_from. rewrite <- H.
  now rewrite broadcast_to_same.
Qed.

(** Writing [a[:n]] and then [a[n:]] replaces the whole array. *)
Lemma setslice_to_then_from (a zu zl : array) (n : Z) :
  length zu = np.slice_bound (length a) n ->
  length zl = (length a - np.slice_bound (length a) n)%nat ->
  (z <- np.setslice_to a n zu ;; np.setslice_from z n zl) = Ok (zu ++ zl).
Proof.
  intros Hu Hl. rewrite setslice_to_ok by assumption. cbn [bind result_Monad].
  pose proof (slice_bound_le (length a) n) as Hk.
  assert (Hlen : length (zu ++ skipn (np.slice_bound (length a) n) a)
                 = length a).
  { rewrite length_app, length_skipn. lia. }
  rewrite setslice_from_ok; rewrite Hlen; [| assumption].
  f_equal. f_equal. rewrite <- Hu.
  rewrite firstn_app, Nat.sub_diag, firstn_all. cbn. apply app_nil_r.
Qed.

(** Python's slice bounds on a row of 200 entries. *)
Example slice_bound_100 : np.slice_bound 200 100 = 100%nat.
Proof. reflexivity. Qed.

Example slice_bound_minus_1 : np.slice_bound 200 (-1) = 199%nat.
Proof. reflexivity. Qed.

Example slice_bound_300 : np.slice_bound 200 300 = 200%nat.
Proof. reflexivity. Qed.

Example slice_bound_minus_300 : np.slice_bound 200 (-300) = 0%nat.
Proof. reflexivity. Qed.

(** Broadcasting to the shape [(3,)]. *)
Example broadcast_3 :
  np.broadcast_to 3 [PInf; NaN; NInf] = Ok [PInf; NaN; NInf] /\
  np.broadcast_to 3 [NaN] = Ok [NaN; NaN; NaN] /\
  np.broadcast_to 3 [NaN; NaN] = Raise ValueError /\
  np.broadcast_to 3 [] = Raise ValueError.
Proof. repeat split. Qed.

End AnyArithmetic.

End npFacts.

(** ** Airfoil: evaluation against the reference curve

    In every arithmetic and for every solver. *)

Module AirfoilFacts.

Import Airfoil.

Section AnyArithmetic.

Context {FA : arithmetic}.

(** The reference curve has two rows of 200 entries. *)
Lemma naca0012_rows :
  naca0012 = [np.row naca0012 0; np.row naca0012 1].
Proof. reflexivity. Qed.

Lemma naca0012_row_lengths :
  length (np.row naca0012 0) = 200%nat /\
  length (np.row naca0012 1) = 200%nat.
Proof. split; reflexivity. Qed.

(** [Z_up] and [Z_lo] are the polynomial on [a_up] and on [a_lo]. *)
Lemma Z_up_polynomial (self : t) (X : array) :
  Z_up self X =
  (c <- get__coeff self ;; polynomial (Coefficients.a_up c) X).
Proof. reflexivity. Qed.

Lemma Z_lo_polynomial (self : t) (X : array) :
  Z_lo self X =
  (c <- get__coeff self ;; polynomial (Coefficients.a_lo c) X).
Proof. reflexivity. Qed.

(** The polynomial has one value per station. *)
Lemma polynomial_length (a X z : array) :
  polynomial a X = Ok z -> length z = length X.
Proof.
  unfold polynomial. cbn [bind ret result_Monad].
  repeat (destruct (np.getitem a _) as [? | ?]; [| discriminate]).
  intros [= <-].
  repeat (rewrite npFacts.add_length;
          rewrite ?npFacts.scale_length, ?npFacts.pow_length; try reflexivity).
Qed.

(** It is defined as soon as the six coefficients are there, and it can
    only raise [IndexError]. *)
Lemma polynomial_defined (a0 a1 a2 a3 a4 a5 : float64) (rest X : array) :
  exists z, polynomial (a0 :: a1 :: a2 :: a3 :: a4 :: a5 :: rest) X = Ok z.
Proof. eexists. reflexivity. Qed.

Lemma polynomial_raises (a X : array) (e : exn) :
  polynomial a X = Raise e -> e = IndexError.
Proof.
  unfold polynomial, np.getitem. cbn [bind ret result_Monad].
  repeat match goal with
         | |- context [nth_error a ?i] =>
             destruct (nth_error a i); [| now intros [= <-]]
         end.
  discriminate.
Qed.

Ltac run_method :=
  cbn [bind ret method_Monad result_Monad this lift set_params set__coeff
       params _coeff np.row nth np.set_row].

Context {LA : np.linalg}.

(** [express], step by step, on a reference curve of two rows [X] and [Z0]
    of one length. *)
Lemma express_steps (X Z0 : array) (genome : option array) (n_pts : Z)
      (self : t) :
  naca0012 = [X; Z0] ->
  length Z0 = length X ->
  express genome n_pts self =
  match params self with
  | None => (Raise AttributeError, self)
  | Some _ =>
      match Parameters.init genome with
      | Raise e => (Raise e, self)
      | Ok p =>
          match Coefficients.init (Some p) with
          | Raise e => (Raise e, {| params := Some p; _coeff := _coeff self |})
          | Ok c =>
              let self' := {| params := Some p; _coeff := Some c |} in
              match polynomial (Coefficients.a_up c) (np.slice_to X n_pts) with
              | Raise e => (Raise e, self')
              | Ok zu =>
                  match polynomial (Coefficients.a_lo c)
                                   (np.slice_from X n_pts) with
                  | Raise e => (Raise e, self')
                  | Ok zl => (Ok [X; zu ++ zl], self')
                  end
              end
          end
      end
  end.
Proof.
  intros Hfoil Hlen. unfold express. rewrite Hfoil.
  run_method.
  destruct (params self) as [p0 |] eqn:Hp; run_method.
  - destruct (Parameters.init genome) as [p | e]; run_method;
      [| reflexivity].
    destruct (Coefficients.init (Some p)) as [c | e]; run_method;
      [| reflexivity].
    rewrite ?Z_up_polynomial, ?Z_lo_polynomial.
    unfold get__coeff. run_method.
    destruct (polynomial (Coefficients.a_up c) (np.slice_to X n_pts))
      as [zu | e] eqn:Hu; run_method; [| reflexivity].
    apply polynomial_length in Hu. rewrite npFacts.slice_to_length in Hu.
    rewrite npFacts.setslice_to_ok by (now rewrite Hlen).
    run_method.
    destruct (polynomial (Coefficients.a_lo c) (np.slice_from X n_pts))
      as [zl | e] eqn:Hl; run_method; [| reflexivity].
    apply polynomial_length in Hl. rewrite npFacts.slice_from_length in Hl.
    pose proof (npFacts.setslice_to_then_from Z0 zu zl n_pts) as Hz.
    rewrite npFacts.setslice_to_ok in Hz by (now rewrite Hlen).
    cbn [bind result_Monad] in Hz.
    rewrite Hz; [reflexivity | now rewrite Hlen | now rewrite Hlen].
  - rewrite Hp. reflexivity.
Qed.

(** [express] on the reference curve of the program. *)
Lemma express_naca0012 (genome : option array) (n_pts : Z) (self : t) :
  express genome n_pts self =
  match params self with
  | None => (Raise AttributeError, self)
  | Some _ =>
      match Parameters.init genome with
      | Raise e => (Raise e, self)
      | Ok p =>
          match Coefficients.init (Some p) with
          | Raise e => (Raise e, {| params := Some p; _coeff := _coeff self |})
          | Ok c =>
              let self' := {| params := Some p; _coeff := Some c |} in
              match polynomial (Coefficients.a_up c)
                               (np.slice_to (np.row naca0012 0) n_pts) with
              | Raise e => (Raise e, self')
              | Ok zu =>
                  match polynomial (Coefficients.a_lo c)
                          (np.slice_from (np.row naca0012 0) n_pts) with
                  | Raise e => (Raise e, self')
                  | Ok zl => (Ok [np.row naca0012 0; zu ++ zl], self')
                  end
              end
          end
      end
  end.
Proof.
  apply (express_steps (np.row naca0012 0) (np.row naca0012 1));
    [exact naca0012_rows | reflexivity].
Qed.

End AnyArithmetic.

End AirfoilFacts.

Module AirfoilAssembler.

Import Airfoil.

Section AnySolver.

Context {FA : arithmetic}.

(** Whether the polynomial is defined depends on the coefficients only. *)
Lemma polynomial_any_stations (a X X' z : array) :
  polynomial a X = Ok z -> exists z', polynomial a X' = Ok z'.
Proof.
  unfold polynomial. cbn [bind ret result_Monad].
  repeat (destruct (np.getitem a _) as [? | ?]; [| discriminate]).
  intros _. eexists. reflexivity.
Qed.

(** A freshly constructed airfoil has parameters and no coefficients. *)
Lemma init_attributes (genome : option array) (self : t) :
  init genome = Ok self ->
  _coeff self = None /\
  exists p, Parameters.init genome = Ok p /\ params self = Some p.
Proof.
  unfold init. cbn [bind ret result_Monad].
  destruct (Parameters.init genome) as [p | e]; [| discriminate].
  intros [= <-]. split; [reflexivity |]. now exists p.
Qed.

(** The default parameters exist. *)
Lemma default_parameters : exists p, Parameters.init None = Ok p.
Proof. eexists. reflexivity. Qed.

Context {LA : np.linalg}.

(** What a call of [express] that returns has done. *)
Lemma express_returns (genome : option array) (n_pts : Z) (self self' : t)
      (foil : matrix) :
  express genome n_pts self = (Ok foil, self') ->
  exists p c zu zl,
    Parameters.init genome = Ok p /\
    Coefficients.init (Some p) = Ok c /\
    self' = {| params := Some p; _coeff := Some c |} /\
    polynomial (Coefficients.a_up c)
               (np.slice_to (np.row naca0012 0) n_pts) = Ok zu /\
    polynomial (Coefficients.a_lo c)
               (np.slice_from (np.row naca0012 0) n_pts) = Ok zl /\
    foil = [np.row naca0012 0; zu ++ zl].
Proof.
  rewrite AirfoilFacts.express_naca0012.
  destruct (params self) as [p0 |]; [| discriminate].
  destruct (Parameters.init genome) as [p | e] eqn:Hp; [| discriminate].
  destruct (Coefficients.init (Some p)) as [c | e] eqn:Hc; [| discriminate].
  cbv zeta.
  destruct (polynomial (Coefficients.a_up c) _) as [zu | e] eqn:Hu;
    [| discriminate].
  destruct (polynomial (Coefficients.a_lo c) _) as [zl | e] eqn:Hl;
    [| discriminate].
  intros [= <- <-]. exists p, c, zu, zl.
  repeat (split; [reflexivity || assumption |]). reflexivity.
Qed.

(** C8.  Whenever [express] returns, the matrix has the two rows of the
    reference curve's shape: row 0 is the X row of the reference curve,
    unchanged, and row 1 is written anew from the two surface polynomials,
    [Z_up] on the stations [X[:n_pts]] followed by [Z_lo] on the stations
    [X[n_pts:]]; no entry of the reference Z row is left. *)
Theorem express_keeps_X_row (genome : option array) (n_pts : Z)
        (self self' : t) (foil : matrix) :
  express genome n_pts self = (Ok foil, self') ->
  np.row foil 0 = np.row naca0012 0 /\
  length foil = 2%nat /\
  exists zu zl,
    Z_up self' (np.slice_to (np.row naca0012 0) n_pts) = Ok zu /\
    Z_lo self' (np.slice_from (np.row naca0012 0) n_pts) = Ok zl /\
    np.row foil 1 = zu ++ zl /\
    length (np.row foil 1) = length (np.row naca0012 1).
Proof.
  intros H.
  destruct (express_returns _ _ _ _ _ H)
    as (p & c & zu & zl & _ & _ & -> & Hu & Hl & ->).
  split; [reflexivity |]. split; [reflexivity |].
  exists zu, zl.
  rewrite ?AirfoilFacts.Z_up_polynomial, ?AirfoilFacts.Z_lo_polynomial.
  unfold get__coeff.
  cbn [_coeff bind ret result_Monad np.row nth].
  repeat (split; [assumption || reflexivity |]).
  apply AirfoilFacts.polynomial_length in Hu, Hl.
  rewrite length_app, Hu, Hl, <- length_app, npFacts.slice_to_from.
  reflexivity.
Qed.

(** C5 (the code does not size the curve by [n_pts]).  The docstring of
    [express] promises a matrix sized by [n_pts], and the comment above its
    first statement calls the fixed stations a hack.  Whenever [express]
    returns, the matrix has the shape [2 x 200] of the reference curve,
    whatever the station count [n_pts] is: the shape is the [2 x 2*n_pts] of
    the claim for [n_pts = 100] and for no other station count.  The Z row
    holds the upper surface in the columns before the slice bound of
    [n_pts] (the first [n_pts] columns when [0 <= n_pts <= 200]) and the
    lower surface in all the columns after them, [200 - n_pts] and not
    [n_pts] of them. *)
Theorem express_shape (genome : option array) (n_pts : Z)
        (self self' : t) (foil : matrix) :
  express genome n_pts self = (Ok foil, self') ->
  np.shape foil = (2, 200)%nat /\
  (exists zu zl,
     Z_up self' (np.slice_to (np.row foil 0) n_pts) = Ok zu /\
     Z_lo self' (np.slice_from (np.row foil 0) n_pts) = Ok zl /\
     np.row foil 1 = zu ++ zl /\
     length zu = np.slice_bound 200 n_pts /\
     length zl = (200 - np.slice_bound 200 n_pts)%nat /\
     ((0 <= n_pts <= 200)%Z ->
      length zu = Z.to_nat n_pts /\ length zl = (200 - Z.to_nat n_pts)%nat)) /\
  (n_pts = 100%Z -> np.shape foil = (2, 2 * Z.to_nat n_pts)%nat) /\
  ((0 <= n_pts)%Z -> n_pts <> 100%Z ->
   np.shape foil <> (2, 2 * Z.to_nat n_pts)%nat).
Proof.
  intros H.
  destruct (express_returns _ _ _ _ _ H)
    as (p & c & zu & zl & _ & _ & -> & Hu & Hl & ->).
  split; [reflexivity |]. split.
  - exists zu, zl.
    rewrite ?AirfoilFacts.Z_up_polynomial, ?AirfoilFacts.Z_lo_polynomial.
    unfold get__coeff.
    cbn [_coeff bind ret result_Monad np.row nth].
    apply AirfoilFacts.polynomial_length in Hu as Lu, Hl as Ll.
    rewrite npFacts.slice_to_length in Lu.
    rewrite npFacts.slice_from_length in Ll.
    destruct AirfoilFacts.naca0012_row_lengths as [LX _].
    rewrite LX in Lu, Ll.
    repeat (split; [assumption || reflexivity |]).
    intros Hn. rewrite Lu, Ll.
    replace n_pts with (Z.of_nat (Z.to_nat n_pts)) at 1 3 by lia.
    rewrite npFacts.slice_bound_inside by lia. auto.
  - split; [intros ->; reflexivity |].
    intros Hn Hd [= E]. lia.
Qed.

(** C9.  An airfoil constructed from a ten-entry genome and an airfoil
    constructed without one answer [express(None, n_pts)] alike, in the
    matrix returned and in the attributes left: [express] replaces the
    parameters of the instance by those of its own argument, here the
    built-in defaults, before it uses them. *)
Theorem express_discards_constructor_genome (g : array) :
  length g = 10%nat ->
  exists with_genome without,
    init (Some g) = Ok with_genome /\
    init None = Ok without /\
    (forall n_pts,
       express None n_pts with_genome = express None n_pts without) /\
    express_default with_genome = express_default without /\
    (forall n_pts r self',
      express None n_pts with_genome = (r, self') ->
      params self' = params without).
Proof.
  intros Hlen.
  destruct (ParametersFacts.init_10 g Hlen) as [pg Hg].
  destruct default_parameters as [p0 H0].
  exists {| params := Some pg; _coeff := None |},
         {| params := Some p0; _coeff := None |}.
  assert (Hsame : forall n_pts,
             express None n_pts {| params := Some pg; _coeff := None |} =
             express None n_pts {| params := Some p0; _coeff := None |}).
  { intros n_pts. rewrite !AirfoilFacts.express_naca0012.
    cbn [params _coeff]. rewrite H0. reflexivity. }
  unfold init. rewrite Hg, H0. cbn [bind ret result_Monad].
  split; [reflexivity |]. split; [reflexivity |].
  split; [exact Hsame |]. split; [apply Hsame |].
  intros n_pts r self'. rewrite AirfoilFacts.express_naca0012.
  cbn [params _coeff]. rewrite H0.
  destruct (Coefficients.init (Some p0)) as [c | e]; cbv zeta.
  - destruct (polynomial (Coefficients.a_up c) _);
      [destruct (polynomial (Coefficients.a_lo c) _) |];
      now intros [= _ <-].
  - now intros [= _ <-].
Qed.

(** C10.  On a freshly constructed airfoil the attribute [_coeff] is not
    there, and [Z_up(X)] and [Z_lo(X)] raise [AttributeError] at every [X];
    once a call of [express] has returned, the attribute is there and both
    are defined at every [X]. *)
Theorem surface_needs_express (genome : option array) (self : t) :
  init genome = Ok self ->
  _coeff self = None /\
  (forall X,
     Z_up self X = Raise AttributeError /\
     Z_lo self X = Raise AttributeError) /\
  (forall g n_pts foil self',
     express g n_pts self = (Ok foil, self') ->
     _coeff self' <> None /\
     forall X, exists zu zl, Z_up self' X = Ok zu /\ Z_lo self' X = Ok zl).
Proof.
  intros Hinit.
  destruct (init_attributes _ _ Hinit) as (Hc & _).
  split; [assumption |]. split.
  - intros X.
    rewrite ?AirfoilFacts.Z_up_polynomial, ?AirfoilFacts.Z_lo_polynomial.
    unfold get__coeff. rewrite Hc.
    split; reflexivity.
  - intros g n_pts foil self' H.
    destruct (express_returns _ _ _ _ _ H)
      as (p & c & zu & zl & _ & _ & -> & Hu & Hl & _).
    split; [discriminate |]. intros X.
    rewrite ?AirfoilFacts.Z_up_polynomial, ?AirfoilFacts.Z_lo_polynomial.
    unfold get__coeff. cbn [_coeff bind ret result_Monad].
    destruct (polynomial_any_stations _ _ X _ Hu) as [zu' Hu'].
    destruct (polynomial_any_stations _ _ X _ Hl) as [zl' Hl'].
    now exists zu', zl'.
Qed.

End AnySolver.

(** *** Evaluation with the exact solver *)

(** With the exact solver and the genome [genome_036], [express] returns,
    whatever the station count. *)
Lemma init_airfoil_036 :
  init (Some ExactLinalg.genome_036) = Ok ExactLinalg.airfoil_036.
Proof.
  unfold init. now rewrite CoefficientsFacts.init_genome_036.
Qed.

Lemma express_genome_036 (n_pts : Z) :
  exists zu zl,
    polynomial (Coefficients.a_up ExactLinalg.coefficients_036)
      (np.slice_to (np.row naca0012 0) n_pts) = Ok zu /\
    polynomial (Coefficients.a_lo ExactLinalg.coefficients_036)
      (np.slice_from (np.row naca0012 0) n_pts) = Ok zl /\
    express (LA := ExactLinalg.linalg) (Some ExactLinalg.genome_036) n_pts
      ExactLinalg.airfoil_036
    = (Ok [np.row naca0012 0; zu ++ zl], ExactLinalg.airfoil_036_expressed).
Proof.
  rewrite AirfoilFacts.express_naca0012.
  cbn [params ExactLinalg.airfoil_036].
  rewrite CoefficientsFacts.init_genome_036.
  rewrite CoefficientsFacts.init_params_036. cbv zeta.
  assert (Hu : exists zu,
             polynomial (Coefficients.a_up ExactLinalg.coefficients_036)
               (np.slice_to (np.row naca0012 0) n_pts) = Ok zu)
    by (eexists; reflexivity).
  assert (Hl : exists zl,
             polynomial (Coefficients.a_lo ExactLinalg.coefficients_036)
               (np.slice_from (np.row naca0012 0) n_pts) = Ok zl)
    by (eexists; reflexivity).
  destruct Hu as [zu Hu]. destruct Hl as [zl Hl].
  exists zu, zl. rewrite Hu, Hl. auto.
Qed.

Lemma express_keeps_X_row_witness :
  exists foil,
    express (LA := ExactLinalg.linalg) (Some ExactLinalg.genome_036) 100
      ExactLinalg.airfoil_036
    = (Ok foil, ExactLinalg.airfoil_036_expressed) /\
    np.row foil 0 = np.row naca0012 0 /\
    length (np.row foil 1) = length (np.row naca0012 1).
Proof.
  destruct (express_genome_036 100) as (zu & zl & _ & _ & H).
  eexists. split; [exact H |].
  destruct (express_keeps_X_row (LA := ExactLinalg.linalg) _ _ _ _ _ H)
    as (H0 & _ & zu' & zl' & _ & _ & _ & H1).
  split; assumption.
Defined.

(** The station count 50, with the exact solver: 200 columns, not 100. *)
Lemma express_shape_witness :
  exists foil,
    express (LA := ExactLinalg.linalg) (Some ExactLinalg.genome_036) 50
      ExactLinalg.airfoil_036
    = (Ok foil, ExactLinalg.airfoil_036_expressed) /\
    np.shape foil = (2, 200)%nat /\
    np.shape foil <> (2, 2 * Z.to_nat 50)%nat.
Proof.
  destruct (express_genome_036 50) as (zu & zl & _ & _ & H).
  eexists. split; [exact H |].
  destruct (express_shape (LA := ExactLinalg.linalg) _ _ _ _ _ H)
    as (H0 & _ & _ & H1).
  split; [exact H0 |]. apply H1; lia.
Defined.

(** At the station count 50 the matrix returned has 200 columns, and 150 of
    them hold the lower surface. *)
Lemma express_50_has_200_columns :
  exists foil zu zl,
    init (Some ExactLinalg.genome_036) = Ok ExactLinalg.airfoil_036 /\
    express (LA := ExactLinalg.linalg) (Some ExactLinalg.genome_036) 50
      ExactLinalg.airfoil_036
    = (Ok foil, ExactLinalg.airfoil_036_expressed) /\
    np.shape foil = (2, 200)%nat /\
    np.shape foil <> (2, 2 * 50)%nat /\
    Z_up ExactLinalg.airfoil_036_expressed
         (np.slice_to (np.row foil 0) 50) = Ok zu /\
    Z_lo ExactLinalg.airfoil_036_expressed
         (np.slice_from (np.row foil 0) 50) = Ok zl /\
    np.row foil 1 = zu ++ zl /\
    length zu = 50%nat /\ length zl = 150%nat.
Proof.
  destruct (express_genome_036 50) as (zu & zl & Hu & Hl & H).
  exists [np.row naca0012 0; zu ++ zl], zu, zl.
  split; [exact init_airfoil_036 |]. split; [exact H |].
  split; [reflexivity |]. split; [discriminate |].
  rewrite AirfoilFacts.Z_up_polynomial, AirfoilFacts.Z_lo_polynomial.
  cbn [get__coeff _coeff ExactLinalg.airfoil_036_expressed
       bind result_Monad np.row nth].
  split; [exact Hu |]. split; [exact Hl |]. split; [reflexivity |].
  apply AirfoilFacts.polynomial_length in Hu, Hl.
  rewrite npFacts.slice_to_length in Hu.
  rewrite npFacts.slice_from_length in Hl.
  split; [exact Hu | exact Hl].
Qed.

Lemma express_discards_constructor_genome_witness :
  exists with_genome without,
    init (Some (repeat (Fin 0.5) 10)) = Ok with_genome /\
    init None = Ok without /\
    express_default (LA := ExactLinalg.linalg) with_genome
    = express_default (LA := ExactLinalg.linalg) without.
Proof.
  destruct (express_discards_constructor_genome (LA := ExactLinalg.linalg)
              (repeat (Fin 0.5) 10) eq_refl)
    as (a & b & Ha & Hb & _ & H & _).
  now exists a, b.
Defined.

Lemma surface_needs_express_witness :
  init (Some ExactLinalg.genome_036) = Ok ExactLinalg.airfoil_036 /\
  Z_up ExactLinalg.airfoil_036 [Fin 0.5] = Raise AttributeError /\
  Z_lo ExactLinalg.airfoil_036 [Fin 0.5] = Raise AttributeError /\
  exists foil zu zl,
    express (LA := ExactLinalg.linalg) (Some ExactLinalg.genome_036) 100
      ExactLinalg.airfoil_036
    = (Ok foil, ExactLinalg.airfoil_036_expressed) /\
    Z_up ExactLinalg.airfoil_036_expressed [Fin 0.5] = Ok zu /\
    Z_lo ExactLinalg.airfoil_036_expressed [Fin 0.5] = Ok zl.
Proof.
  destruct (express_genome_036 100) as (zu0 & zl0 & _ & _ & H).
  destruct (surface_needs_express (LA := ExactLinalg.linalg)
              (Some ExactLinalg.genome_036) ExactLinalg.airfoil_036
              init_airfoil_036)
    as (_ & Hraise & Hafter).
  split; [exact init_airfoil_036 |].
  destruct (Hraise [Fin 0.5]) as [Hu Hl].
  split; [exact Hu |]. split; [exact Hl |].
  destruct (Hafter _ _ _ _ H) as (_ & Hdef).
  destruct (Hdef [Fin 0.5]) as (zu & zl & Hzu & Hzl).
  eexists _, zu, zl. split; [exact H |]. split; assumption.
Defined.

End AirfoilAssembler.

(** * Further properties *)

(** ** Parameters: what the genome does not reach *)

Module ParametersExtra.

Import Parameters.

Section AnyArithmetic.

Context {FA : arithmetic}.

(** A genome that is accepted has ten entries or one. *)
Lemma accepted_length (g : array) (p : Parameters.t) :
  init (Some g) = Ok p -> length g = 10%nat \/ length g = 1%nat.
Proof.
  intros H.
  destruct (Nat.eq_dec (length g) 10) as [H10 | H10]; [now left |].
  destruct (Nat.eq_dec (length g) 1) as [H1 | H1]; [now right |].
  rewrite (ParametersFacts.init_raise (Some g) ValueError
             (ParametersFacts.scaled_shape_mismatch g H10 H1)) in H.
  discriminate H.
Qed.

(** X1.  The genome never reaches the trailing edge: in every arithmetic,
    whatever genome is accepted, the attributes [Z_te] and [dZ_te] are
    those of [Parameters()], built from the defaults of the slots 8 and 9
    without a genome. *)
Theorem trailing_edge_is_not_in_the_genome (g : array) (p : Parameters.t) :
  init (Some g) = Ok p ->
  exists p0,
    init None = Ok p0 /\ Z_te p = Z_te p0 /\ dZ_te p = dZ_te p0.
Proof.
  intros H. eexists. split; [reflexivity |].
  destruct (accepted_length g p H) as [H10 | H1].
  - destruct (ParametersFacts.length_10 g H10)
      as (g0 & g1 & g2 & g3 & g4 & g5 & g6 & g7 & g8 & g9 & ->).
    injection H as <-. split; reflexivity.
  - destruct g as [| v [| w g]]; try discriminate H1.
    injection H as <-. split; reflexivity.
Qed.

End AnyArithmetic.

(** A genome with every entry 0.9, in exact arithmetic. *)
Lemma trailing_edge_is_not_in_the_genome_witness :
  exists p p0,
    init (Some (repeat (Fin 0.9) 10)) = Ok p /\
    init None = Ok p0 /\
    Z_te p = Z_te p0 /\ dZ_te p = dZ_te p0.
Proof.
  assert (H : exists p, init (Some (repeat (Fin 0.9) 10)) = Ok p)
    by (eexists; reflexivity).
  destruct H as [p H].
  destruct (trailing_edge_is_not_in_the_genome _ _ H)
    as (p0 & H0 & Hz & Hd).
  now exists p, p0.
Defined.

End ParametersExtra.

(** ** Coefficients: domain errors and symmetric parameters

    In exact arithmetic, for every solver. *)

Module CoefficientsExtra.

Import Parameters Coefficients.
Open Scope R_scope.

(** The only exception of [math.tan] and [math.sqrt] is [ValueError]. *)
Lemma tan_raises (a : float64) (e : exn) :
  math.tan a = Raise e -> e = ValueError.
Proof. destruct a; cbn; congruence. Qed.

Lemma sqrt_raises (a : float64) (e : exn) :
  math.sqrt a = Raise e -> e = ValueError.
Proof.
  destruct a as [x | | |]; cbn; try congruence.
  destruct (Rle_dec 0 x); congruence.
Qed.

Lemma sqrt_negative (r : R) :
  r < 0 -> math.sqrt (Fin 2 * Fin r) = Raise ValueError.
Proof.
  intros Hr. cbn. destruct (Rle_dec 0 (2 * r)) as [H | _]; [lra | reflexivity].
Qed.

(** Negation on [float64]. *)
Lemma neg_involutive (a : float64) : (- - a)%f64 = a.
Proof. destruct a; cbn; try reflexivity. now rewrite Ropp_involutive. Qed.

Lemma inf_times_opp (s : bool) (r : R) :
  F64.inf_times s (- r) = (- F64.inf_times s r)%f64.
Proof.
  unfold F64.inf_times.
  destruct (total_order_T r 0) as [[Hlt | Heq] | Hgt];
    destruct (total_order_T (- r) 0) as [[Hlt' | Heq'] | Hgt'];
    try lra; destruct s; reflexivity.
Qed.

Lemma inf_times_negb (s : bool) (r : R) :
  F64.inf_times (negb s) r = (- F64.inf_times s r)%f64.
Proof.
  unfold F64.inf_times.
  destruct (total_order_T r 0) as [[Hlt | Heq] | Hgt]; destruct s; reflexivity.
Qed.

Lemma mul_neg_l (a b : float64) : (- a * b)%f64 = (- (a * b))%f64.
Proof.
  destruct a as [x | | |], b as [y | | |]; cbn; try reflexivity;
    try apply inf_times_opp;
    try apply (inf_times_negb true);
    try apply (inf_times_negb false).
  f_equal. lra.
Qed.

Lemma add_neg (a b : float64) : (- a + - b)%f64 = (- (a + b))%f64.
Proof.
  destruct a as [x | | |], b as [y | | |]; cbn; try reflexivity.
  f_equal. lra.
Qed.

Section AnySolver.

Context {LA : np.linalg}.

Lemma calc_a_up_negative_radius (p : Parameters.t) (r : R) :
  r_le_up p = Fin r -> r < 0 -> _calc_a_up (Some p) = Raise ValueError.
Proof.
  intros Hp Hr. unfold _calc_a_up. cbn [getattr bind ret result_Monad].
  rewrite Hp, (sqrt_negative r Hr).
  destruct (math.tan _) as [t | e] eqn:Ht; [reflexivity |].
  now rewrite (tan_raises _ _ Ht).
Qed.

Lemma calc_a_lo_negative_radius (p : Parameters.t) (r : R) :
  r_le_lo p = Fin r -> r < 0 -> _calc_a_lo (Some p) = Raise ValueError.
Proof.
  intros Hp Hr. unfold _calc_a_lo. cbn [getattr bind ret result_Monad].
  rewrite Hp, (sqrt_negative r Hr).
  destruct (math.tan _) as [t | e] eqn:Ht; [reflexivity |].
  now rewrite (tan_raises _ _ Ht).
Qed.

Lemma init_negative_radius_up (p : Parameters.t) (r : R) :
  r_le_up p = Fin r -> r < 0 -> Coefficients.init (Some p) = Raise ValueError.
Proof.
  intros Hp Hr. unfold Coefficients.init.
  now rewrite (calc_a_up_negative_radius p r Hp Hr).
Qed.

(** X2.  A negative leading-edge radius is a domain error of [math.sqrt]:
    with [r_le_up < 0], [Coefficients(p)] raises [ValueError] and the solver
    decides nothing; with [r_le_lo < 0] it never returns either, and the
    error is [ValueError] unless the upper solve has raised before. *)
Theorem negative_radius_raises (p : Parameters.t) (r : R) :
  r < 0 ->
  (r_le_up p = Fin r -> Coefficients.init (Some p) = Raise ValueError) /\
  (r_le_lo p = Fin r ->
   match _calc_a_up (Some p) with
   | Ok _ => Coefficients.init (Some p) = Raise ValueError
   | Raise e => Coefficients.init (Some p) = Raise e
   end).
Proof.
  intros Hr. split.
  - intros Hp. now apply init_negative_radius_up with r.
  - intros Hp. unfold Coefficients.init.
    rewrite (calc_a_lo_negative_radius p r Hp Hr).
    destruct (_calc_a_up (Some p)); reflexivity.
Qed.

(** With parameters that are symmetric about the chord the two systems are
    one system: same matrix, same right-hand side. *)
Lemma calc_a_lo_symmetric (p : Parameters.t) :
  X_lo p = X_up p ->
  r_le_lo p = r_le_up p ->
  Z_lo p = (- Z_up p)%f64 ->
  Z_XX_lo p = (- Z_XX_up p)%f64 ->
  Z_te p = Fin 0 ->
  beta_te p = Fin 0 ->
  _calc_a_lo (Some p) = (y <- _calc_a_up (Some p) ;; ret (np.neg y)).
Proof.
  intros HX Hr HZ HZXX Hte Hbeta.
  unfold _calc_a_lo, _calc_a_up. cbn [getattr bind ret result_Monad].
  rewrite HX, Hr, HZ, HZXX, Hte, Hbeta, !neg_involutive.
  rewrite F64Facts.div_Fin by lra.
  replace (- Fin 0)%f64 with (Fin 0) by (cbn; f_equal; lra).
  replace (alpha_te p - Fin (0 / 2))%f64 with (alpha_te p + Fin (0 / 2))%f64.
  - destruct (math.tan _) as [t | e]; [| reflexivity].
    destruct (math.sqrt _) as [s | e]; [| reflexivity].
    destruct (np.solve _ _); reflexivity.
  - unfold F64.sub. f_equal. cbn. f_equal. lra.
Qed.

Lemma zip_with_map (h : float64 -> float64 -> float64)
      (f g : float64 -> float64) (X : array) :
  np.zip_with h (map f X) (map g X) = map (fun x => h (f x) (g x)) X.
Proof. induction X as [| x X IH]; cbn; [reflexivity | now rewrite IH]. Qed.

(** The polynomial, station by station, in every arithmetic. *)
Lemma polynomial_pointwise {FA : arithmetic}
      (a0 a1 a2 a3 a4 a5 : float64) (rest X : array) :
  polynomial (a0 :: a1 :: a2 :: a3 :: a4 :: a5 :: rest) X =
  Ok (map (polynomial_at a0 a1 a2 a3 a4 a5) X).
Proof.
  unfold polynomial, np.getitem. cbn [nth_error bind ret result_Monad].
  unfold np.add, np.scale, np.pow. rewrite !map_map, !zip_with_map.
  reflexivity.
Qed.

Lemma polynomial_at_neg (a0 a1 a2 a3 a4 a5 x : float64) :
  polynomial_at (- a0) (- a1) (- a2) (- a3) (- a4) (- a5) x =
  (- polynomial_at a0 a1 a2 a3 a4 a5 x)%f64.
Proof.
  unfold polynomial_at. now rewrite !mul_neg_l, !add_neg.
Qed.

(** Negated coefficients give the negated surface. *)
Lemma polynomial_neg (a X : array) :
  polynomial (np.neg a) X = (z <- polynomial a X ;; ret (np.neg z)).
Proof.
  do 6 (destruct a as [| ? a];
        [unfold polynomial, np.getitem; cbn; reflexivity |]).
  unfold np.neg at 1. cbn [map]. rewrite !polynomial_pointwise.
  cbn [bind ret result_Monad]. f_equal. unfold np.neg. rewrite map_map.
  apply map_ext. intros x. apply polynomial_at_neg.
Qed.

(** X3.  Parameters that are symmetric about the chord give a symmetric
    airfoil: when the crests and radii agree, [Z_lo = -Z_up],
    [Z_XX_lo = -Z_XX_up], [Z_te = 0] and [beta_te = 0], the lower
    coefficients are the negated upper ones, and [Z_lo(X)] is the negation
    of [Z_up(X)] at every station, for every solver. *)
Theorem symmetric_parameters_give_symmetric_surfaces (p : Parameters.t) :
  X_lo p = X_up p ->
  r_le_lo p = r_le_up p ->
  Z_lo p = (- Z_up p)%f64 ->
  Z_XX_lo p = (- Z_XX_up p)%f64 ->
  Z_te p = Fin 0 ->
  beta_te p = Fin 0 ->
  _calc_a_lo (Some p) = (y <- _calc_a_up (Some p) ;; ret (np.neg y)) /\
  forall c,
    Coefficients.init (Some p) = Ok c ->
    a_lo c = np.neg (a_up c) /\
    forall self X,
      Airfoil._coeff self = Some c ->
      Airfoil.Z_lo self X = (z <- Airfoil.Z_up self X ;; ret (np.neg z)).
Proof.
  intros HX Hr HZ HZXX Hte Hbeta.
  pose proof (calc_a_lo_symmetric p HX Hr HZ HZXX Hte Hbeta) as Hlo.
  split; [exact Hlo |].
  intros c Hc. unfold Coefficients.init in Hc. rewrite Hlo in Hc.
  destruct (_calc_a_up (Some p)) as [y | e]; [| discriminate Hc].
  cbn in Hc. injection Hc as <-. split; [reflexivity |].
  intros self X Hself.
  rewrite AirfoilFacts.Z_up_polynomial, AirfoilFacts.Z_lo_polynomial.
  unfold Airfoil.get__coeff. rewrite Hself. cbn [bind ret result_Monad].
  apply polynomial_neg.
Qed.

End AnySolver.

(** The genome [genome_negative_radius]: [r_le_up = -0.0426]. *)
Lemma negative_radius_raises_witness :
  exists p r,
    Parameters.init (Some genome_negative_radius) = Ok p /\
    r_le_up p = Fin r /\ r < 0 /\
    Coefficients.init (LA := ExactLinalg.linalg) (Some p) = Raise ValueError.
Proof.
  eexists. eexists. split; [reflexivity |]. split; [reflexivity |].
  match goal with |- ?x < 0 /\ _ => assert (Hr : x < 0) by lra end.
  split; [exact Hr |].
  match goal with
  | |- Coefficients.init (Some ?p) = _ =>
      exact (proj1 (negative_radius_raises (LA := ExactLinalg.linalg) p _ Hr)
                   eq_refl)
  end.
Defined.

Lemma symmetric_parameters_give_symmetric_surfaces_witness :
  _calc_a_lo (LA := ExactLinalg.linalg) (Some symmetric_parameters) =
  (y <- _calc_a_up (LA := ExactLinalg.linalg) (Some symmetric_parameters) ;;
   ret (np.neg y)).
Proof.
  apply (symmetric_parameters_give_symmetric_surfaces
           (LA := ExactLinalg.linalg) symmetric_parameters);
    reflexivity.
Defined.

End CoefficientsExtra.

(** ** Airfoil: calls of [express] one after the other

    In every arithmetic and for every solver. *)

Module ExpressExtra.

Import Airfoil.

(** With the exact solver, the coefficients of finite parameters whose two
    crests are at [0.36]. *)
Lemma init_at_036 (rleu zu zxxu rlel zl zxxl zte dzte al be : R) :
  (0 <= rleu)%R -> (0 <= rlel)%R ->
  Coefficients.init (LA := ExactLinalg.linalg)
    (Some (finite_parameters rleu 0.36 zu zxxu rlel 0.36 zl zxxl
                             zte dzte al be)) =
  Ok {| Coefficients._a_up :=
          map Fin (ExactLinalg.mat_vec ExactLinalg.Amat_036_inverse
                     [zte + dzte / 2; zu; tan (al + - (be / 2)); 0.0; zxxu;
                      sqrt (2 * rleu)]%R);
        Coefficients._a_lo :=
          np.neg (map Fin (ExactLinalg.mat_vec ExactLinalg.Amat_036_inverse
                     [- zte + dzte / 2; - zl; tan (al + be / 2); 0.0;
                      - zxxl; sqrt (2 * rlel)]%R)) |}.
Proof.
  intros Hu Hl.
  unfold Coefficients.init, Coefficients._calc_a_up, Coefficients._calc_a_lo.
  unfold finite_parameters.
  cbn [Coefficients.getattr bind ret result_Monad
       Parameters.r_le_up Parameters.X_up Parameters.Z_up Parameters.Z_XX_up
       Parameters.r_le_lo Parameters.X_lo Parameters.Z_lo Parameters.Z_XX_lo
       Parameters.Z_te Parameters.dZ_te Parameters.alpha_te
       Parameters.beta_te].
  rewrite !F64Facts.div_Fin by lra.
  cbn [F64.add F64.sub F64.neg F64.mul math.tan math.sqrt rnd exact_arithmetic].
  destruct (Rle_dec 0 (2 * rleu)) as [_ | Hn]; [| exfalso; lra].
  destruct (Rle_dec 0 (2 * rlel)) as [_ | Hn]; [| exfalso; lra].
  cbn [bind result_Monad].
  pose proof ExactLinalgFacts.solve_Amat_036 as Hsolve.
  cbn [map] in Hsolve. cbn [np.solve ExactLinalg.linalg].
  rewrite !Hsolve. reflexivity.
Qed.

Section AnySolver.

Context {FA : arithmetic}.
Context {LA : np.linalg}.

(** The result of [express] does not depend on the instance, as long as
    the instance has parameters. *)
Lemma express_result_any_instance (genome : option array) (n_pts : Z)
      (self1 self2 : t) :
  params self1 <> None -> params self2 <> None ->
  fst (express genome n_pts self1) = fst (express genome n_pts self2) /\
  (forall foil self',
     express genome n_pts self1 = (Ok foil, self') ->
     express genome n_pts self2 = (Ok foil, self')).
Proof.
  intros H1 H2. rewrite !AirfoilFacts.express_naca0012.
  destruct (params self1) as [p1 |]; [| contradiction].
  destruct (params self2) as [p2 |]; [| contradiction].
  destruct (Parameters.init genome) as [p | e]; [| split; [reflexivity |]].
  - destruct (Coefficients.init (Some p)) as [c | e];
      [| split; [reflexivity | discriminate]].
    cbv zeta.
    destruct (polynomial (Coefficients.a_up c) _) as [zu | e];
      [| split; [reflexivity | discriminate]].
    destruct (polynomial (Coefficients.a_lo c) _) as [zl | e];
      [| split; [reflexivity | discriminate]].
    split; [reflexivity | auto].
  - discriminate.
Qed.

(** X4.  [express] keeps nothing from one call to the next: after a call
    that has returned, a call with the same arguments returns the same
    matrix and leaves the same attributes, and a call with other arguments
    returns what it would have returned on the instance before the first
    call. *)
Theorem express_after_express (g1 g2 : option array) (n1 n2 : Z)
        (self self1 : t) (foil1 : matrix) :
  express g1 n1 self = (Ok foil1, self1) ->
  express g1 n1 self1 = (Ok foil1, self1) /\
  fst (express g2 n2 self1) = fst (express g2 n2 self) /\
  (forall foil2 self2,
     express g2 n2 self = (Ok foil2, self2) ->
     express g2 n2 self1 = (Ok foil2, self2)).
Proof.
  intros H.
  assert (Hp : params self <> None).
  { intros Hn. rewrite AirfoilFacts.express_naca0012, Hn in H.
    discriminate H. }
  assert (Hp1 : params self1 <> None).
  { destruct (AirfoilAssembler.express_returns _ _ _ _ _ H)
      as (p & c & zu & zl & _ & _ & -> & _). discriminate. }
  split.
  - exact (proj2 (express_result_any_instance g1 n1 self self1 Hp Hp1) _ _ H).
  - destruct (express_result_any_instance g2 n2 self1 self Hp1 Hp) as [Hf _].
    split; [exact Hf |].
    exact (proj2 (express_result_any_instance g2 n2 self self1 Hp Hp1)).
Qed.

(** What a call of [express] leaves when [Coefficients] raises. *)
Lemma express_coefficients_raise (genome : option array) (n_pts : Z)
      (self : t) (p : Parameters.t) (e : exn) :
  params self <> None ->
  Parameters.init genome = Ok p ->
  Coefficients.init (Some p) = Raise e ->
  express genome n_pts self =
  (Raise e, {| params := Some p; _coeff := _coeff self |}).
Proof.
  intros Hs Hp Hc. rewrite AirfoilFacts.express_naca0012.
  destruct (params self); [| contradiction].
  now rewrite Hp, Hc.
Qed.

(** X5.  [express] is not all-or-nothing.  When the new parameters are
    built and [Coefficients] raises, the exception leaves the instance with
    the new parameters and the coefficients of the call before: [Z_up] and
    [Z_lo] go on evaluating the previous surfaces. *)
Theorem failed_express_keeps_old_coefficients
        (genome : option array) (n_pts : Z) (self : t)
        (p : Parameters.t) (e : exn) :
  params self <> None ->
  Parameters.init genome = Ok p ->
  Coefficients.init (Some p) = Raise e ->
  exists self',
    express genome n_pts self = (Raise e, self') /\
    params self' = Some p /\
    _coeff self' = _coeff self /\
    forall X, Z_up self' X = Z_up self X /\ Z_lo self' X = Z_lo self X.
Proof.
  intros Hs Hp Hc. eexists.
  split; [exact (express_coefficients_raise _ n_pts _ _ _ Hs Hp Hc) |].
  repeat split.
Qed.

(** X6.  An instance whose attribute [params] is [None] cannot be
    evaluated: [express] skips the construction of the parameters, whatever
    its argument, raises [AttributeError] and changes nothing. *)
Theorem express_without_parameters (genome : option array) (n_pts : Z)
        (self : t) :
  params self = None ->
  express genome n_pts self = (Raise AttributeError, self).
Proof.
  intros H. rewrite AirfoilFacts.express_naca0012. now rewrite H.
Qed.

(** Only the slice bound of [n_pts] matters. *)
Lemma express_slice_bound (genome : option array) (n m : Z) (self : t) :
  np.slice_bound 200 n = np.slice_bound 200 m ->
  express genome n self = express genome m self.
Proof.
  intros H. rewrite !AirfoilFacts.express_naca0012.
  unfold np.slice_to, np.slice_from.
  destruct AirfoilFacts.naca0012_row_lengths as [-> _].
  now rewrite H.
Qed.

(** X7.  [n_pts] is a slice bound on the 200 stations, not a number of
    points: a negative [n_pts] counts from the end, so that [n_pts] and
    [n_pts + 200] give the same call, every [n_pts >= 200] is the call of
    [200] and every [n_pts <= -200] the call of [0]. *)
Theorem express_n_pts_is_a_slice_bound (genome : option array) (n : Z)
        (self : t) :
  ((-200 <= n < 0)%Z ->
   express genome n self = express genome (n + 200) self) /\
  ((200 <= n)%Z -> express genome n self = express genome 200 self) /\
  ((n <= -200)%Z -> express genome n self = express genome 0 self).
Proof.
  repeat split; intros Hn; apply express_slice_bound;
    unfold np.slice_bound;
    repeat match goal with
           | |- context [(?a <? ?b)%Z] => destruct (Z.ltb_spec a b)
           end; lia.
Qed.

(** The two ends: all 200 columns on one surface. *)
Lemma slice_to_all (a : array) (n : Z) :
  (Z.of_nat (length a) <= n)%Z -> np.slice_to a n = a /\ np.slice_from a n = [].
Proof.
  intros H. unfold np.slice_to, np.slice_from, np.slice_bound.
  destruct (Z.ltb_spec n 0); [lia |].
  rewrite Nat.min_r by lia. split; [apply firstn_all | apply skipn_all].
Qed.

Lemma slice_to_none (a : array) (n : Z) :
  (n = 0 \/ n <= - Z.of_nat (length a))%Z ->
  np.slice_to a n = [] /\ np.slice_from a n = a.
Proof.
  intros H. unfold np.slice_to, np.slice_from, np.slice_bound.
  destruct (Z.ltb_spec n 0).
  - replace (Z.to_nat (Z.max (n + Z.of_nat (length a)) 0)) with 0%nat by lia.
    split; reflexivity.
  - replace (Nat.min (Z.to_nat n) (length a)) with 0%nat by lia.
    split; reflexivity.
Qed.

(** X8.  At the ends of the range of [n_pts] one surface takes the whole
    curve: when [express] returns with [n_pts >= 200] the Z row is
    [Z_up] on all the stations and no value of [Z_lo] is in it, and with
    [n_pts = 0] or [n_pts <= -200] it is [Z_lo] on all the stations. *)
Theorem express_one_surface (genome : option array) (n_pts : Z)
        (self self' : t) (foil : matrix) :
  express genome n_pts self = (Ok foil, self') ->
  ((200 <= n_pts)%Z -> Z_up self' (np.row naca0012 0) = Ok (np.row foil 1)) /\
  ((n_pts = 0 \/ n_pts <= -200)%Z ->
   Z_lo self' (np.row naca0012 0) = Ok (np.row foil 1)).
Proof.
  intros H.
  destruct (AirfoilAssembler.express_returns _ _ _ _ _ H)
    as (p & c & zu & zl & _ & _ & -> & Hu & Hl & ->).
  rewrite AirfoilFacts.Z_up_polynomial, AirfoilFacts.Z_lo_polynomial.
  unfold get__coeff. cbn [_coeff bind ret result_Monad np.row nth].
  destruct AirfoilFacts.naca0012_row_lengths as [LX _].
  split; intros Hn.
  - destruct (slice_to_all (np.row naca0012 0) n_pts) as [Et Ef];
      [rewrite LX; lia |].
    rewrite Et in Hu. rewrite Ef in Hl.
    apply AirfoilFacts.polynomial_length in Hl.
    destruct zl; [| discriminate Hl]. now rewrite app_nil_r.
  - destruct (slice_to_none (np.row naca0012 0) n_pts) as [Et Ef];
      [rewrite LX; lia |].
    rewrite Et in Hu. rewrite Ef in Hl.
    apply AirfoilFacts.polynomial_length in Hu.
    destruct zu; [| discriminate Hu]. exact Hl.
Qed.

End AnySolver.

Lemma express_after_express_witness :
  exists foil,
    express (LA := ExactLinalg.linalg) (Some ExactLinalg.genome_036) 100
      ExactLinalg.airfoil_036
    = (Ok foil, ExactLinalg.airfoil_036_expressed) /\
    express (LA := ExactLinalg.linalg) (Some ExactLinalg.genome_036) 100
      ExactLinalg.airfoil_036_expressed
    = (Ok foil, ExactLinalg.airfoil_036_expressed).
Proof.
  destruct (AirfoilAssembler.express_genome_036 100)
    as (zu & zl & _ & _ & H).
  eexists. split; [exact H |].
  exact (proj1 (express_after_express (LA := ExactLinalg.linalg)
                  _ None _ 100 _ _ _ H)).
Defined.

(** After the airfoil of [genome_036] has been evaluated, a call with the
    genome [genome_negative_radius] raises and leaves its coefficients. *)
Lemma failed_express_keeps_old_coefficients_witness :
  exists p self',
    Parameters.init (Some genome_negative_radius) = Ok p /\
    express (LA := ExactLinalg.linalg) (Some genome_negative_radius) 100
      ExactLinalg.airfoil_036_expressed
    = (Raise ValueError, self') /\
    params self' = Some p /\
    _coeff self' = Some ExactLinalg.coefficients_036.
Proof.
  assert (Hp : exists p r,
             Parameters.init (Some genome_negative_radius) = Ok p /\
             Parameters.r_le_up p = Fin r /\ (r < 0)%R).
  { eexists. eexists. split; [reflexivity |]. split; [reflexivity | lra]. }
  destruct Hp as (p & r & Hp & Hr & Hneg).
  destruct (failed_express_keeps_old_coefficients (LA := ExactLinalg.linalg)
              (Some genome_negative_radius) 100
              ExactLinalg.airfoil_036_expressed p ValueError)
    as (self' & He & Hpar & Hco & _).
  - discriminate.
  - exact Hp.
  - exact (CoefficientsExtra.init_negative_radius_up p r Hr Hneg).
  - exists p, self'. auto.
Defined.

Lemma express_without_parameters_witness :
  express (LA := ExactLinalg.linalg) (Some ExactLinalg.genome_036) 100
    {| params := None; _coeff := Some ExactLinalg.coefficients_036 |}
  = (Raise AttributeError,
     {| params := None; _coeff := Some ExactLinalg.coefficients_036 |}).
Proof.
  apply (express_without_parameters (LA := ExactLinalg.linalg)). reflexivity.
Defined.

Lemma express_one_surface_witness :
  exists foil,
    express (LA := ExactLinalg.linalg) (Some ExactLinalg.genome_036) 200
      ExactLinalg.airfoil_036
    = (Ok foil, ExactLinalg.airfoil_036_expressed) /\
    Z_up ExactLinalg.airfoil_036_expressed (np.row naca0012 0)
    = Ok (np.row foil 1).
Proof.
  destruct (AirfoilAssembler.express_genome_036 200)
    as (zu & zl & _ & _ & H).
  eexists. split; [exact H |].
  apply (proj1 (express_one_surface (LA := ExactLinalg.linalg) _ _ _ _ _ H)).
  lia.
Defined.

Lemma express_n_pts_is_a_slice_bound_witness :
  express (LA := ExactLinalg.linalg) (Some ExactLinalg.genome_036) (-100)
    ExactLinalg.airfoil_036
  = express (LA := ExactLinalg.linalg) (Some ExactLinalg.genome_036) 100
      ExactLinalg.airfoil_036.
Proof.
  apply (proj1 (express_n_pts_is_a_slice_bound (LA := ExactLinalg.linalg)
                  (Some ExactLinalg.genome_036) (-100)
                  ExactLinalg.airfoil_036)).
  lia.
Defined.

End ExpressExtra.

(** ** The surfaces as real functions *)

Module SurfaceFacts.

Import ExactLinalg.
Open Scope R_scope.

(** The derivative of a combination of basis functions is the combination
    of their derivatives. *)
Lemma value_derivative (ks : list nat) (a : list R) (x : R) :
  0 < x ->
  derivable_pt_lim (fun x => dot a (map (fun k => Basis.value k x) ks)) x
                   (dot a (map (fun k => Basis.first_derivative k x) ks)).
Proof.
  intros Hx. revert ks.
  induction a as [| a0 a IH]; intros ks.
  - apply derivable_pt_lim_const.
  - destruct ks as [| k ks].
    + apply derivable_pt_lim_const.
    + cbn [map dot].
      apply (derivable_pt_lim_plus
               (fun x => a0 * Basis.value k x)
               (fun x => dot a (map (fun k => Basis.value k x) ks))).
      * apply (derivable_pt_lim_scal (Basis.value k)).
        now apply BasisFacts.first_derivative_correct.
      * apply IH.
Qed.

Lemma slope_derivative (ks : list nat) (a : list R) (x : R) :
  0 < x ->
  derivable_pt_lim
    (fun x => dot a (map (fun k => Basis.first_derivative k x) ks)) x
    (dot a (map (fun k => Basis.second_derivative k x) ks)).
Proof.
  intros Hx. revert ks.
  induction a as [| a0 a IH]; intros ks.
  - apply derivable_pt_lim_const.
  - destruct ks as [| k ks].
    + apply derivable_pt_lim_const.
    + cbn [map dot].
      apply (derivable_pt_lim_plus
               (fun x => a0 * Basis.first_derivative k x)
               (fun x => dot a (map (fun k => Basis.first_derivative k x) ks))).
      * apply (derivable_pt_lim_scal (Basis.first_derivative k)).
        now apply BasisFacts.second_derivative_correct.
      * apply IH.
Qed.

(** [Surface.slope] and [Surface.curvature] are the first and the second
    derivative of [Surface.value]. *)
Lemma slope_is_derivative (a : list R) (x : R) :
  0 < x -> derivable_pt_lim (Surface.value a) x (Surface.slope a x).
Proof. apply value_derivative. Qed.

Lemma curvature_is_derivative (a : list R) (x : R) :
  0 < x -> derivable_pt_lim (Surface.slope a) x (Surface.curvature a x).
Proof. apply slope_derivative. Qed.

(** A power of one is one. *)
Lemma Rpower_one (y : R) : Rpower 1 y = 1.
Proof. unfold Rpower. rewrite ln_1, Rmult_0_r. apply exp_0. Qed.

(** The three functions on six coefficients, written out. *)
Lemma value_six (a0 a1 a2 a3 a4 a5 x : R) :
  Surface.value [a0; a1; a2; a3; a4; a5] x =
  a0 * Rpower x 0.5 + a1 * Rpower x 1.5 + a2 * Rpower x 2.5
  + a3 * Rpower x 3.5 + a4 * Rpower x 4.5 + a5 * Rpower x 5.5.
Proof.
  unfold Surface.value, Basis.value, Basis.ks. cbn [seq map dot INR].
  replace (0 + 0.5) with 0.5 by lra.
  replace (1 + 0.5) with 1.5 by lra.
  replace (1 + 1 + 0.5) with 2.5 by lra.
  replace (1 + 1 + 1 + 0.5) with 3.5 by lra.
  replace (1 + 1 + 1 + 1 + 0.5) with 4.5 by lra.
  replace (1 + 1 + 1 + 1 + 1 + 0.5) with 5.5 by lra.
  lra.
Qed.

Lemma slope_six (a0 a1 a2 a3 a4 a5 x : R) :
  Surface.slope [a0; a1; a2; a3; a4; a5] x =
  a0 * (0.5 * Rpower x (-0.5)) + a1 * (1.5 * Rpower x 0.5)
  + a2 * (2.5 * Rpower x 1.5) + a3 * (3.5 * Rpower x 2.5)
  + a4 * (4.5 * Rpower x 3.5) + a5 * (5.5 * Rpower x 4.5).
Proof.
  unfold Surface.slope, Basis.first_derivative, Basis.ks.
  cbn [seq map dot INR].
  replace (0 - 0.5) with (-0.5) by lra.
  replace (1 - 0.5) with 0.5 by lra.
  replace (1 + 1 - 0.5) with 1.5 by lra.
  replace (1 + 1 + 1 - 0.5) with 2.5 by lra.
  replace (1 + 1 + 1 + 1 - 0.5) with 3.5 by lra.
  replace (1 + 1 + 1 + 1 + 1 - 0.5) with 4.5 by lra.
  lra.
Qed.

Lemma curvature_six (a0 a1 a2 a3 a4 a5 x : R) :
  Surface.curvature [a0; a1; a2; a3; a4; a5] x =
  a0 * (-0.25 * Rpower x (-1.5)) + a1 * (0.75 * Rpower x (-0.5))
  + a2 * (3.75 * Rpower x 0.5) + a3 * (8.75 * Rpower x 1.5)
  + a4 * (15.75 * Rpower x 2.5) + a5 * (24.75 * Rpower x 3.5).
Proof.
  unfold Surface.curvature, Basis.second_derivative, Basis.ks.
  cbn [seq map dot INR].
  replace (0 - 1.5) with (-1.5) by lra.
  replace (1 - 1.5) with (-0.5) by lra.
  replace (1 + 1 - 1.5) with 0.5 by lra.
  replace (1 + 1 + 1 - 1.5) with 1.5 by lra.
  replace (1 + 1 + 1 + 1 - 1.5) with 2.5 by lra.
  replace (1 + 1 + 1 + 1 + 1 - 1.5) with 3.5 by lra.
  lra.
Qed.

(** The polynomial of [Z_up] and [Z_lo] on finite coefficients, at a
    positive station and at the station [0]. *)
Lemma polynomial_at_positive (a0 a1 a2 a3 a4 a5 x : R) :
  0 < x ->
  polynomial_at (Fin a0) (Fin a1) (Fin a2) (Fin a3) (Fin a4) (Fin a5) (Fin x)
  = Fin (Surface.value [a0; a1; a2; a3; a4; a5] x).
Proof.
  intros Hx. unfold polynomial_at.
  rewrite !(fun y => F64Facts.pow_pos x y Hx).
  cbn [F64.mul F64.add rnd exact_arithmetic].
  now rewrite value_six.
Qed.

Lemma polynomial_at_zero (a0 a1 a2 a3 a4 a5 : R) :
  polynomial_at (Fin a0) (Fin a1) (Fin a2) (Fin a3) (Fin a4) (Fin a5) (Fin 0)
  = Fin 0.
Proof.
  unfold polynomial_at. rewrite !F64Facts.pow_zero_pos by lra.
  cbn [F64.mul F64.add rnd exact_arithmetic]. f_equal. lra.
Qed.

End SurfaceFacts.

(** ** What the solved coefficients mean for the two surfaces

    In exact arithmetic, for every solver whose result solves the system
    exactly. *)

Module BoundaryConditions.

Import Parameters Coefficients ExactLinalg.
Open Scope R_scope.

(** The exact solver is sound and behaves as NumPy documents. *)
Lemma exact_solver_sound : sound_solver ExactLinalg.linalg.
Proof.
  intros A b y H. cbn [np.solve ExactLinalg.linalg] in H.
  apply ExactLinalgFacts.solve_sound in H.
  destruct H as (y' & -> & A' & b' & HA & Hb & _ & Hlen & Hsol).
  apply ExactLinalgFacts.map_map_Fin_inj in HA.
  apply ExactLinalgFacts.map_Fin_inj in Hb. subst A' b'.
  now exists y'.
Qed.

Lemma exact_solver_numpy_like : numpy_like_solver ExactLinalg.linalg.
Proof.
  split.
  - intros A b e. cbn [np.solve ExactLinalg.linalg]. unfold solve.
    destruct (excluded_middle_informative _); congruence.
  - intros A b y H. cbn [np.solve ExactLinalg.linalg] in H.
    apply ExactLinalgFacts.solve_sound in H.
    destruct H as (y' & -> & A' & b' & _ & -> & _ & Hlen & _).
    now rewrite !length_map.
Qed.

Lemma length_6 (y : list R) :
  length y = 6%nat -> exists y0 y1 y2 y3 y4 y5, y = [y0; y1; y2; y3; y4; y5].
Proof.
  intros H. do 6 (destruct y as [| ? y]; [discriminate H |]).
  destruct y; [| discriminate H]. repeat eexists.
Qed.

Section SoundSolver.

Context {LA : np.linalg}.
Hypothesis sound : sound_solver LA.

Variables rleu xu zu zxxu rlel xl zl zxxl zte dzte al be : R.
Hypothesis xu_positive : 0 < xu.
Hypothesis xl_positive : 0 < xl.

Variable c : Coefficients.t.
Hypothesis init_returned :
  Coefficients.init
    (Some (finite_parameters rleu xu zu zxxu rlel xl zl zxxl zte dzte al be))
  = Ok c.

(** The coefficients a sound solver returns for finite parameters: [u] on
    the upper surface and [l] on the lower, the latter the negation of the
    solution of the lower system. *)
Lemma sound_coefficients :
  exists u0 u1 u2 u3 u4 u5 l0 l1 l2 l3 l4 l5,
    a_up c = map Fin [u0; u1; u2; u3; u4; u5] /\
    a_lo c = map Fin [l0; l1; l2; l3; l4; l5] /\
    mat_vec (Amat_real xu) [u0; u1; u2; u3; u4; u5] =
      [zte + dzte / 2; zu; tan (al - be / 2); 0; zxxu; sqrt (2 * rleu)] /\
    mat_vec (Amat_real xl) [- l0; - l1; - l2; - l3; - l4; - l5] =
      [- zte + dzte / 2; - zl; tan (al + be / 2); 0; - zxxl;
       sqrt (2 * rlel)].
Proof.
  pose proof init_returned as Hinit.
  apply CoefficientSolver.init_returns in Hinit.
  destruct Hinit as (t_up & s_up & t_lo & s_lo & y_lo
                     & Htu & Hsu & Hup & Htl & Hsl & Hlo & Hneg).
  unfold finite_parameters in *.
  cbn [r_le_up X_up Z_up Z_XX_up r_le_lo X_lo Z_lo Z_XX_lo
       Z_te dZ_te alpha_te beta_te] in *.
  rewrite !F64Facts.div_Fin in * by lra.
  cbn [F64.add F64.sub F64.neg F64.mul math.tan math.sqrt rnd
       exact_arithmetic] in *.
  injection Htu as <-. injection Htl as <-.
  destruct (Rle_dec 0 (2 * rleu)) as [_ | _]; [| discriminate Hsu].
  destruct (Rle_dec 0 (2 * rlel)) as [_ | _]; [| discriminate Hsl].
  injection Hsu as <-. injection Hsl as <-.
  rewrite AmatFacts.Amat_pos in Hup, Hlo by assumption.
  change [Fin (zte + dzte / 2); Fin zu; Fin (tan (al + - (be / 2)));
          Fin 0.0; Fin zxxu; Fin (sqrt (2 * rleu))]
    with (map Fin [zte + dzte / 2; zu; tan (al + - (be / 2)); 0.0; zxxu;
                   sqrt (2 * rleu)]) in Hup.
  change [Fin (- zte + dzte / 2); Fin (- zl); Fin (tan (al + be / 2));
          Fin 0.0; Fin (- zxxl); Fin (sqrt (2 * rlel))]
    with (map Fin [- zte + dzte / 2; - zl; tan (al + be / 2); 0.0; - zxxl;
                   sqrt (2 * rlel)]) in Hlo.
  apply sound in Hup, Hlo.
  destruct Hup as (yu & Hyu & Lu & Su).
  destruct Hlo as (yl & Hyl & Ll & Sl).
  destruct (length_6 yu Lu) as (u0 & u1 & u2 & u3 & u4 & u5 & ->).
  destruct (length_6 yl Ll) as (v0 & v1 & v2 & v3 & v4 & v5 & ->).
  exists u0, u1, u2, u3, u4, u5, (- v0), (- v1), (- v2), (- v3), (- v4),
         (- v5).
  split; [exact Hyu |]. split; [rewrite Hneg, Hyl; reflexivity |].
  split.
  - rewrite Su. repeat (f_equal; try lra).
  - rewrite !Ropp_involutive, Sl. repeat (f_equal; try lra).
Qed.

Ltac with_sound_coefficients :=
  destruct sound_coefficients
    as (u0 & u1 & u2 & u3 & u4 & u5 & l0 & l1 & l2 & l3 & l4 & l5
        & Hup & Hlo & Su & Sl);
  cbn [mat_vec Amat_real map dot] in Su, Sl;
  injection Su as U0 U1 U2 U3 U4 U5;
  injection Sl as L0 L1 L2 L3 L4 L5.

Ltac evaluate_surfaces self Hself :=
  rewrite ?AirfoilFacts.Z_up_polynomial, ?AirfoilFacts.Z_lo_polynomial;
  unfold Airfoil.get__coeff; rewrite Hself;
  cbn [bind ret result_Monad];
  match goal with
  | Hup : a_up c = _, Hlo : a_lo c = _ |- _ => rewrite ?Hup, ?Hlo
  end;
  cbn [map]; rewrite ?CoefficientsExtra.polynomial_pointwise; cbn [map].

(** The two surfaces at a positive station are the real functions of their
    coefficients. *)
Lemma surfaces_at_positive_station (self : Airfoil.t) :
  Airfoil._coeff self = Some c ->
  exists u l,
    a_up c = map Fin u /\ a_lo c = map Fin l /\
    length u = 6%nat /\ length l = 6%nat /\
    forall x, 0 < x ->
      Airfoil.Z_up self [Fin x] = Ok [Fin (Surface.value u x)] /\
      Airfoil.Z_lo self [Fin x] = Ok [Fin (Surface.value l x)].
Proof.
  intros Hself. with_sound_coefficients.
  exists [u0; u1; u2; u3; u4; u5], [l0; l1; l2; l3; l4; l5].
  repeat (split; [assumption || reflexivity |]).
  intros x Hx. evaluate_surfaces self Hself.
  now rewrite !SurfaceFacts.polynomial_at_positive by assumption.
Qed.

(** X9.  With a sound solver and finite parameters, the two surfaces end at
    the trailing edge as the parameters say: [Z_up(1) = Z_te + dZ_te/2] and
    [Z_lo(1) = Z_te - dZ_te/2], so that the trailing edge is [dZ_te]
    thick. *)
Theorem trailing_edge_values (self : Airfoil.t) :
  Airfoil._coeff self = Some c ->
  Airfoil.Z_up self [Fin 1] = Ok [Fin (zte + dzte / 2)] /\
  Airfoil.Z_lo self [Fin 1] = Ok [Fin (zte - dzte / 2)].
Proof.
  intros Hself. with_sound_coefficients. evaluate_surfaces self Hself.
  rewrite !SurfaceFacts.polynomial_at_positive by lra.
  rewrite !SurfaceFacts.value_six, !SurfaceFacts.Rpower_one.
  split; do 3 f_equal; lra.
Qed.

(** X10.  With a sound solver and finite parameters, each surface passes
    through its crest: [Z_up(X_up) = Z_up] and [Z_lo(X_lo) = Z_lo]. *)
Theorem crest_values (self : Airfoil.t) :
  Airfoil._coeff self = Some c ->
  Airfoil.Z_up self [Fin xu] = Ok [Fin zu] /\
  Airfoil.Z_lo self [Fin xl] = Ok [Fin zl].
Proof.
  intros Hself. with_sound_coefficients. evaluate_surfaces self Hself.
  rewrite !SurfaceFacts.polynomial_at_positive by assumption.
  rewrite !SurfaceFacts.value_six.
  split; do 3 f_equal; lra.
Qed.

(** X11.  With a sound solver and finite parameters, the first coefficient
    of each surface carries the leading-edge radius: [a_up[0]] is
    [sqrt(2*r_le_up)] and [a_lo[0]] is [-sqrt(2*r_le_lo)]; both radii are
    then not negative. *)
Theorem leading_edge_coefficients :
  np.getitem (a_up c) 0 = Ok (Fin (sqrt (2 * rleu))) /\
  np.getitem (a_lo c) 0 = Ok (Fin (- sqrt (2 * rlel))) /\
  0 <= rleu /\ 0 <= rlel.
Proof.
  with_sound_coefficients. rewrite Hup, Hlo. cbn.
  split; [f_equal; f_equal; lra |]. split; [f_equal; f_equal; lra |].
  pose proof init_returned as Hinit.
  apply CoefficientSolver.init_returns in Hinit.
  destruct Hinit as (t_up & s_up & t_lo & s_lo & y_lo
                     & _ & Hsu & _ & _ & Hsl & _).
  unfold finite_parameters in Hsu, Hsl.
  cbn [r_le_up r_le_lo F64.mul math.sqrt rnd exact_arithmetic] in Hsu, Hsl.
  destruct (Rle_dec 0 (2 * rleu)) as [Hu | _]; [| discriminate Hsu].
  destruct (Rle_dec 0 (2 * rlel)) as [Hl | _]; [| discriminate Hsl].
  split; lra.
Qed.

(** X12.  With a sound solver and finite parameters, each crest is a
    stationary point of its surface, and the slopes at the trailing edge
    are [tan(alpha_te - beta_te/2)] on the upper surface and
    [-tan(alpha_te + beta_te/2)] on the lower. *)
Theorem crest_and_trailing_edge_slopes :
  exists u l,
    a_up c = map Fin u /\ a_lo c = map Fin l /\
    derivable_pt_lim (Surface.value u) xu 0 /\
    derivable_pt_lim (Surface.value l) xl 0 /\
    derivable_pt_lim (Surface.value u) 1 (tan (al - be / 2)) /\
    derivable_pt_lim (Surface.value l) 1 (- tan (al + be / 2)).
Proof.
  with_sound_coefficients.
  exists [u0; u1; u2; u3; u4; u5], [l0; l1; l2; l3; l4; l5].
  split; [assumption |]. split; [assumption |].
  repeat split.
  - replace 0 with (Surface.slope [u0; u1; u2; u3; u4; u5] xu).
    + now apply SurfaceFacts.slope_is_derivative.
    + rewrite SurfaceFacts.slope_six. lra.
  - replace 0 with (Surface.slope [l0; l1; l2; l3; l4; l5] xl).
    + now apply SurfaceFacts.slope_is_derivative.
    + rewrite SurfaceFacts.slope_six. lra.
  - replace (tan (al - be / 2))
      with (Surface.slope [u0; u1; u2; u3; u4; u5] 1).
    + apply SurfaceFacts.slope_is_derivative. lra.
    + rewrite SurfaceFacts.slope_six, !SurfaceFacts.Rpower_one. lra.
  - replace (- tan (al + be / 2))
      with (Surface.slope [l0; l1; l2; l3; l4; l5] 1).
    + apply SurfaceFacts.slope_is_derivative. lra.
    + rewrite SurfaceFacts.slope_six, !SurfaceFacts.Rpower_one. lra.
Qed.

(** X13.  With a sound solver and finite parameters, the curvature of a
    surface at its crest is the curvature parameter plus a term in the
    fifth coefficient: the second derivative there is
    [Z_XX + 2.5 * a[4] * X^2.5], the constant 13.25 of the matrix standing
    where the second derivative of [X^4.5] has 15.75.  It is the parameter
    [Z_XX] exactly when [a[4] = 0]. *)
Theorem crest_curvatures :
  exists u l,
    a_up c = map Fin u /\ a_lo c = map Fin l /\
    derivable_pt_lim (Surface.slope u) xu
      (zxxu + 2.5 * nth 4 u 0 * Rpower xu 2.5) /\
    derivable_pt_lim (Surface.slope l) xl
      (zxxl + 2.5 * nth 4 l 0 * Rpower xl 2.5) /\
    (derivable_pt_lim (Surface.slope u) xu zxxu <-> nth 4 u 0 = 0) /\
    (derivable_pt_lim (Surface.slope l) xl zxxl <-> nth 4 l 0 = 0).
Proof.
  with_sound_coefficients.
  exists [u0; u1; u2; u3; u4; u5], [l0; l1; l2; l3; l4; l5].
  split; [assumption |]. split; [assumption |].
  cbn [nth].
  assert (Du : derivable_pt_lim (Surface.slope [u0; u1; u2; u3; u4; u5]) xu
                 (zxxu + 2.5 * u4 * Rpower xu 2.5)).
  { replace (zxxu + 2.5 * u4 * Rpower xu 2.5)
      with (Surface.curvature [u0; u1; u2; u3; u4; u5] xu).
    - now apply SurfaceFacts.curvature_is_derivative.
    - rewrite SurfaceFacts.curvature_six. lra. }
  assert (Dl : derivable_pt_lim (Surface.slope [l0; l1; l2; l3; l4; l5]) xl
                 (zxxl + 2.5 * l4 * Rpower xl 2.5)).
  { replace (zxxl + 2.5 * l4 * Rpower xl 2.5)
      with (Surface.curvature [l0; l1; l2; l3; l4; l5] xl).
    - now apply SurfaceFacts.curvature_is_derivative.
    - rewrite SurfaceFacts.curvature_six. lra. }
  pose proof (exp_pos (2.5 * ln xu)) as Pu. fold (Rpower xu 2.5) in Pu.
  pose proof (exp_pos (2.5 * ln xl)) as Pl. fold (Rpower xl 2.5) in Pl.
  split; [exact Du |]. split; [exact Dl |].
  split; split.
  - intros D. pose proof (uniqueness_limite _ _ _ _ D Du) as E. nra.
  - intros E.
    replace zxxu with (zxxu + 2.5 * u4 * Rpower xu 2.5) by (rewrite E; lra).
    exact Du.
  - intros D. pose proof (uniqueness_limite _ _ _ _ D Dl) as E. nra.
  - intros E.
    replace zxxl with (zxxl + 2.5 * l4 * Rpower xl 2.5) by (rewrite E; lra).
    exact Dl.
Qed.

End SoundSolver.

(** The airfoil of [genome_036], evaluated with the exact solver. *)
Lemma trailing_edge_values_witness :
  Airfoil.Z_up airfoil_036_expressed [Fin 1]
  = Ok [Fin (0.000232 + 0.002 / 2)] /\
  Airfoil.Z_lo airfoil_036_expressed [Fin 1]
  = Ok [Fin (0.000232 - 0.002 / 2)].
Proof.
  apply (trailing_edge_values (LA := ExactLinalg.linalg) exact_solver_sound
           0.02685 0.36 0.1014 (-0.35) 0.02685 0.36 (-0.08) 0.9
           0.000232 0.002 0 (PI / 36) ltac:(lra) ltac:(lra)
           coefficients_036 CoefficientsFacts.init_params_036
           airfoil_036_expressed eq_refl).
Defined.

Lemma crest_values_witness :
  Airfoil.Z_up airfoil_036_expressed [Fin 0.36] = Ok [Fin 0.1014] /\
  Airfoil.Z_lo airfoil_036_expressed [Fin 0.36] = Ok [Fin (-0.08)].
Proof.
  apply (crest_values (LA := ExactLinalg.linalg) exact_solver_sound
           0.02685 0.36 0.1014 (-0.35) 0.02685 0.36 (-0.08) 0.9
           0.000232 0.002 0 (PI / 36) ltac:(lra) ltac:(lra)
           coefficients_036 CoefficientsFacts.init_params_036
           airfoil_036_expressed eq_refl).
Defined.

Lemma leading_edge_coefficients_witness :
  np.getitem (a_up coefficients_036) 0 = Ok (Fin (sqrt (2 * 0.02685))) /\
  np.getitem (a_lo coefficients_036) 0 = Ok (Fin (- sqrt (2 * 0.02685))).
Proof.
  destruct (leading_edge_coefficients (LA := ExactLinalg.linalg)
              exact_solver_sound
              0.02685 0.36 0.1014 (-0.35) 0.02685 0.36 (-0.08) 0.9
              0.000232 0.002 0 (PI / 36) ltac:(lra) ltac:(lra)
              coefficients_036 CoefficientsFacts.init_params_036)
    as (Hu & Hl & _).
  split; assumption.
Defined.

Lemma crest_and_trailing_edge_slopes_witness :
  exists u l,
    a_up coefficients_036 = map Fin u /\
    a_lo coefficients_036 = map Fin l /\
    derivable_pt_lim (Surface.value u) 0.36 0 /\
    derivable_pt_lim (Surface.value l) 0.36 0 /\
    derivable_pt_lim (Surface.value u) 1 (tan (0 - PI / 36 / 2)) /\
    derivable_pt_lim (Surface.value l) 1 (- tan (0 + PI / 36 / 2)).
Proof.
  exact (crest_and_trailing_edge_slopes (LA := ExactLinalg.linalg)
           exact_solver_sound
           0.02685 0.36 0.1014 (-0.35) 0.02685 0.36 (-0.08) 0.9
           0.000232 0.002 0 (PI / 36) ltac:(lra) ltac:(lra)
           coefficients_036 CoefficientsFacts.init_params_036).
Defined.

Lemma crest_curvatures_witness :
  exists c u l,
    Coefficients.init (LA := ExactLinalg.linalg)
      (Some (finite_parameters 0.02 0.36 0.06 (-0.5) 0.02 0.36 (-0.06) 0.5
                               0 0.002 0 0)) = Ok c /\
    a_up c = map Fin u /\ a_lo c = map Fin l /\
    derivable_pt_lim (Surface.slope u) 0.36
      (-0.5 + 2.5 * nth 4 u 0 * Rpower 0.36 2.5) /\
    derivable_pt_lim (Surface.slope l) 0.36
      (0.5 + 2.5 * nth 4 l 0 * Rpower 0.36 2.5) /\
    1 < nth 4 u 0 /\ nth 4 l 0 < -1.
Proof.
  pose proof (ExpressExtra.init_at_036 0.02 0.06 (-0.5) 0.02 (-0.06) 0.5
                0 0.002 0 0 ltac:(lra) ltac:(lra)) as Hinit.
  destruct (crest_curvatures (LA := ExactLinalg.linalg) exact_solver_sound
              0.02 0.36 0.06 (-0.5) 0.02 0.36 (-0.06) 0.5 0 0.002 0 0
              ltac:(lra) ltac:(lra) _ Hinit)
    as (u & l & Hu & Hl & Du & Dl & _ & _).
  eexists. exists u, l.
  split; [exact Hinit |]. split; [exact Hu |]. split; [exact Hl |].
  split; [exact Du |]. split; [exact Dl |].
  cbn [a_up a_lo _a_up _a_lo] in Hu, Hl.
  unfold np.neg in Hl. rewrite map_map in Hl. cbn [F64.neg] in Hl.
  rewrite <- (map_map Ropp Fin) in Hl.
  apply ExactLinalgFacts.map_Fin_inj in Hu, Hl. subst u l.
  assert (Ht : tan (0 + - (0 / 2)) = 0)
    by (replace (0 + - (0 / 2)) with 0 by lra; apply tan_0).
  assert (Ht' : tan (0 + 0 / 2) = 0)
    by (replace (0 + 0 / 2) with 0 by lra; apply tan_0).
  assert (Hs : sqrt (2 * 0.02) = 0.2).
  { replace (2 * 0.02) with (0.2 * 0.2) by lra. apply sqrt_square. lra. }
  rewrite Ht, Ht', Hs.
  unfold mat_vec, Amat_036_inverse. cbn [map nth dot]. split; lra.
Defined.

End BoundaryConditions.

(** ** The curve returned by [express] *)

Module CurveFacts.

Import Airfoil.
Open Scope R_scope.

(** An entry of a row written in two slices. *)
Lemma nth_two_slices (f g : float64 -> float64) (k : nat) (X : array)
      (i : nat) (v : float64) :
  (i < length X)%nat ->
  f (nth i X NaN) = v -> g (nth i X NaN) = v ->
  nth i (map f (firstn k X) ++ map g (skipn k X)) NaN = v.
Proof.
  revert X i. induction k as [| k IH]; intros X i Hi Hf Hg.
  - cbn [firstn skipn map app].
    rewrite (nth_indep _ NaN (g NaN)) by now rewrite length_map.
    now rewrite map_nth.
  - destruct X as [| x X]; [cbn in Hi; lia |].
    destruct i as [| i]; cbn [firstn skipn map app nth length] in *.
    + exact Hf.
    + apply IH; [lia | assumption | assumption].
Qed.

Section AnyArithmetic.

Context {FA : arithmetic}.

(** Coefficients on which the polynomial is defined, when finite. *)
Lemma finite_coefficients (a X z : array) :
  Forall finite a ->
  polynomial a X = Ok z ->
  exists a0 a1 a2 a3 a4 a5 rest,
    a = Fin a0 :: Fin a1 :: Fin a2 :: Fin a3 :: Fin a4 :: Fin a5 :: rest /\
    z = map (polynomial_at (Fin a0) (Fin a1) (Fin a2) (Fin a3) (Fin a4)
                           (Fin a5)) X.
Proof.
  intros Hfin Hz.
  do 6 (destruct a as [| ? a];
        [unfold polynomial, np.getitem in Hz; cbn in Hz; discriminate Hz |]).
  repeat match goal with
         | H : Forall finite (_ :: _) |- _ =>
             let r := fresh "r" in
             let Hf := fresh "Hf" in
             inversion H as [| ? ? Hf ?]; subst; clear H;
             destruct Hf as [r ->]
         end.
  rewrite CoefficientsExtra.polynomial_pointwise in Hz. injection Hz as <-.
  repeat eexists.
Qed.

Context {LA : np.linalg}.

(** The Z row returned, station by station, when the coefficients are
    finite. *)
Lemma express_finite_coefficients (genome : option array) (n_pts : Z)
      (self self' : t) (foil : matrix) (c : Coefficients.t) :
  express genome n_pts self = (Ok foil, self') ->
  _coeff self' = Some c ->
  Forall finite (Coefficients.a_up c) ->
  Forall finite (Coefficients.a_lo c) ->
  exists u0 u1 u2 u3 u4 u5 us l0 l1 l2 l3 l4 l5 ls,
    Coefficients.a_up c =
      Fin u0 :: Fin u1 :: Fin u2 :: Fin u3 :: Fin u4 :: Fin u5 :: us /\
    Coefficients.a_lo c =
      Fin l0 :: Fin l1 :: Fin l2 :: Fin l3 :: Fin l4 :: Fin l5 :: ls /\
    foil =
    [np.row naca0012 0;
     map (polynomial_at (Fin u0) (Fin u1) (Fin u2) (Fin u3) (Fin u4) (Fin u5))
         (np.slice_to (np.row naca0012 0) n_pts)
     ++ map (polynomial_at (Fin l0) (Fin l1) (Fin l2) (Fin l3) (Fin l4)
                           (Fin l5))
            (np.slice_from (np.row naca0012 0) n_pts)].
Proof.
  intros H Hc Hu Hl.
  destruct (AirfoilAssembler.express_returns _ _ _ _ _ H)
    as (p & c' & zu & zl & _ & _ & -> & Hzu & Hzl & ->).
  cbn [_coeff] in Hc. injection Hc as ->.
  destruct (finite_coefficients _ _ _ Hu Hzu)
    as (u0 & u1 & u2 & u3 & u4 & u5 & us & Eu & ->).
  destruct (finite_coefficients _ _ _ Hl Hzl)
    as (l0 & l1 & l2 & l3 & l4 & l5 & ls & El & ->).
  exists u0, u1, u2, u3, u4, u5, us, l0, l1, l2, l3, l4, l5, ls.
  auto.
Qed.

End AnyArithmetic.

(** *** Rounded arithmetic: no overflow on bounded coefficients *)

Section RoundedArithmetic.

Context {FA : arithmetic}.
Hypothesis ieee : ieee_like FA.

(** The stations of the reference curve are doubles of the unit
    interval. *)
Lemma stations_in_unit_interval :
  Forall unit_interval (np.row naca0012 0).
Proof.
  unfold naca0012, np.row, np.of_reals. cbn [nth map].
  repeat (constructor; [apply (ArithmeticFacts.unit_literal ieee); lra |]).
  constructor.
Qed.

(** The rounding of a real of magnitude [B] at most. *)
Lemma rnd_bounded (x B : R) :
  - B <= x <= B -> B <= 1e299 ->
  bounded (1.001 * B + 1e-300) (rnd x).
Proof.
  intros Hx HB.
  destruct (ArithmeticFacts.rnd_near ieee x B) as (y & Hy & By);
    [apply Rabs_le; lra | lra |].
  exists y. split; [exact Hy | lra].
Qed.

(** A power of a station: a double of the unit interval again. *)
Lemma pow_unit (x : float64) (y : R) :
  unit_interval x -> 0 < y -> unit_interval (F64.pow x y).
Proof.
  intros (r & -> & Hr) Hy. unfold F64.pow.
  destruct (Req_dec_T y 0) as [-> | _]; [lra |].
  destruct (total_order_T r 0) as [[Hlt | _] | Hgt]; [lra | |].
  - destruct (Rlt_dec 0 y) as [_ | Hn]; [| contradiction].
    exists 0. split; [reflexivity | lra].
  - assert (Hp : 0 <= Rpower r y <= 1).
    { split.
      - unfold Rpower. left. apply exp_pos.
      - rewrite <- (SurfaceFacts.Rpower_one y).
        apply Rle_Rpower_l; lra. }
    destruct (ArithmeticFacts.unit_literal ieee _ Hp) as (w & Hw & Bw).
    exists w. split; [exact Hw | exact Bw].
Qed.

Lemma mul_bounded (A : R) (a w : float64) :
  bounded A a -> unit_interval w -> A <= 1e299 ->
  bounded (1.001 * A + 1e-300) (a * w).
Proof.
  intros (r & -> & Hr) (v & -> & Hv) HA. cbn [F64.mul].
  apply rnd_bounded; [nra | exact HA].
Qed.

Lemma add_bounded (A B : R) (a b : float64) :
  bounded A a -> bounded B b -> A + B <= 1e299 ->
  bounded (1.001 * (A + B) + 1e-300) (a + b).
Proof.
  intros (r & -> & Hr) (v & -> & Hv) HA. cbn [F64.add].
  apply rnd_bounded; [lra | exact HA].
Qed.

Lemma bounded_le (A B : R) (a : float64) :
  bounded A a -> A <= B -> bounded B a.
Proof. intros (r & -> & Hr) H. exists r. split; [reflexivity | lra]. Qed.

(** The polynomial at a station, on coefficients of magnitude [1e298] at
    most: no sum overflows. *)
Lemma polynomial_at_bounded (a0 a1 a2 a3 a4 a5 x : float64) :
  bounded 1e298 a0 -> bounded 1e298 a1 -> bounded 1e298 a2 ->
  bounded 1e298 a3 -> bounded 1e298 a4 -> bounded 1e298 a5 ->
  unit_interval x ->
  bounded 1e299 (polynomial_at a0 a1 a2 a3 a4 a5 x).
Proof.
  intros H0 H1 H2 H3 H4 H5 Hx. unfold polynomial_at.
  assert (T : forall a y, bounded 1e298 a -> 0 < y ->
                bounded 1.01e298 (a * x ** y)%f64).
  { intros a y Ha Hy.
    apply (bounded_le (1.001 * 1e298 + 1e-300)); [| lra].
    apply mul_bounded; [exact Ha | now apply pow_unit | lra]. }
  pose proof (T a0 0.5 H0 ltac:(lra)) as T0.
  pose proof (T a1 1.5 H1 ltac:(lra)) as T1.
  pose proof (T a2 2.5 H2 ltac:(lra)) as T2.
  pose proof (T a3 3.5 H3 ltac:(lra)) as T3.
  pose proof (T a4 4.5 H4 ltac:(lra)) as T4.
  pose proof (T a5 5.5 H5 ltac:(lra)) as T5.
  pose proof (add_bounded _ _ _ _ T0 T1 ltac:(lra)) as S1.
  apply (bounded_le _ 2.1e298) in S1; [| lra].
  pose proof (add_bounded _ _ _ _ S1 T2 ltac:(lra)) as S2.
  apply (bounded_le _ 3.2e298) in S2; [| lra].
  pose proof (add_bounded _ _ _ _ S2 T3 ltac:(lra)) as S3.
  apply (bounded_le _ 4.3e298) in S3; [| lra].
  pose proof (add_bounded _ _ _ _ S3 T4 ltac:(lra)) as S4.
  apply (bounded_le _ 5.4e298) in S4; [| lra].
  pose proof (add_bounded _ _ _ _ S4 T5 ltac:(lra)) as S5.
  apply (bounded_le _ 1e299) in S5; [exact S5 | lra].
Qed.

Lemma bounded_finite (B : R) (a : float64) : bounded B a -> finite a.
Proof. intros (r & -> & _). now exists r. Qed.

Context {LA : np.linalg}.

(** X14.  In every arithmetic that rounds as IEEE arithmetic does,
    [express] adds no NaN and no infinity of its own to coefficients of
    moderate size: every station of the reference curve is a double of
    [[0, 1]], so that no power is invalid, and when [express] returns and
    the coefficients of both surfaces are finite and of magnitude [1e298]
    at most, no product and no sum overflows and every entry of the matrix
    is finite. *)
Theorem express_finite (genome : option array) (n_pts : Z)
        (self self' : t) (foil : matrix) (c : Coefficients.t) :
  express genome n_pts self = (Ok foil, self') ->
  _coeff self' = Some c ->
  Forall (bounded 1e298) (Coefficients.a_up c) ->
  Forall (bounded 1e298) (Coefficients.a_lo c) ->
  Forall (Forall finite) foil.
Proof.
  intros H Hc Hu Hl.
  assert (Fu : Forall finite (Coefficients.a_up c))
    by (eapply Forall_impl; [| exact Hu]; apply bounded_finite).
  assert (Fl : Forall finite (Coefficients.a_lo c))
    by (eapply Forall_impl; [| exact Hl]; apply bounded_finite).
  destruct (express_finite_coefficients _ _ _ _ _ _ H Hc Fu Fl)
    as (u0 & u1 & u2 & u3 & u4 & u5 & us & l0 & l1 & l2 & l3 & l4 & l5 & ls
        & Eu & El & ->).
  rewrite Eu in Hu. rewrite El in Hl.
  repeat match goal with
         | B : Forall (bounded _) (_ :: _) |- _ =>
             let Hb := fresh "Hb" in
             inversion B as [| ? ? Hb ?]; subst; clear B
         end.
  pose proof stations_in_unit_interval as HX.
  rewrite <- (firstn_skipn
                (np.slice_bound (length (np.row naca0012 0)) n_pts)
                (np.row naca0012 0)) in HX.
  apply Forall_app in HX. destruct HX as [Hto Hfrom].
  fold (np.slice_to (np.row naca0012 0) n_pts) in Hto.
  fold (np.slice_from (np.row naca0012 0) n_pts) in Hfrom.
  apply Forall_cons; [| apply Forall_cons; [| apply Forall_nil]].
  - eapply Forall_impl; [| exact stations_in_unit_interval].
    intros x (r & -> & _). now exists r.
  - apply Forall_app. split; apply Forall_map;
      (eapply Forall_impl; [| eassumption]);
      intros x Hx; apply (bounded_finite 1e299);
      now apply polynomial_at_bounded.
Qed.

End RoundedArithmetic.

(** *** Exact arithmetic: the leading edge *)

(** The station of index 99 is the leading edge [X = 0]. *)
Lemma station_99 : np.item (np.row naca0012 0) 99 = Fin 0.
Proof.
  unfold naca0012, np.item, np.row, np.of_reals.
  cbn [nth map rnd exact_arithmetic]. f_equal. lra.
Qed.

Section AnySolver.

Context {LA : np.linalg}.

(** X15.  The curve returned passes through the origin: with finite
    coefficients, the column of index 99 of the matrix is the leading edge
    [(X, Z) = (0, 0)], on whichever side of the bound [n_pts] it falls. *)
Theorem express_leading_edge (genome : option array) (n_pts : Z)
        (self self' : t) (foil : matrix) (c : Coefficients.t) :
  express genome n_pts self = (Ok foil, self') ->
  _coeff self' = Some c ->
  Forall finite (Coefficients.a_up c) ->
  Forall finite (Coefficients.a_lo c) ->
  np.item (np.row foil 0) 99 = Fin 0 /\ np.item (np.row foil 1) 99 = Fin 0.
Proof.
  intros H Hc Hu Hl.
  destruct (express_finite_coefficients _ _ _ _ _ _ H Hc Hu Hl)
    as (u0 & u1 & u2 & u3 & u4 & u5 & us & l0 & l1 & l2 & l3 & l4 & l5 & ls
        & _ & _ & ->).
  cbn [np.row nth]. split; [exact station_99 |].
  unfold np.item, np.slice_to, np.slice_from.
  pose proof station_99 as H99. unfold np.item in H99.
  apply nth_two_slices.
  - destruct AirfoilFacts.naca0012_row_lengths as [-> _]. lia.
  - rewrite H99. apply SurfaceFacts.polynomial_at_zero.
  - rewrite H99. apply SurfaceFacts.polynomial_at_zero.
Qed.

End AnySolver.

Lemma finite_map_Fin (v : list R) : Forall finite (map Fin v).
Proof. apply Forall_map, Forall_forall. intros r _. now exists r. Qed.

Lemma finite_neg_map_Fin (v : list R) :
  Forall finite (np.neg (map Fin v)).
Proof.
  unfold np.neg. rewrite map_map. apply Forall_map, Forall_forall.
  intros r _. now exists (- r).
Qed.

(** The trailing-edge slope and the leading-edge term of [params_036]. *)
Lemma tan_of_wedge_036 :
  -1 < tan (0 - PI / 36 / 2) < 0 /\ 0 < tan (0 + PI / 36 / 2) < 1.
Proof.
  pose proof PI_RGT_0 as Hpi.
  pose proof tan_PI4 as H4. pose proof tan_0 as H0.
  pose proof (tan_neg (PI / 4)) as Hn. rewrite H4 in Hn.
  pose proof (tan_increasing (- (PI / 4)) (0 - PI / 36 / 2)
                ltac:(lra) ltac:(lra) ltac:(lra)) as A.
  pose proof (tan_increasing (0 - PI / 36 / 2) 0
                ltac:(lra) ltac:(lra) ltac:(lra)) as B.
  pose proof (tan_increasing 0 (0 + PI / 36 / 2)
                ltac:(lra) ltac:(lra) ltac:(lra)) as C.
  pose proof (tan_increasing (0 + PI / 36 / 2) (PI / 4)
                ltac:(lra) ltac:(lra) ltac:(lra)) as D.
  lra.
Qed.

Lemma sqrt_of_radius_036 : 0 <= sqrt (2 * 0.02685) <= 1.
Proof.
  split; [apply sqrt_pos |].
  rewrite <- sqrt_1. apply sqrt_le_1; lra.
Qed.

(** The coefficients of [genome_036] are of moderate size. *)
Lemma bounded_coefficients_036 :
  Forall (bounded 1e298) (Coefficients.a_up ExactLinalg.coefficients_036) /\
  Forall (bounded 1e298) (Coefficients.a_lo ExactLinalg.coefficients_036).
Proof.
  destruct tan_of_wedge_036 as [Tu Tl].
  pose proof sqrt_of_radius_036 as Sq.
  unfold ExactLinalg.coefficients_036, Coefficients.a_up, Coefficients.a_lo.
  cbn [Coefficients._a_up Coefficients._a_lo].
  unfold np.neg, ExactLinalg.mat_vec, ExactLinalg.Amat_036_inverse,
    ExactLinalg.Bvec_up_036, ExactLinalg.Bvec_lo_036.
  cbn [map ExactLinalg.dot F64.neg].
  split;
    repeat (apply Forall_cons;
            [eexists; split; [reflexivity | split; lra] |]);
    apply Forall_nil.
Qed.

(** The genome [genome_036], in exact arithmetic and with the exact
    solver. *)
Lemma express_finite_witness :
  exists foil,
    express (LA := ExactLinalg.linalg) (Some ExactLinalg.genome_036) 100
      ExactLinalg.airfoil_036
    = (Ok foil, ExactLinalg.airfoil_036_expressed) /\
    Forall (bounded 1e298)
           (Coefficients.a_up ExactLinalg.coefficients_036) /\
    Forall (bounded 1e298)
           (Coefficients.a_lo ExactLinalg.coefficients_036) /\
    Forall (Forall finite) foil.
Proof.
  destruct (AirfoilAssembler.express_genome_036 100)
    as (zu & zl & _ & _ & H).
  destruct bounded_coefficients_036 as [Bu Bl].
  eexists. split; [exact H |].
  split; [exact Bu |]. split; [exact Bl |].
  exact (express_finite (FA := exact_arithmetic) (LA := ExactLinalg.linalg)
           ArithmeticFacts.exact_ieee_like _ _ _ _ _ _ H eq_refl Bu Bl).
Defined.

Lemma express_leading_edge_witness :
  exists foil,
    express (LA := ExactLinalg.linalg) (Some ExactLinalg.genome_036) 100
      ExactLinalg.airfoil_036
    = (Ok foil, ExactLinalg.airfoil_036_expressed) /\
    Forall finite (Coefficients.a_up ExactLinalg.coefficients_036) /\
    Forall finite (Coefficients.a_lo ExactLinalg.coefficients_036) /\
    np.item (np.row foil 0) 99 = Fin 0 /\
    np.item (np.row foil 1) 99 = Fin 0.
Proof.
  destruct (AirfoilAssembler.express_genome_036 100)
    as (zu & zl & _ & _ & H).
  eexists. split; [exact H |].
  split; [apply finite_map_Fin |]. split; [apply finite_neg_map_Fin |].
  exact (express_leading_edge (LA := ExactLinalg.linalg) _ _ _ _ _ _ H
           eq_refl (finite_map_Fin _) (finite_neg_map_Fin _)).
Defined.

End CurveFacts.

(** ** A crest at the trailing edge

    In exact arithmetic, for every solver whose result solves the system
    exactly. *)

Module SingularSystems.

Import Parameters Coefficients ExactLinalg.
Open Scope R_scope.

Section SoundSolver.

Context {LA : np.linalg}.
Hypothesis sound : sound_solver LA.

Variables rleu xu zu zxxu rlel xl zl zxxl zte dzte al be : R.

(** What a sound solver has solved when [Coefficients] returns: the upper
    system when [X_up] is positive, the lower when [X_lo] is. *)
Lemma solved_systems (c : Coefficients.t) :
  Coefficients.init
    (Some (finite_parameters rleu xu zu zxxu rlel xl zl zxxl zte dzte al be))
  = Ok c ->
  (0 < xu ->
   exists u0 u1 u2 u3 u4 u5,
     mat_vec (Amat_real xu) [u0; u1; u2; u3; u4; u5] =
       [zte + dzte / 2; zu; tan (al - be / 2); 0; zxxu; sqrt (2 * rleu)]) /\
  (0 < xl ->
   exists v0 v1 v2 v3 v4 v5,
     mat_vec (Amat_real xl) [v0; v1; v2; v3; v4; v5] =
       [- zte + dzte / 2; - zl; tan (al + be / 2); 0; - zxxl;
        sqrt (2 * rlel)]).
Proof.
  intros Hinit. apply CoefficientSolver.init_returns in Hinit.
  destruct Hinit as (t_up & s_up & t_lo & s_lo & y_lo
                     & Htu & Hsu & Hup & Htl & Hsl & Hlo & _).
  unfold finite_parameters in *.
  cbn [r_le_up X_up Z_up Z_XX_up r_le_lo X_lo Z_lo Z_XX_lo
       Z_te dZ_te alpha_te beta_te] in *.
  rewrite !F64Facts.div_Fin in * by lra.
  cbn [F64.add F64.sub F64.neg F64.mul math.tan math.sqrt rnd
       exact_arithmetic] in *.
  injection Htu as <-. injection Htl as <-.
  destruct (Rle_dec 0 (2 * rleu)) as [_ | _]; [| discriminate Hsu].
  destruct (Rle_dec 0 (2 * rlel)) as [_ | _]; [| discriminate Hsl].
  injection Hsu as <-. injection Hsl as <-.
  split; intros Hx.
  - rewrite AmatFacts.Amat_pos in Hup by assumption.
    change [Fin (zte + dzte / 2); Fin zu; Fin (tan (al + - (be / 2)));
            Fin 0.0; Fin zxxu; Fin (sqrt (2 * rleu))]
      with (map Fin [zte + dzte / 2; zu; tan (al + - (be / 2)); 0.0; zxxu;
                     sqrt (2 * rleu)]) in Hup.
    apply sound in Hup. destruct Hup as (yu & _ & Lu & Su).
    destruct (BoundaryConditions.length_6 yu Lu)
      as (u0 & u1 & u2 & u3 & u4 & u5 & ->).
    exists u0, u1, u2, u3, u4, u5.
    rewrite Su. repeat (f_equal; try lra).
  - rewrite AmatFacts.Amat_pos in Hlo by assumption.
    change [Fin (- zte + dzte / 2); Fin (- zl); Fin (tan (al + be / 2));
            Fin 0.0; Fin (- zxxl); Fin (sqrt (2 * rlel))]
      with (map Fin [- zte + dzte / 2; - zl; tan (al + be / 2); 0.0; - zxxl;
                     sqrt (2 * rlel)]) in Hlo.
    apply sound in Hlo. destruct Hlo as (yl & _ & Ll & Sl).
    destruct (BoundaryConditions.length_6 yl Ll)
      as (v0 & v1 & v2 & v3 & v4 & v5 & ->).
    exists v0, v1, v2, v3, v4, v5.
    rewrite Sl. repeat (f_equal; try lra).
Qed.

(** X16.  A crest at the trailing edge makes the system singular: at
    [X = 1] the rows of the crest repeat the rows of the trailing edge.
    With a sound solver, [Coefficients] raises when [X_up = 1] and the
    crest height [Z_up] is not the trailing-edge height [Z_te + dZ_te/2] or
    the trailing-edge slope [tan(alpha_te - beta_te/2)] is not zero; the
    same holds on the lower surface. *)
Theorem crest_at_the_trailing_edge :
  (xu = 1 /\ (zu <> zte + dzte / 2 \/ tan (al - be / 2) <> 0)) \/
  (xl = 1 /\ (zl <> zte - dzte / 2 \/ tan (al + be / 2) <> 0)) ->
  exists e,
    Coefficients.init
      (Some (finite_parameters rleu xu zu zxxu rlel xl zl zxxl zte dzte
                               al be))
    = Raise e.
Proof.
  intros H.
  destruct (Coefficients.init _) as [c | e] eqn:Hinit; [| now exists e].
  exfalso. destruct (solved_systems c Hinit) as [Hu Hl].
  destruct H as [[Hx H] | [Hx H]].
  - destruct (Hu ltac:(lra)) as (u0 & u1 & u2 & u3 & u4 & u5 & S).
    subst xu. cbn [mat_vec Amat_real map dot] in S.
    rewrite !SurfaceFacts.Rpower_one in S.
    injection S as U0 U1 U2 U3 U4 U5.
    destruct H as [H | H]; apply H; lra.
  - destruct (Hl ltac:(lra)) as (v0 & v1 & v2 & v3 & v4 & v5 & S).
    subst xl. cbn [mat_vec Amat_real map dot] in S.
    rewrite !SurfaceFacts.Rpower_one in S.
    injection S as L0 L1 L2 L3 L4 L5.
    destruct H as [H | H]; apply H; lra.
Qed.

End SoundSolver.

(** An upper crest at the trailing edge, 0.06 high, with a trailing edge
    at 0.001. *)
Lemma crest_at_the_trailing_edge_witness :
  exists e,
    Coefficients.init (LA := ExactLinalg.linalg)
      (Some (finite_parameters 0.01 1 0.06 (-0.5) 0.01 0.36 (-0.06) 0.5
                               0 0.002 0 0))
    = Raise e.
Proof.
  apply (crest_at_the_trailing_edge (LA := ExactLinalg.linalg)
           BoundaryConditions.exact_solver_sound
           0.01 1 0.06 (-0.5) 0.01 0.36 (-0.06) 0.5 0 0.002 0 0).
  left. split; [reflexivity |]. left. lra.
Defined.

End SingularSystems.

(** ** The exceptions of [express]

    In every arithmetic. *)

Module ExceptionFacts.

Import Airfoil.

Section NumpyLikeSolver.

Context {FA : arithmetic}.

(** [Parameters] raises nothing but the shape mismatch of the genome. *)
Lemma parameters_raise (genome : option array) (e : exn) :
  Parameters.init genome = Raise e -> e = ValueError.
Proof.
  unfold Parameters.init, Parameters.scaled.
  destruct genome as [g |]; [| discriminate].
  unfold np.setitem_fancy, np.broadcast_to.
  destruct (Nat.eqb (length g) (length Parameters.genome_slots));
    [discriminate |].
  destruct g as [| v [| w g]]; cbn; congruence.
Qed.

Context {LA : np.linalg}.
Hypothesis numpy_like : numpy_like_solver LA.

(** [Coefficients] on parameters raises what [math.tan], [math.sqrt] and
    the solver raise. *)
Lemma coefficients_raise (p : Parameters.t) (e : exn) :
  Coefficients.init (Some p) = Raise e -> e = ValueError \/ e = LinAlgError.
Proof.
  destruct numpy_like as [Hraise _].
  unfold Coefficients.init, Coefficients._calc_a_up, Coefficients._calc_a_lo.
  cbn [Coefficients.getattr bind ret result_Monad].
  assert (Htan : forall a e', math.tan a = Raise e' -> e' = ValueError)
    by (intros [x | | |] e'; cbn; congruence).
  assert (Hsqrt : forall a e', math.sqrt a = Raise e' -> e' = ValueError).
  { intros [x | | |] e'; cbn; try congruence.
    destruct (Rle_dec 0 x); congruence. }
  repeat match goal with
         | |- context [match math.tan ?a with _ => _ end] =>
             let E := fresh "E" in
             destruct (math.tan a) eqn:E;
             [| apply Htan in E; intros [= <-]; now left]
         | |- context [match math.sqrt ?a with _ => _ end] =>
             let E := fresh "E" in
             destruct (math.sqrt a) eqn:E;
             [| apply Hsqrt in E; intros [= <-]; now left]
         | |- context [match np.solve ?A ?b with _ => _ end] =>
             let E := fresh "E" in
             destruct (np.solve A b) eqn:E;
             [| apply Hraise in E; intros [= <-]; now right]
         end.
  discriminate.
Qed.

(** The coefficients it returns are six on each surface. *)
Lemma coefficients_length (p : Parameters.t) (c : Coefficients.t) :
  Coefficients.init (Some p) = Ok c ->
  length (Coefficients.a_up c) = 6%nat /\
  length (Coefficients.a_lo c) = 6%nat.
Proof.
  destruct numpy_like as [_ Hlen]. intros H.
  apply CoefficientSolver.init_returns in H.
  destruct H as (t_up & s_up & t_lo & s_lo & y_lo
                 & _ & _ & Hup & _ & _ & Hlo & ->).
  apply Hlen in Hup, Hlo. unfold np.neg. rewrite length_map.
  now split.
Qed.

Lemma six_coefficients (a X : array) :
  length a = 6%nat -> exists z, polynomial a X = Ok z.
Proof.
  intros H. do 6 (destruct a as [| ? a]; [discriminate H |]).
  apply AirfoilFacts.polynomial_defined.
Qed.

(** X17.  With a solver that behaves as NumPy documents, an exception of
    [express] comes from the constructors of [Parameters] and
    [Coefficients] and from nowhere else: it is an [AttributeError] when
    the instance has no parameters, and a [ValueError] or a [LinAlgError]
    otherwise; the evaluation of the two surfaces and the two slice
    assignments never raise.  The coefficients of the instance are then
    the ones it had before the call. *)
Theorem express_exceptions (genome : option array) (n_pts : Z)
        (self self' : t) (e : exn) :
  express genome n_pts self = (Raise e, self') ->
  _coeff self' = _coeff self /\
  ((e = AttributeError /\ params self = None) \/
   (params self <> None /\ (e = ValueError \/ e = LinAlgError))).
Proof.
  rewrite AirfoilFacts.express_naca0012.
  destruct (params self) as [p0 |] eqn:Hself.
  2: { intros [= <- <-]. split; [reflexivity |]. now left. }
  destruct (Parameters.init genome) as [p | e0] eqn:Hp.
  2: { intros [= <- <-]. split; [reflexivity |]. right.
       split; [discriminate |]. left.
       exact (parameters_raise _ _ Hp). }
  destruct (Coefficients.init (Some p)) as [c | e0] eqn:Hc.
  2: { intros [= <- <-]. split; [reflexivity |]. right.
       split; [discriminate |]. exact (coefficients_raise _ _ Hc). }
  cbv zeta.
  destruct (coefficients_length _ _ Hc) as [Lu Ll].
  destruct (six_coefficients _ (np.slice_to (np.row naca0012 0) n_pts) Lu)
    as [zu ->].
  destruct (six_coefficients _ (np.slice_from (np.row naca0012 0) n_pts) Ll)
    as [zl ->].
  discriminate.
Qed.

End NumpyLikeSolver.

(** A genome of the wrong length given to a constructed airfoil. *)
Lemma express_exceptions_witness :
  express (LA := ExactLinalg.linalg) (Some []) 100 ExactLinalg.airfoil_036
  = (Raise ValueError, ExactLinalg.airfoil_036) /\
  _coeff ExactLinalg.airfoil_036 = _coeff ExactLinalg.airfoil_036 /\
  ((ValueError = AttributeError /\ params ExactLinalg.airfoil_036 = None) \/
   (params ExactLinalg.airfoil_036 <> None /\
    (ValueError = ValueError \/ ValueError = LinAlgError))).
Proof.
  assert (H : express (LA := ExactLinalg.linalg) (Some []) 100
                ExactLinalg.airfoil_036
              = (Raise ValueError, ExactLinalg.airfoil_036))
    by (rewrite AirfoilFacts.express_naca0012; reflexivity).
  split; [exact H |].
  exact (express_exceptions (LA := ExactLinalg.linalg)
           BoundaryConditions.exact_solver_numpy_like _ _ _ _ _ H).
Defined.

End ExceptionFacts.
